(** * python_instance.py: the Pulsar Functions Python instance runtime

    A shallow embedding of
    [pulsar-functions/instance/src/main/python/python_instance.py]:
    the bounded hand-off queue between the consumers' listener callbacks
    and the execution thread, the per-message loop body with its two
    [except Exception] handlers, the routing of results to the producer,
    the [Stats] counters and exception lists, and the spawner watchdog.

    Conventions of the embedding.
    - Python [float]s (clock readings, counter values, latencies) are exact
      rationals [Q]; rounding of IEEE doubles is not modelled.
    - [bytes] are [list byte]; [str] is [string].
    - Methods are computations in the monad [M]: they thread the whole
      process state and either return a value or raise a Python exception.
    - Everything the process shows to the outside (acknowledgements,
      [send_async] calls, timers, signals, log-handler swaps) is appended
      to the [trace] of the state.
    - The user function, the serdes, the clock and the [contextimpl]
      module are collaborators outside this file; their behaviour is the
      record [Env]. *)

From Stdlib Require Import ZArith QArith Qround Lia Lqa Bool Permutation.
From Stdlib.Strings Require Import Ascii String Byte.
From stdpp Require Import base option list gmap strings.

Local Open Scope Z_scope.

(** ** Python scalars *)

Abbreviation bytes := (list byte).

(** [int(x)] of a float, and [long(x)] under Python 2: truncation towards
    zero. *)
Definition py_int (x : Q) : Z := Z.quot (Qnum x) (Zpos (Qden x)).

(** Python comparisons on floats. *)
Definition py_le (x y : Q) : bool := Qle_bool x y.
Definition py_gt (x y : Q) : bool := negb (Qle_bool x y).

(** ** [base64.urlsafe_b64encode] (RFC 4648, section 5)

    The standard library function used by [base64ify]: three input bytes
    give four characters of the alphabet [A-Z a-z 0-9 - _]; a last group of
    one or two bytes is padded with [=]. *)
Module Base64.

Definition urlsafe_alphabet : string :=
  "ABCDEFGHIJKLMNOPQRSTUVWXYZabcdefghijklmnopqrstuvwxyz0123456789-_".

(** The character of a six-bit value. *)
Definition sextet (n : N) : ascii :=
  match String.get (N.to_nat (N.land n 63)) urlsafe_alphabet with
  | Some c => c
  | None => "="%char
  end.

Definition pad : ascii := "="%char.

Fixpoint encode_chars (input : bytes) : list ascii :=
  match input with
  | [] => []
  | [a] =>
      let n := N.shiftl (Byte.to_N a) 16 in
      [sextet (N.shiftr n 18); sextet (N.shiftr n 12); pad; pad]
  | [a; b] =>
      let n := N.lor (N.shiftl (Byte.to_N a) 16) (N.shiftl (Byte.to_N b) 8) in
      [sextet (N.shiftr n 18); sextet (N.shiftr n 12); sextet (N.shiftr n 6); pad]
  | a :: b :: c :: rest =>
      let n := N.lor (N.lor (N.shiftl (Byte.to_N a) 16) (N.shiftl (Byte.to_N b) 8))
                     (Byte.to_N c) in
      sextet (N.shiftr n 18) :: sextet (N.shiftr n 12) ::
      sextet (N.shiftr n 6) :: sextet n :: encode_chars rest
  end.

(** The encoded text, as the ASCII bytes Python returns. *)
Definition urlsafe_b64encode (input : bytes) : bytes :=
  map byte_of_ascii (encode_chars input).

End Base64.

(** ** [base64ify] *)

(** The argument of [base64ify]: a [bytes] or a [str] object. *)
Inductive bytes_or_str :=
| PyBytes (b : bytes)
| PyStr (s : string).

(** [bytes.decode('ascii')] and [str.encode('utf8')]: a [string] of this
    development already is the sequence of its UTF-8 bytes. *)
Definition decode_ascii (b : bytes) : string := string_of_list_byte b.
Definition encode_utf8 (s : string) : bytes := list_byte_of_string s.

(** [base64ify(bytes_or_str)]; [PY3] is [sys.version_info[0] >= 3]. Under
    Python 2 a [str] is its own byte string, and the result stays one. *)
Definition base64ify (PY3 : bool) (bytes_or_str : bytes_or_str) : string :=
  let input_bytes :=
    match bytes_or_str with
    | PyStr s => if PY3 then encode_utf8 s else list_byte_of_string s
    | PyBytes b => b
    end in
  let output_bytes := Base64.urlsafe_b64encode input_bytes in
  if PY3 then decode_ascii output_bytes else string_of_list_byte output_bytes.

(** ** The function descriptor and the instance configuration *)

(** [Function_pb2.ProcessingGuarantees]. *)
Inductive ProcessingGuarantees := ATLEAST_ONCE | ATMOST_ONCE | EFFECTIVELY_ONCE.

#[global] Instance ProcessingGuarantees_eq_dec : EqDecision ProcessingGuarantees.
Proof. solve_decision. Defined.

(** The fields of [function_details] that the instance reads after start-up.
    A protobuf string that the code compares with [None] is an [option]. *)
Record FunctionDetails := {
  tenant : string;
  namespace : string;
  name : string;
  processingGuarantees : ProcessingGuarantees;
  autoAck : bool;
  sink_topic : option string;
  sink_serDeClassName : option string;
  logTopic : option string
}.

(** [InstanceConfig = namedtuple('InstanceConfig', ...)]. *)
Record InstanceConfig := {
  instance_id : string;
  function_id : string;
  function_version : string;
  function_details : FunctionDetails;
  max_buffered_tuples : Z
}.

(** Which of [self.function_class] and [self.function_purefunction] was set
    by [run]. *)
Inductive UserFunction := FunctionClass | PureFunction.

(** What [__init__] and [run] fix for the life of the instance. *)
Record Config := {
  instance_config : InstanceConfig;
  expected_healthcheck_interval : Q;
  user_function : UserFunction;
  PY3 : bool
}.

Definition details (cfg : Config) : FunctionDetails :=
  function_details (instance_config cfg).

(** [self.atmost_once], [self.atleast_once], [self.auto_ack]. *)
Definition atmost_once (cfg : Config) : bool :=
  bool_decide (processingGuarantees (details cfg) = ATMOST_ONCE).
Definition atleast_once (cfg : Config) : bool :=
  bool_decide (processingGuarantees (details cfg) = ATLEAST_ONCE).
Definition auto_ack (cfg : Config) : bool := autoAck (details cfg).

(** [self.metrics_labels]. *)
Definition metrics_labels (cfg : Config) : list string :=
  [tenant (details cfg); namespace (details cfg); name (details cfg);
   instance_id (instance_config cfg)].

(** [self.log_topic_handler is not None]: [__init__] creates the handler when
    [logTopic] is neither [None] nor empty. *)
Definition has_log_topic_handler (cfg : Config) : bool :=
  match logTopic (details cfg) with
  | Some t => negb (String.eqb t "")
  | None => false
  end.

(** ** Messages and the queue *)

(** A serde object, named by its class. *)
Definition Serde := string.
Definition DEFAULT_SERIALIZER : Serde := "serde.IdentitySerDe".

(** A transport message: [message.data()] and
    [message.message_id().serialize()]. *)
Record Message := {
  data : bytes;
  message_id : bytes
}.

(** A consumer handle; [consumer.topic()] is [consumer_topic]. *)
Record Consumer := {
  consumer_topic : string;
  consumer_subscription : string
}.

(** [InternalMessage = namedtuple('InternalMessage',
    'message topic serde consumer')]. *)
Record InternalMessage := {
  message : Message;
  topic : string;
  serde : Serde;
  consumer : Consumer
}.

(** What the queue carries: an [InternalMessage] or an
    [InternalQuitMessage]. *)
Inductive queue_entry :=
| Work (item : InternalMessage)
| Quit.

(** [pulsar.Result]: [Ok] or one of the error codes. *)
Inductive Result :=
| ResultOk
| ResultError (code : positive).

#[global] Instance Result_eq_dec : EqDecision Result.
Proof. solve_decision. Defined.

(** ** Exceptions *)

(** A raised Python exception: whether it is an instance of [Exception]
    (and not only of [BaseException], as [SystemExit], [KeyboardInterrupt]
    and [GeneratorExit] are), and the text [traceback.format_exc()] gives
    while it is handled. *)
Record PyExc := {
  exc_type : string;
  isinstance_Exception : bool;
  format_exc : string
}.

(** What a call to a collaborator does. *)
Inductive outcome (A : Type) :=
| Returns (a : A)
| Raises (e : PyExc).
Arguments Returns {A} a.
Arguments Raises {A} e.

(** Objects handed between the serdes and the user function. *)
Definition PyObject := string.

(** ** What the process does to the outside *)

Inductive event :=
| Acknowledge (c : Consumer) (m : Message)
    (* [consumer.acknowledge(message)] *)
| SendAsync (payload : bytes) (properties : gmap string string)
            (cb_consumer : Consumer) (cb_message : Message)
    (* [producer.send_async(payload,
          partial(self.done_producing, cb_consumer, cb_message),
          properties=props)] *)
| CreateProducer (sink : string)
    (* [pulsar_client.create_producer(sink, ...)] *)
| LogRedirect
    (* [log.remove_all_handlers(); log.add_handler(self.log_topic_handler)] *)
| LogRestore
    (* [log.remove_all_handlers(); log.add_handler(self.saved_log_handler)] *)
| TimerStart (interval : Q)
    (* [Timer(interval, self.process_spawner_health_check_timer).start()] *)
| Kill
    (* [os.kill(os.getpid(), signal.SIGKILL)] *).

(** ** Stats *)

(** An entry of an exception list: [(traceback.format_exc(),
    int(time.time() * 1000))]. *)
Definition exception_record : Type := string * Z.

Definition TOTAL_PROCESSED : string := "__function_total_processed__".
Definition TOTAL_SUCCESSFULLY_PROCESSED : string :=
  "__function_total_successfully_processed__".
Definition TOTAL_SYSTEM_EXCEPTIONS : string := "__function_total_system_exceptions__".
Definition TOTAL_USER_EXCEPTIONS : string := "__function_total_user_exceptions__".
Definition PROCESS_LATENCY_MS : string := "__function_process_latency_ms__".

(** The class attributes of [Stats]: one object each, shared by every
    [Stats()] of the process. The Prometheus [Counter]s and the [Summary]
    keep one child per label tuple; a child that was never touched reads 0.
    [counter_values] holds [_value] of the counters' children,
    [summary_sum] and [summary_count] hold [_sum] and [_count] of the
    summary's, all keyed by metric name and label tuple. *)
Record StatsClass := {
  counter_values : gmap (string * list string) Q;
  summary_sum : gmap (string * list string) Q;
  summary_count : gmap (string * list string) Q;
  class_latest_user_exception : list exception_record;
  class_latest_sys_exception : list exception_record
}.

(** The instance dictionary of [self.stats]: an attribute is there once it
    was assigned through [self]; until then a lookup falls through to the
    class attribute ([last_invocation_time = 0.0] for the class). *)
Record StatsObject := {
  own_latest_user_exception : option (list exception_record);
  own_latest_sys_exception : option (list exception_record);
  own_last_invocation_time : option Q
}.

(** ** The context and the reports *)

(** [InstanceCommunication_pb2.MetricsData.DataDigest]. *)
Record DataDigest := {
  digest_count : Q;
  digest_sum : Q;
  digest_min : Q;
  digest_max : Q
}.

(** [InstanceCommunication_pb2.MetricsData]: the map [metrics]. *)
Abbreviation MetricsData := (gmap string DataDigest).

(** Modelled from the spec: the [contextimpl] module ([ContextImpl]) is not
    part of the sources. The spec gives the context the addressing of the
    current message (message id and topic) and the user-defined metrics it
    accumulates; [get_metrics] returns them as a fresh [MetricsData] and
    [reset_metrics] empties them. *)
Record Context := {
  current_message_id : option bytes;
  current_topic : option string;
  user_metrics : MetricsData
}.

(** [InstanceCommunication_pb2.FunctionStatus.ExceptionInformation]. *)
Record ExceptionInformation := {
  exceptionString : string;
  msSinceEpoch : Z
}.

(** [InstanceCommunication_pb2.FunctionStatus]. *)
Record FunctionStatus := {
  running : bool;
  numProcessed : Z;
  numSuccessfullyProcessed : Z;
  numUserExceptions : Z;
  instanceId : string;
  latestUserExceptions : list ExceptionInformation;
  numSystemExceptions : Z;
  latestSystemExceptions : list ExceptionInformation;
  averageLatency : Q;
  lastInvocationTime : Z
}.

(** ** The collaborators *)

(** The behaviour of the code the instance calls but does not contain. The
    user function is given the number of earlier invocations, so that it
    may answer differently each time, and says how long the call took on
    the wall clock. The exceptions the collaborators raise are objects of
    classes outside this file too, and so is their [__str__], which may
    itself raise. *)
Record Env := {
  deserialize : Serde -> bytes -> outcome PyObject;
  serialize : Serde -> PyObject -> outcome (option bytes);
  process_with_context :
    nat -> PyObject -> Context -> outcome (option PyObject) * Q;
  process_pure : nat -> PyObject -> outcome (option PyObject) * Q;
  import_serde : string -> outcome Serde;
    (* [util.import_class(os.path.dirname(self.user_code), name)()] *)
  create_producer : string -> outcome unit;
  str_of_exception : PyExc -> outcome string
    (* [str(e)], which ["%s" % e] calls: the [__str__] of the exception *)
}.

(** ** The state of the process *)

Record State := {
  stats_class : StatsClass;
  stats : StatsObject;
  queue : list queue_entry;
  output_serde : option Serde;
  producer : option string;
  last_health_check_ts : Q;
  contextimpl : Context;
  clock : Q;                       (* what [time.time()] returns now *)
  alive : bool;                    (* false once SIGKILL was delivered *)
  invocations : nat;               (* calls of the user function so far *)
  trace : list event;
  put_log : list queue_entry;      (* history: every entry ever enqueued *)
  get_log : list queue_entry       (* history: every entry ever dequeued *)
}.

(** Field updates. *)
Definition set_stats_class (v : StatsClass) (s : State) : State :=
  {| stats_class := v;
     stats := stats s;
     queue := queue s;
     output_serde := output_serde s;
     producer := producer s;
     last_health_check_ts := last_health_check_ts s;
     contextimpl := contextimpl s;
     clock := clock s;
     alive := alive s;
     invocations := invocations s;
     trace := trace s;
     put_log := put_log s;
     get_log := get_log s |}.
Definition set_stats (v : StatsObject) (s : State) : State :=
  {| stats_class := stats_class s;
     stats := v;
     queue := queue s;
     output_serde := output_serde s;
     producer := producer s;
     last_health_check_ts := last_health_check_ts s;
     contextimpl := contextimpl s;
     clock := clock s;
     alive := alive s;
     invocations := invocations s;
     trace := trace s;
     put_log := put_log s;
     get_log := get_log s |}.
Definition set_queue (v : list queue_entry) (s : State) : State :=
  {| stats_class := stats_class s;
     stats := stats s;
     queue := v;
     output_serde := output_serde s;
     producer := producer s;
     last_health_check_ts := last_health_check_ts s;
     contextimpl := contextimpl s;
     clock := clock s;
     alive := alive s;
     invocations := invocations s;
     trace := trace s;
     put_log := put_log s;
     get_log := get_log s |}.
Definition set_output_serde (v : option Serde) (s : State) : State :=
  {| stats_class := stats_class s;
     stats := stats s;
     queue := queue s;
     output_serde := v;
     producer := producer s;
     last_health_check_ts := last_health_check_ts s;
     contextimpl := contextimpl s;
     clock := clock s;
     alive := alive s;
     invocations := invocations s;
     trace := trace s;
     put_log := put_log s;
     get_log := get_log s |}.
Definition set_producer (v : option string) (s : State) : State :=
  {| stats_class := stats_class s;
     stats := stats s;
     queue := queue s;
     output_serde := output_serde s;
     producer := v;
     last_health_check_ts := last_health_check_ts s;
     contextimpl := contextimpl s;
     clock := clock s;
     alive := alive s;
     invocations := invocations s;
     trace := trace s;
     put_log := put_log s;
     get_log := get_log s |}.
Definition set_last_health_check_ts (v : Q) (s : State) : State :=
  {| stats_class := stats_class s;
     stats := stats s;
     queue := queue s;
     output_serde := output_serde s;
     producer := producer s;
     last_health_check_ts := v;
     contextimpl := contextimpl s;
     clock := clock s;
     alive := alive s;
     invocations := invocations s;
     trace := trace s;
     put_log := put_log s;
     get_log := get_log s |}.
Definition set_contextimpl (v : Context) (s : State) : State :=
  {| stats_class := stats_class s;
     stats := stats s;
     queue := queue s;
     output_serde := output_serde s;
     producer := producer s;
     last_health_check_ts := last_health_check_ts s;
     contextimpl := v;
     clock := clock s;
     alive := alive s;
     invocations := invocations s;
     trace := trace s;
     put_log := put_log s;
     get_log := get_log s |}.
Definition set_clock (v : Q) (s : State) : State :=
  {| stats_class := stats_class s;
     stats := stats s;
     queue := queue s;
     output_serde := output_serde s;
     producer := producer s;
     last_health_check_ts := last_health_check_ts s;
     contextimpl := contextimpl s;
     clock := v;
     alive := alive s;
     invocations := invocations s;
     trace := trace s;
     put_log := put_log s;
     get_log := get_log s |}.
Definition set_alive (v : bool) (s : State) : State :=
  {| stats_class := stats_class s;
     stats := stats s;
     queue := queue s;
     output_serde := output_serde s;
     producer := producer s;
     last_health_check_ts := last_health_check_ts s;
     contextimpl := contextimpl s;
     clock := clock s;
     alive := v;
     invocations := invocations s;
     trace := trace s;
     put_log := put_log s;
     get_log := get_log s |}.
Definition set_invocations (v : nat) (s : State) : State :=
  {| stats_class := stats_class s;
     stats := stats s;
     queue := queue s;
     output_serde := output_serde s;
     producer := producer s;
     last_health_check_ts := last_health_check_ts s;
     contextimpl := contextimpl s;
     clock := clock s;
     alive := alive s;
     invocations := v;
     trace := trace s;
     put_log := put_log s;
     get_log := get_log s |}.
Definition set_trace (v : list event) (s : State) : State :=
  {| stats_class := stats_class s;
     stats := stats s;
     queue := queue s;
     output_serde := output_serde s;
     producer := producer s;
     last_health_check_ts := last_health_check_ts s;
     contextimpl := contextimpl s;
     clock := clock s;
     alive := alive s;
     invocations := invocations s;
     trace := v;
     put_log := put_log s;
     get_log := get_log s |}.
Definition set_put_log (v : list queue_entry) (s : State) : State :=
  {| stats_class := stats_class s;
     stats := stats s;
     queue := queue s;
     output_serde := output_serde s;
     producer := producer s;
     last_health_check_ts := last_health_check_ts s;
     contextimpl := contextimpl s;
     clock := clock s;
     alive := alive s;
     invocations := invocations s;
     trace := trace s;
     put_log := v;
     get_log := get_log s |}.
Definition set_get_log (v : list queue_entry) (s : State) : State :=
  {| stats_class := stats_class s;
     stats := stats s;
     queue := queue s;
     output_serde := output_serde s;
     producer := producer s;
     last_health_check_ts := last_health_check_ts s;
     contextimpl := contextimpl s;
     clock := clock s;
     alive := alive s;
     invocations := invocations s;
     trace := trace s;
     put_log := put_log s;
     get_log := v |}.
Definition set_counter_values (v : gmap (string * list string) Q) (c : StatsClass) : StatsClass :=
  {| counter_values := v;
     summary_sum := summary_sum c;
     summary_count := summary_count c;
     class_latest_user_exception := class_latest_user_exception c;
     class_latest_sys_exception := class_latest_sys_exception c |}.
Definition set_summary_sum (v : gmap (string * list string) Q) (c : StatsClass) : StatsClass :=
  {| counter_values := counter_values c;
     summary_sum := v;
     summary_count := summary_count c;
     class_latest_user_exception := class_latest_user_exception c;
     class_latest_sys_exception := class_latest_sys_exception c |}.
Definition set_summary_count (v : gmap (string * list string) Q) (c : StatsClass) : StatsClass :=
  {| counter_values := counter_values c;
     summary_sum := summary_sum c;
     summary_count := v;
     class_latest_user_exception := class_latest_user_exception c;
     class_latest_sys_exception := class_latest_sys_exception c |}.
Definition set_class_latest_user_exception (v : list exception_record) (c : StatsClass) : StatsClass :=
  {| counter_values := counter_values c;
     summary_sum := summary_sum c;
     summary_count := summary_count c;
     class_latest_user_exception := v;
     class_latest_sys_exception := class_latest_sys_exception c |}.
Definition set_class_latest_sys_exception (v : list exception_record) (c : StatsClass) : StatsClass :=
  {| counter_values := counter_values c;
     summary_sum := summary_sum c;
     summary_count := summary_count c;
     class_latest_user_exception := class_latest_user_exception c;
     class_latest_sys_exception := v |}.
Definition set_own_latest_user_exception (v : option (list exception_record)) (o : StatsObject) : StatsObject :=
  {| own_latest_user_exception := v;
     own_latest_sys_exception := own_latest_sys_exception o;
     own_last_invocation_time := own_last_invocation_time o |}.
Definition set_own_latest_sys_exception (v : option (list exception_record)) (o : StatsObject) : StatsObject :=
  {| own_latest_user_exception := own_latest_user_exception o;
     own_latest_sys_exception := v;
     own_last_invocation_time := own_last_invocation_time o |}.
Definition set_own_last_invocation_time (v : option Q) (o : StatsObject) : StatsObject :=
  {| own_latest_user_exception := own_latest_user_exception o;
     own_latest_sys_exception := own_latest_sys_exception o;
     own_last_invocation_time := v |}.

(** ** The monad of methods

    A call returns a value, raises, or does not return in the present state
    (a [queue.get] on an empty queue, a [queue.put] on a full one): the
    thread then waits, and the state is as before the call. *)

Inductive result (A : Type) :=
| Normal (a : A)
| Raise (e : PyExc)
| Blocked.
Arguments Normal {A} a.
Arguments Raise {A} e.
Arguments Blocked {A}.

Definition M (A : Type) : Type := State -> result A * State.

Definition ret {A} (a : A) : M A := fun s => (Normal a, s).

Definition bind {A B} (m : M A) (k : A -> M B) : M B :=
  fun s =>
    match m s with
    | (Normal a, s') => k a s'
    | (Raise e, s') => (Raise e, s')
    | (Blocked, s') => (Blocked, s')
    end.

Declare Scope py_scope.
Delimit Scope py_scope with py.
Notation "x <- m ;; k" := (bind m (fun x => k))
  (at level 100, m at next level, right associativity) : py_scope.
Notation "m ;; k" := (bind m (fun _ => k))
  (at level 100, right associativity) : py_scope.
Local Open Scope py_scope.

(** A read of the state. *)
Definition gets {A} (f : State -> A) : M A := fun s => (Normal (f s), s).
Definition get : M State := gets (fun s => s).
Definition modify (f : State -> State) : M unit := fun s => (Normal tt, f s).
Definition raise {A} (e : PyExc) : M A := fun s => (Raise e, s).
Definition block {A} : M A := fun s => (Blocked, s).
Definition pass : M unit := ret tt.

(** A call to a collaborator. *)
Definition call {A} (o : outcome A) : M A :=
  match o with
  | Returns a => ret a
  | Raises e => raise e
  end.

(** [if c: body] *)
Definition when (c : bool) (body : M unit) : M unit :=
  if c then body else pass.

(** [try: body / except Exception as e: handler]: an exception that is not
    an instance of [Exception] passes through. *)
Definition try_except_Exception {A} (body : M A) (handler : PyExc -> M A) : M A :=
  fun s =>
    match body s with
    | (Raise e, s') =>
        if isinstance_Exception e then handler e s' else (Raise e, s')
    | r => r
    end.

(** An effect on the outside. *)
Definition emit (ev : event) : M unit :=
  modify (fun s => set_trace (trace s ++ [ev]) s).

(** [time.time()] *)
Definition time_time : M Q := gets clock.

(** The wall clock advancing while a call runs. *)
Definition elapse (dt : Q) : M unit :=
  modify (fun s => set_clock (clock s + dt)%Q s).

(** ** Prometheus children *)

(** [metric.labels(..)._value.get()]: a fresh child reads 0. *)
Definition read_cell (m : gmap (string * list string) Q)
    (metric : string) (labels : list string) : Q :=
  default 0%Q (m !! (metric, labels)).

Definition counter_get (metric : string) (labels : list string) : M Q :=
  gets (fun s => read_cell (counter_values (stats_class s)) metric labels).

Definition counter_set (metric : string) (labels : list string) (v : Q) : M unit :=
  modify (fun s =>
    set_stats_class
      (set_counter_values
         (<[(metric, labels) := v]> (counter_values (stats_class s)))
         (stats_class s)) s).

(** [Counter.labels(..).inc()] *)
Definition counter_inc (metric : string) (labels : list string) : M unit :=
  v <- counter_get metric labels ;;
  counter_set metric labels (v + 1)%Q.

Definition summary_sum_get (metric : string) (labels : list string) : M Q :=
  gets (fun s => read_cell (summary_sum (stats_class s)) metric labels).
Definition summary_count_get (metric : string) (labels : list string) : M Q :=
  gets (fun s => read_cell (summary_count (stats_class s)) metric labels).

Definition summary_sum_set (metric : string) (labels : list string) (v : Q) : M unit :=
  modify (fun s =>
    set_stats_class
      (set_summary_sum
         (<[(metric, labels) := v]> (summary_sum (stats_class s)))
         (stats_class s)) s).
Definition summary_count_set (metric : string) (labels : list string) (v : Q) : M unit :=
  modify (fun s =>
    set_stats_class
      (set_summary_count
         (<[(metric, labels) := v]> (summary_count (stats_class s)))
         (stats_class s)) s).

(** [Summary.labels(..).observe(amount)]: [_count.inc(1)] and
    [_sum.inc(amount)]. *)
Definition summary_observe (metric : string) (labels : list string) (amount : Q)
  : M unit :=
  c <- summary_count_get metric labels ;;
  summary_count_set metric labels (c + 1)%Q ;;
  t <- summary_sum_get metric labels ;;
  summary_sum_set metric labels (t + amount)%Q.

(** [a / b] on floats. *)
Definition ZeroDivisionError : PyExc :=
  {| exc_type := "ZeroDivisionError";
     isinstance_Exception := true;
     format_exc := "ZeroDivisionError: float division by zero" |}.

Definition py_truediv (a b : Q) : M Q :=
  if Qeq_bool b 0 then raise ZeroDivisionError else ret (a / b)%Q.

(** An attribute of [None]. *)
Definition AttributeError : PyExc :=
  {| exc_type := "AttributeError";
     isinstance_Exception := true;
     format_exc := "AttributeError: 'NoneType' object has no attribute" |}.

(** ** class Stats *)

(** The lookups [self.latest_user_exception], [self.latest_sys_exception]
    and [self.last_invocation_time] on a [Stats] object. *)
Definition latest_user_exception (s : State) : list exception_record :=
  match own_latest_user_exception (stats s) with
  | Some l => l
  | None => class_latest_user_exception (stats_class s)
  end.

Definition latest_sys_exception (s : State) : list exception_record :=
  match own_latest_sys_exception (stats s) with
  | Some l => l
  | None => class_latest_sys_exception (stats_class s)
  end.

Definition last_invocation_time (s : State) : Q :=
  match own_last_invocation_time (stats s) with
  | Some t => t
  | None => 0%Q
  end.

(** A mutation in place of the list that [self.latest_sys_exception] finds:
    the object's own list once [reset] has assigned one, the list of the
    class before. *)
Definition mutate_latest_sys_exception
    (f : list exception_record -> list exception_record) : M unit :=
  modify (fun s =>
    match own_latest_sys_exception (stats s) with
    | Some l => set_stats (set_own_latest_sys_exception (Some (f l)) (stats s)) s
    | None =>
        set_stats_class
          (set_class_latest_sys_exception
             (f (class_latest_sys_exception (stats_class s))) (stats_class s)) s
    end).

(** [Stats.add_user_exception]; [e] is the exception being handled. *)
Definition add_user_exception (e : PyExc) : M unit :=
  now <- time_time ;;
  mutate_latest_sys_exception
    (fun l => l ++ [(format_exc e, py_int (now * 1000))]) ;;
  s <- get ;;
  when (10 <? length (latest_sys_exception s))%nat
    (mutate_latest_sys_exception (drop 1)).

(** [Stats.add_sys_exception] *)
Definition add_sys_exception (e : PyExc) : M unit :=
  now <- time_time ;;
  mutate_latest_sys_exception
    (fun l => l ++ [(format_exc e, py_int (now * 1000))]) ;;
  s <- get ;;
  when (10 <? length (latest_sys_exception s))%nat
    (mutate_latest_sys_exception (drop 1)).

(** [Stats.reset(metrics_labels)] *)
Definition Stats_reset (labels : list string) : M unit :=
  modify (fun s => set_stats (set_own_latest_user_exception (Some []) (stats s)) s) ;;
  modify (fun s => set_stats (set_own_latest_sys_exception (Some []) (stats s)) s) ;;
  counter_set TOTAL_PROCESSED labels 0 ;;
  counter_set TOTAL_SUCCESSFULLY_PROCESSED labels 0 ;;
  counter_set TOTAL_USER_EXCEPTIONS labels 0 ;;
  counter_set TOTAL_SYSTEM_EXCEPTIONS labels 0 ;;
  summary_sum_set PROCESS_LATENCY_MS labels 0 ;;
  summary_count_set PROCESS_LATENCY_MS labels 0 ;;
  modify (fun s => set_stats (set_own_last_invocation_time (Some 0%Q) (stats s)) s).

(** ** The context *)

Definition set_current_message_context (mid : bytes) (tp : string) : M unit :=
  modify (fun s =>
    set_contextimpl
      {| current_message_id := Some mid;
         current_topic := Some tp;
         user_metrics := user_metrics (contextimpl s) |} s).

Definition contextimpl_get_metrics : M MetricsData :=
  gets (fun s => user_metrics (contextimpl s)).

Definition contextimpl_reset_metrics : M unit :=
  modify (fun s =>
    set_contextimpl
      {| current_message_id := current_message_id (contextimpl s);
         current_topic := current_topic (contextimpl s);
         user_metrics := ∅ |} s).

(** ** The queue *)

(** [queue.Queue(maxsize)] is bounded only when [maxsize > 0]. *)
Definition queue_full (maxsize : Z) (q : list queue_entry) : bool :=
  (0 <? maxsize) && (maxsize <=? Z.of_nat (length q)).

(** [self.queue.put(entry, True)] *)
Definition queue_put (maxsize : Z) (entry : queue_entry) : M unit :=
  s <- get ;;
  if queue_full maxsize (queue s) then block
  else modify (fun s => set_put_log (put_log s ++ [entry])
                          (set_queue (queue s ++ [entry]) s)).

(** [self.queue.get(True)] *)
Definition queue_get : M queue_entry :=
  s <- get ;;
  match queue s with
  | [] => block
  | entry :: rest =>
      modify (fun s => set_get_log (get_log s ++ [entry]) (set_queue rest s)) ;;
      ret entry
  end.

(** ** class PythonInstance *)

Inductive loop_ctl := Continue | Break.

Section PythonInstance.

Variable cfg : Config.
Variable env : Env.

(** [sink.topic != None and len(sink.topic) > 0] *)
Definition sink_configured : bool :=
  match sink_topic (details cfg) with
  | Some t => (0 <? String.length t)%nat
  | None => false
  end.

(** [health_check]: the result carries [success = True]. *)
Definition health_check : M bool :=
  now <- time_time ;;
  modify (set_last_health_check_ts now) ;;
  ret true.

(** [sys.exit(1)] *)
Definition SystemExit : PyExc :=
  {| exc_type := "SystemExit"; isinstance_Exception := false;
     format_exc := "SystemExit: 1" |}.

(** [process_spawner_health_check_timer]. SIGKILL sent to the own process
    ends it on the spot: [alive] turns false, and the [sys.exit(1)] that
    follows in the source leaves the method without starting the next
    timer. *)
Definition process_spawner_health_check_timer : M unit :=
  now <- time_time ;;
  s <- get ;;
  (if py_gt (now - last_health_check_ts s) (expected_healthcheck_interval cfg * 3)
   then
     emit Kill ;;
     modify (set_alive false) ;;
     raise SystemExit
   else pass) ;;
  emit (TimerStart (expected_healthcheck_interval cfg)).

(** [done_producing(consumer, orig_message, result, sent_message)] *)
Definition done_producing (consumer : Consumer) (orig_message : Message)
    (result : Result) : M unit :=
  when (bool_decide (result = ResultOk) && auto_ack cfg && atleast_once cfg)
    (emit (Acknowledge consumer orig_message)).

(** [setup_output_serde] *)
Definition setup_output_serde : M unit :=
  match sink_serDeClassName (details cfg) with
  | Some cls =>
      if (0 <? String.length cls)%nat then
        sd <- call (import_serde env cls) ;;
        modify (set_output_serde (Some sd))
      else
        sd <- call (import_serde env DEFAULT_SERIALIZER) ;;
        modify (set_output_serde (Some sd))
  | None =>
      sd <- call (import_serde env DEFAULT_SERIALIZER) ;;
      modify (set_output_serde (Some sd))
  end.

(** [setup_producer] *)
Definition setup_producer : M unit :=
  match sink_topic (details cfg) with
  | Some t =>
      when (0 <? String.length t)%nat
        (call (create_producer env t) ;;
         emit (CreateProducer t) ;;
         modify (set_producer (Some t)))
  | None => pass
  end.

(** [process_result(output, msg)] *)
Definition process_result (output : option PyObject) (msg : InternalMessage)
  : M unit :=
  match output with
  | Some out =>
      if sink_configured then
        s <- get ;;
        when (bool_decide (output_serde s = None)) setup_output_serde ;;
        s <- get ;;
        when (bool_decide (producer s = None)) setup_producer ;;
        (* serialize function output *)
        s <- get ;;
        output_bytes <-
          match output_serde s with
          | Some sd => call (serialize env sd out)
          | None => raise AttributeError
          end ;;
        match output_bytes with
        | Some payload =>
            let props : gmap string string :=
              <["__pfn_input_msg_id__" :=
                  base64ify (PY3 cfg) (PyBytes (message_id (message msg)))]>
                (<["__pfn_input_topic__" := topic msg]> ∅) in
            s <- get ;;
            match producer s with
            | Some _ =>
                emit (SendAsync payload props (consumer msg) (message msg))
            | None => raise AttributeError
            end
        | None => pass
        end
      else
        when (auto_ack cfg && atleast_once cfg)
          (emit (Acknowledge (consumer msg) (message msg)))
  | None =>
      when (auto_ack cfg && atleast_once cfg)
        (emit (Acknowledge (consumer msg) (message msg)))
  end.

(** The call of the user function: [self.function_class.process(input,
    self.contextimpl)] or [self.function_purefunction.process(input)]. *)
Definition call_user_function (input_object : PyObject) : M (option PyObject) :=
  s <- get ;;
  let '(o, dt) :=
    match user_function cfg with
    | FunctionClass =>
        process_with_context env (invocations s) input_object (contextimpl s)
    | PureFunction => process_pure env (invocations s) input_object
    end in
  modify (fun s => set_invocations (S (invocations s)) s) ;;
  elapse dt ;;
  call o.

(** One turn of the [while True] of [actual_execution]. The outer handler
    formats the exception for its log line before it counts and records
    it; nothing encloses the handler, so what [str(e)] raises leaves the
    loop. *)
Definition loop_body : M loop_ctl :=
  try_except_Exception
    (msg <- queue_get ;;
     match msg with
     | Quit => ret Break
     | Work msg =>
         (* deserialize message *)
         input_object <- call (deserialize env (serde msg) (data (message msg))) ;;
         (* set current message in context *)
         set_current_message_context (message_id (message msg)) (topic msg) ;;
         when (has_log_topic_handler cfg) (emit LogRedirect) ;;
         executed <-
           try_except_Exception
             ((* get user function start time for statistic calculation *)
              start_time <- time_time ;;
              modify (fun s =>
                set_stats (set_own_last_invocation_time
                             (Some (start_time * 1000)%Q) (stats s)) s) ;;
              output_object <- call_user_function input_object ;;
              now <- time_time ;;
              summary_observe PROCESS_LATENCY_MS (metrics_labels cfg)
                ((now - start_time) * 1000)%Q ;;
              counter_inc TOTAL_PROCESSED (metrics_labels cfg) ;;
              ret (true, output_object))
             (fun e =>
                counter_inc TOTAL_USER_EXCEPTIONS (metrics_labels cfg) ;;
                add_user_exception e ;;
                ret (false, None)) ;;
         let '(successfully_executed, output_object) := executed in
         when (has_log_topic_handler cfg) (emit LogRestore) ;;
         when successfully_executed
           (process_result output_object msg ;;
            counter_inc TOTAL_SUCCESSFULLY_PROCESSED (metrics_labels cfg)) ;;
         ret Continue
     end)
    (fun e =>
       (* Log.error("Uncaught exception in Python instance: %s" % e) *)
       call (str_of_exception env e) ;;
       counter_inc TOTAL_SYSTEM_EXCEPTIONS (metrics_labels cfg) ;;
       add_sys_exception e ;;
       ret Continue).

(** [actual_execution]: the loop, for at most [fuel] turns. [None] says
    that the turns did not suffice. *)
Fixpoint actual_execution (fuel : nat) : M (option unit) :=
  match fuel with
  | O => ret None
  | S fuel' =>
      c <- loop_body ;;
      match c with
      | Break => ret (Some tt)
      | Continue => actual_execution fuel'
      end
  end.

(** [message_listener(serde, consumer, message)] *)
Definition message_listener (serde : Serde) (consumer : Consumer)
    (message : Message) : M unit :=
  let item := {| message := message; topic := consumer_topic consumer;
                 serde := serde; consumer := consumer |} in
  queue_put (max_buffered_tuples (instance_config cfg)) (Work item) ;;
  when (atmost_once cfg && auto_ack cfg)
    (emit (Acknowledge consumer message)).

(** [add_system_metrics(metric_name, value, metrics)]: four assignments
    to the entry, which the protobuf map creates when it is missing. *)
Definition zero_digest : DataDigest :=
  {| digest_count := 0; digest_sum := 0; digest_min := 0; digest_max := 0 |}.

Definition entry (metrics : MetricsData) (metric_name : string) : DataDigest :=
  default zero_digest (metrics !! metric_name).

Definition add_system_metrics (metric_name : string) (value : Q)
    (metrics : MetricsData) : MetricsData :=
  let metrics :=
    <[metric_name := {| digest_count := value;
                        digest_sum := digest_sum (entry metrics metric_name);
                        digest_min := digest_min (entry metrics metric_name);
                        digest_max := digest_max (entry metrics metric_name) |}]>
      metrics in
  let metrics :=
    <[metric_name := {| digest_count := digest_count (entry metrics metric_name);
                        digest_sum := value;
                        digest_min := digest_min (entry metrics metric_name);
                        digest_max := digest_max (entry metrics metric_name) |}]>
      metrics in
  let metrics :=
    <[metric_name := {| digest_count := digest_count (entry metrics metric_name);
                        digest_sum := digest_sum (entry metrics metric_name);
                        digest_min := 0;
                        digest_max := digest_max (entry metrics metric_name) |}]>
      metrics in
  <[metric_name := {| digest_count := digest_count (entry metrics metric_name);
                      digest_sum := digest_sum (entry metrics metric_name);
                      digest_min := digest_min (entry metrics metric_name);
                      digest_max := value |}]>
    metrics.

(** The conditional expression both reports use for the average latency:
    [0.0 if _count.get() <= 0.0 else _sum.get() / _count.get()]. *)
Definition average_latency : M Q :=
  c <- summary_count_get PROCESS_LATENCY_MS (metrics_labels cfg) ;;
  if py_le c 0 then ret 0%Q
  else
    t <- summary_sum_get PROCESS_LATENCY_MS (metrics_labels cfg) ;;
    c <- summary_count_get PROCESS_LATENCY_MS (metrics_labels cfg) ;;
    py_truediv t c.

(** [get_metrics] *)
Definition get_metrics : M MetricsData :=
  (* First get any user metrics *)
  metrics <- contextimpl_get_metrics ;;
  (* Now add system metrics as well *)
  v <- counter_get TOTAL_PROCESSED (metrics_labels cfg) ;;
  let metrics := add_system_metrics "__total_processed__" v metrics in
  v <- counter_get TOTAL_SUCCESSFULLY_PROCESSED (metrics_labels cfg) ;;
  let metrics := add_system_metrics "__total_successfully_processed__" v metrics in
  v <- counter_get TOTAL_SYSTEM_EXCEPTIONS (metrics_labels cfg) ;;
  let metrics := add_system_metrics "__total_system_exceptions__" v metrics in
  v <- counter_get TOTAL_USER_EXCEPTIONS (metrics_labels cfg) ;;
  let metrics := add_system_metrics "__total_user_exceptions__" v metrics in
  v <- average_latency ;;
  let metrics := add_system_metrics "__avg_latency_ms__" v metrics in
  ret metrics.

(** [reset_metrics] *)
Definition reset_metrics : M unit :=
  Stats_reset (metrics_labels cfg) ;;
  contextimpl_reset_metrics.

(** [get_and_reset_metrics] *)
Definition get_and_reset_metrics : M MetricsData :=
  (* First get any user metrics *)
  metrics <- get_metrics ;;
  reset_metrics ;;
  ret metrics.

Definition exception_information (r : exception_record) : ExceptionInformation :=
  {| exceptionString := fst r; msSinceEpoch := snd r |}.

(** [long(x)] of a float. The builtin exists under Python 2 only; the
    module defines no replacement, so under Python 3 the lookup of the
    name raises [NameError], before the argument is evaluated. *)
Definition NameError_long : PyExc :=
  {| exc_type := "NameError"; isinstance_Exception := true;
     format_exc := "NameError: name 'long' is not defined" |}.

Definition long (argument : M Q) : M Z :=
  if PY3 cfg then raise NameError_long
  else x <- argument ;; ret (py_int x).

(** [get_function_status] *)
Definition get_function_status : M FunctionStatus :=
  processed <- long (counter_get TOTAL_PROCESSED (metrics_labels cfg)) ;;
  successfully <-
    long (counter_get TOTAL_SUCCESSFULLY_PROCESSED (metrics_labels cfg)) ;;
  user_exceptions <-
    long (counter_get TOTAL_USER_EXCEPTIONS (metrics_labels cfg)) ;;
  s <- get ;;
  let latest_user := map exception_information (latest_user_exception s) in
  system_exceptions <-
    long (counter_get TOTAL_SYSTEM_EXCEPTIONS (metrics_labels cfg)) ;;
  s <- get ;;
  let latest_sys := map exception_information (latest_sys_exception s) in
  average <- average_latency ;;
  last <- long (gets last_invocation_time) ;;
  ret {| running := true;
         numProcessed := processed;
         numSuccessfullyProcessed := successfully;
         numUserExceptions := user_exceptions;
         instanceId := instance_id (instance_config cfg);
         latestUserExceptions := latest_user;
         numSystemExceptions := system_exceptions;
         latestSystemExceptions := latest_sys;
         averageLatency := average;
         lastInvocationTime := last |}.

(** [join], first statement: [self.queue.put(InternalQuitMessage(True),
    True)]. The second, [self.execution_thread.join()], returns once the
    execution thread has ended; see [step]. *)
Definition join_put : M unit :=
  queue_put (max_buffered_tuples (instance_config cfg)) Quit.

End PythonInstance.

(** ** The threads of the process

    The listener callbacks, the execution thread, the completion callbacks
    of the producer, the watchdog timer and the control calls of the
    spawner interleave. A step is one call of a method (one turn of the
    loop for the execution thread), run from its first statement to its
    last; a call that would wait is a step that is not enabled.

    The schedules below are therefore those in which no thread runs in the
    middle of another's method. The source takes no lock around a method:
    a control call may fall between two statements of a turn of the loop
    (a [Stats.reset] between the two counter increments of a turn, or
    between the two reads of [_count] of the average). What is stated over
    all schedules is about the queue, the events in the trace, the calls of
    the user function and the ends of the threads, none of which such a
    control call touches; the values of the counters are stated for single
    calls only. *)

Inductive thread_state :=
| ThreadRunning
| ThreadFinished                 (* the loop was left through [break] *)
| ThreadDied (e : PyExc).        (* an exception left [actual_execution] *)

Inductive join_state := JoinNotCalled | JoinWaiting | JoinReturned.

Record Process := {
  state : State;
  execution_thread : thread_state;
  joiner : join_state;
  completed : list nat;
    (* positions in the trace of the [send_async] calls whose callback ran *)
  delivered : list (Consumer * Message)
    (* history: the listener calls that returned *)
}.

Definition with_state (s : State) (p : Process) : Process :=
  {| state := s; execution_thread := execution_thread p; joiner := joiner p;
     completed := completed p; delivered := delivered p |}.

Inductive action :=
| Deliver (serde : Serde) (consumer : Consumer) (message : Message)
| WorkerTurn
| PublishCompleted (i : nat) (result : Result)
| JoinPut
| JoinReturn
| Tick (dt : Q)
| HealthCheck
| WatchdogFires
| GetFunctionStatus
| GetMetrics
| GetAndResetMetrics.

Definition thread_ended (t : thread_state) : bool :=
  match t with
  | ThreadRunning => false
  | _ => true
  end.

Section Scheduler.

Variable cfg : Config.
Variable env : Env.

(** The state [run] leaves behind: the execution thread started, the
    heartbeat stamped, the watchdog armed when the interval is positive. *)
Definition initial_state (now : Q) : State :=
  {| stats_class :=
       {| counter_values := ∅; summary_sum := ∅; summary_count := ∅;
          class_latest_user_exception := [];
          class_latest_sys_exception := [] |};
     stats :=
       {| own_latest_user_exception := None;
          own_latest_sys_exception := None;
          own_last_invocation_time := None |};
     queue := [];
     output_serde := None;
     producer := None;
     last_health_check_ts := now;
     contextimpl :=
       {| current_message_id := None; current_topic := None;
          user_metrics := ∅ |};
     clock := now;
     alive := true;
     invocations := 0;
     trace :=
       if py_gt (expected_healthcheck_interval cfg) 0
       then [TimerStart (expected_healthcheck_interval cfg)] else [];
     put_log := [];
     get_log := [] |}.

Definition initial_process (now : Q) : Process :=
  {| state := initial_state now;
     execution_thread := ThreadRunning;
     joiner := JoinNotCalled;
     completed := [];
     delivered := [] |}.

(** A control call: the state it leaves, unless it waits. *)
Definition after {A} (m : M A) (p : Process) : option Process :=
  match m (state p) with
  | (Blocked, _) => None
  | (_, s') => Some (with_state s' p)
  end.

Definition step (a : action) (p : Process) : option Process :=
  if negb (alive (state p)) then None else
  match a with
  | Deliver sd c m =>
      match message_listener cfg sd c m (state p) with
      | (Normal _, s') =>
          Some {| state := s'; execution_thread := execution_thread p;
                  joiner := joiner p; completed := completed p;
                  delivered := delivered p ++ [(c, m)] |}
      | (Raise _, s') => Some (with_state s' p)
      | (Blocked, _) => None
      end
  | WorkerTurn =>
      match execution_thread p with
      | ThreadRunning =>
          match loop_body cfg env (state p) with
          | (Normal Continue, s') => Some (with_state s' p)
          | (Normal Break, s') =>
              Some {| state := s'; execution_thread := ThreadFinished;
                      joiner := joiner p; completed := completed p;
                      delivered := delivered p |}
          | (Raise e, s') =>
              Some {| state := s'; execution_thread := ThreadDied e;
                      joiner := joiner p; completed := completed p;
                      delivered := delivered p |}
          | (Blocked, _) => None
          end
      | _ => None
      end
  | PublishCompleted i result =>
      if bool_decide (i ∈ completed p) then None else
      match trace (state p) !! i with
      | Some (SendAsync _ _ c m) =>
          match done_producing cfg c m result (state p) with
          | (Blocked, _) => None
          | (_, s') =>
              Some {| state := s'; execution_thread := execution_thread p;
                      joiner := joiner p; completed := i :: completed p;
                      delivered := delivered p |}
          end
      | _ => None
      end
  | JoinPut =>
      match joiner p with
      | JoinNotCalled =>
          match join_put cfg (state p) with
          | (Normal _, s') =>
              Some {| state := s'; execution_thread := execution_thread p;
                      joiner := JoinWaiting; completed := completed p;
                      delivered := delivered p |}
          | _ => None
          end
      | _ => None
      end
  | JoinReturn =>
      match joiner p with
      | JoinWaiting =>
          if thread_ended (execution_thread p) then
            Some {| state := state p; execution_thread := execution_thread p;
                    joiner := JoinReturned; completed := completed p;
                    delivered := delivered p |}
          else None
      | _ => None
      end
  | Tick dt => after (elapse dt) p
  | HealthCheck => after (health_check) p
  | WatchdogFires => after (process_spawner_health_check_timer cfg) p
  | GetFunctionStatus => after (get_function_status cfg) p
  | GetMetrics => after (get_metrics cfg) p
  | GetAndResetMetrics => after (get_and_reset_metrics cfg) p
  end.

(** A schedule, step by step. *)
Fixpoint run (schedule : list action) (p : Process) : option Process :=
  match schedule with
  | [] => Some p
  | a :: schedule' =>
      match step a p with
      | Some p' => run schedule' p'
      | None => None
      end
  end.

Definition reachable (now : Q) (p : Process) : Prop :=
  ∃ schedule, run schedule (initial_process now) = Some p.

End Scheduler.

(** The acknowledgements of a trace, in order. *)
Definition acknowledgements (tr : list event) : list (Consumer * Message) :=
  omap (fun ev => match ev with
                  | Acknowledge c m => Some (c, m)
                  | _ => None
                  end) tr.

(** The [send_async] calls of a trace, in order. *)
Definition is_send_async (ev : event) : bool :=
  match ev with
  | SendAsync _ _ _ _ => true
  | _ => false
  end.

Definition is_acknowledge (ev : event) : bool :=
  match ev with
  | Acknowledge _ _ => true
  | _ => false
  end.

(** ** Drivers for the statements below *)

(** What [append] followed by the conditional [pop(0)] makes of a list. *)
Definition ring_push (l : list exception_record) (r : exception_record)
  : list exception_record :=
  if (10 <? length (l ++ [r]))%nat then drop 1 (l ++ [r]) else l ++ [r].

(** Which handler of [actual_execution] records an exception. *)
Inductive exception_source := FromUserFunction | FromLoop.

Definition record_exception (src : exception_source) (e : PyExc) : M unit :=
  match src with
  | FromUserFunction => add_user_exception e
  | FromLoop => add_sys_exception e
  end.

(** A sequence of recordings, the clock advancing by [dt] before each. *)
Fixpoint record_all (appends : list (exception_source * PyExc * Q)) (s : State)
  : State :=
  match appends with
  | [] => s
  | (src, e, dt) :: rest =>
      record_all rest (snd ((elapse dt ;; record_exception src e) s))
  end.

(** The pairs these recordings append, oldest first. *)
Fixpoint appended_records (appends : list (exception_source * PyExc * Q)) (now : Q)
  : list exception_record :=
  match appends with
  | [] => []
  | (_, e, dt) :: rest =>
      (format_exc e, py_int ((now + dt) * 1000)) ::
      appended_records rest (now + dt)%Q
  end.

(** ** Specifications of methods

    [spec R K m]: from every state, [m] leaves a state related to it by [R]
    and ends in a way [K] allows. *)

Inductive kind :=
| KNormal
| KRaise (e : PyExc)
| KBlocked.

Definition kind_of {A} (r : result A) : kind :=
  match r with
  | Normal _ => KNormal
  | Raise e => KRaise e
  | Blocked => KBlocked
  end.

Definition spec (R : State -> State -> Prop) (K : kind -> Prop) {A} (m : M A)
  : Prop :=
  ∀ s, R s (snd (m s)) ∧ K (kind_of (fst (m s))).

(** Any ending. *)
Definition any_kind : kind -> Prop := fun _ => True.

(** The call returns or raises: it does not wait. *)
Definition no_wait : kind -> Prop := fun k => k ≠ KBlocked.

(** What can leave a turn of the loop, and with it [actual_execution]: an
    exception that is no instance of [Exception], which neither handler
    catches, or what [str(e)] raised inside the outer handler, for an [e]
    that the handler had caught. *)
Definition leaves_the_loop (env : Env) (e : PyExc) : Prop :=
  isinstance_Exception e = false
  ∨ ∃ caught, isinstance_Exception caught = true
              ∧ str_of_exception env caught = Raises e.

(** The call returns, or raises what leaves the loop. *)
Definition returns_or_leaves (env : Env) : kind -> Prop :=
  fun k => k ≠ KBlocked ∧ ∀ e, k = KRaise e → leaves_the_loop env e.

(** The call returns, or raises an instance of [Exception]. *)
Definition returns_or_raises_Exception : kind -> Prop :=
  fun k => k ≠ KBlocked ∧ ∀ e, k = KRaise e → isinstance_Exception e = true.

(** The call returns. *)
Definition returns : kind -> Prop := fun k => k = KNormal.

(** The trace grows by events that satisfy [P]. *)
Definition emits (P : event -> Prop) (s s' : State) : Prop :=
  ∃ evs, trace s' = trace s ++ evs ∧ Forall P evs.

(** An event other than an acknowledgement. *)
Definition quiet (ev : event) : Prop := is_acknowledge ev = false.

(** The queue, its two histories and the life of the process are as
    before. *)
Definition same_queue (s s' : State) : Prop :=
  queue s' = queue s ∧ put_log s' = put_log s ∧ get_log s' = get_log s
  ∧ alive s' = alive s.

(** Collaborators that raise nothing but instances of [Exception], and
    whose exceptions have a text: [str(e)] returns. *)
Definition only_Exception {A} (o : outcome A) : Prop :=
  match o with
  | Raises e => isinstance_Exception e = true
  | Returns _ => True
  end.

Definition has_text (env : Env) (e : PyExc) : Prop :=
  ∃ text, str_of_exception env e = Returns text.

Record well_behaved (env : Env) : Prop := {
  wb_deserialize : ∀ sd b, only_Exception (deserialize env sd b);
  wb_serialize : ∀ sd o, only_Exception (serialize env sd o);
  wb_process_with_context :
    ∀ n o c, only_Exception (fst (process_with_context env n o c));
  wb_process_pure : ∀ n o, only_Exception (fst (process_pure env n o));
  wb_import_serde : ∀ cls, only_Exception (import_serde env cls);
  wb_create_producer : ∀ t, only_Exception (create_producer env t);
  wb_str_of_exception : ∀ e, isinstance_Exception e = true → has_text env e
}.

(** The work items among queue entries. *)
Definition work_items (l : list queue_entry) : list InternalMessage :=
  omap (fun e => match e with Work m => Some m | Quit => None end) l.

(** The provenance properties of an output derived from [msg]. *)
Definition carries_provenance (msg : InternalMessage) (ev : event) : Prop :=
  match ev with
  | SendAsync _ props c m =>
      props !! "__pfn_input_topic__" = Some (topic msg)
      ∧ props !! "__pfn_input_msg_id__" =
          Some (string_of_list_byte
                  (Base64.urlsafe_b64encode (message_id (message msg))))
      ∧ dom props = ({["__pfn_input_topic__"; "__pfn_input_msg_id__"]} : gset string)
      ∧ size props = 2%nat
      ∧ c = consumer msg ∧ m = message msg
  | _ => True
  end.

(** ** Sample instances *)

Definition sample_details (pg : ProcessingGuarantees) (aa : bool)
    (sink : option string) : FunctionDetails :=
  {| tenant := "public"; namespace := "default"; name := "exclamation";
     processingGuarantees := pg; autoAck := aa;
     sink_topic := sink; sink_serDeClassName := None; logTopic := None |}.

Definition sample_config (pg : ProcessingGuarantees) (aa : bool)
    (sink : option string) : Config :=
  {| instance_config :=
       {| instance_id := "0"; function_id := "f-1"; function_version := "1";
          function_details := sample_details pg aa sink;
          max_buffered_tuples := 8 |};
     expected_healthcheck_interval := 30;
     user_function := PureFunction;
     PY3 := true |}.

(** The same instance under a Python 2 interpreter. *)
Definition under_python2 (cfg : Config) : Config :=
  {| instance_config := instance_config cfg;
     expected_healthcheck_interval := expected_healthcheck_interval cfg;
     user_function := user_function cfg;
     PY3 := false |}.

Definition ValueError : PyExc :=
  {| exc_type := "ValueError"; isinstance_Exception := true;
     format_exc := "ValueError: bad input" |}.

(** An identity serde around a given pure user function. *)
Definition sample_env (f : nat -> PyObject -> outcome (option PyObject)) : Env :=
  {| deserialize := fun _ b => Returns (string_of_list_byte b);
     serialize := fun _ o => Returns (Some (list_byte_of_string o));
     process_with_context := fun n o _ => (f n o, 1 # 100);
     process_pure := fun n o => (f n o, 1 # 100);
     import_serde := fun cls => Returns cls;
     create_producer := fun _ => Returns tt;
     str_of_exception := fun e => Returns (exc_type e) |}.

(** The same with an output serde that serializes everything to [None]. *)
Definition null_serde_env (f : nat -> PyObject -> outcome (option PyObject))
  : Env :=
  {| deserialize := fun _ b => Returns (string_of_list_byte b);
     serialize := fun _ _ => Returns None;
     process_with_context := fun n o _ => (f n o, 1 # 100);
     process_pure := fun n o => (f n o, 1 # 100);
     import_serde := fun cls => Returns cls;
     create_producer := fun _ => Returns tt;
     str_of_exception := fun e => Returns (exc_type e) |}.

(** A user function behind an input serde that raises an exception whose
    [__str__] raises in turn. *)
Definition UnicodeEncodeError : PyExc :=
  {| exc_type := "UnicodeEncodeError"; isinstance_Exception := true;
     format_exc := "UnicodeEncodeError: 'ascii' codec can't encode character" |}.

Definition unprintable_env (f : nat -> PyObject -> outcome (option PyObject))
  : Env :=
  {| deserialize := fun _ _ => Raises ValueError;
     serialize := fun _ o => Returns (Some (list_byte_of_string o));
     process_with_context := fun n o _ => (f n o, 1 # 100);
     process_pure := fun n o => (f n o, 1 # 100);
     import_serde := fun cls => Returns cls;
     create_producer := fun _ => Returns tt;
     str_of_exception := fun _ => Raises UnicodeEncodeError |}.

Definition exclaim : nat -> PyObject -> outcome (option PyObject) :=
  fun _ o => Returns (Some (o ++ "!")%string).
Definition always_raises : nat -> PyObject -> outcome (option PyObject) :=
  fun _ _ => Raises ValueError.
Definition calls_sys_exit : nat -> PyObject -> outcome (option PyObject) :=
  fun _ _ => Raises SystemExit.

Definition sample_consumer : Consumer :=
  {| consumer_topic := "persistent://public/default/in";
     consumer_subscription := "public/default/exclamation" |}.
Definition sample_message (n : byte) : Message :=
  {| data := list_byte_of_string "hello"; message_id := [x08; n; x10; x00] |}.
Definition sample_item (n : byte) : InternalMessage :=
  {| message := sample_message n; topic := consumer_topic sample_consumer;
     serde := DEFAULT_SERIALIZER; consumer := sample_consumer |}.

(** Eleven recordings, one per second. *)
Definition eleven_appends : list (exception_source * PyExc * Q) :=
  [(FromUserFunction, ValueError, 1%Q); (FromLoop, AttributeError, 1%Q);
   (FromUserFunction, ValueError, 1%Q); (FromLoop, AttributeError, 1%Q);
   (FromUserFunction, ValueError, 1%Q); (FromLoop, AttributeError, 1%Q);
   (FromUserFunction, ValueError, 1%Q); (FromLoop, AttributeError, 1%Q);
   (FromUserFunction, ValueError, 1%Q); (FromLoop, AttributeError, 1%Q);
   (FromUserFunction, ZeroDivisionError, 1%Q)].

(** Observed durations, in the order of the calls of [observe]. *)
Fixpoint observe_all (cfg : Config) (ds : list Q) (s : State) : State :=
  match ds with
  | [] => s
  | d :: rest =>
      observe_all cfg rest
        (snd (summary_observe PROCESS_LATENCY_MS (metrics_labels cfg) d s))
  end.

Definition Qsum (ds : list Q) : Q := fold_right Qplus 0%Q ds.

(** What [add_system_metrics] leaves under a metric name. *)
Definition system_digest (value : Q) : DataDigest :=
  {| digest_count := value; digest_sum := value;
     digest_min := 0; digest_max := value |}.

Definition latency_sum (cfg : Config) (s : State) : Q :=
  read_cell (summary_sum (stats_class s)) PROCESS_LATENCY_MS (metrics_labels cfg).
Definition latency_count (cfg : Config) (s : State) : Q :=
  read_cell (summary_count (stats_class s)) PROCESS_LATENCY_MS (metrics_labels cfg).

(** The two parts of [loop_body], read off its definition: what follows
    [self.queue.get(True)] inside the outer [try], and the outer handler. *)
Definition loop_continuation (cfg : Config) (env : Env)
  : queue_entry -> M loop_ctl :=
  ltac:(let t := eval unfold loop_body in (loop_body cfg env) in
        lazymatch t with
        | try_except_Exception (bind queue_get ?k) _ => exact k
        end).

Definition loop_handler (cfg : Config) (env : Env) : PyExc -> M loop_ctl :=
  ltac:(let t := eval unfold loop_body in (loop_body cfg env) in
        lazymatch t with
        | try_except_Exception _ ?h => exact h
        end).

(** The state right after [self.queue.get(True)] returned the head. *)
Definition dequeued (s : State) : State :=
  match queue s with
  | [] => s
  | entry :: rest => set_get_log (get_log s ++ [entry]) (set_queue rest s)
  end.

(** An event of the publishing path: no acknowledgement, and a [send_async]
    only with the provenance of [msg] and the callback bound to it. *)
Definition publishes_for (msg : InternalMessage) (ev : event) : Prop :=
  is_acknowledge ev = false ∧ carries_provenance msg ev.

(** What a publish result adds to the acknowledgements. *)
Definition acknowledged_on (result : Result) (c : Consumer) (m : Message)
  : list (Consumer * Message) :=
  if decide (result = ResultOk) then [(c, m)] else [].

(** An event that is neither a [send_async] nor an acknowledgement. *)
Definition silent (ev : event) : Prop :=
  is_send_async ev = false ∧ is_acknowledge ev = false.

(** ** Sample runs *)

Definition sink_topic_sample : option string :=
  Some "persistent://public/default/out"%string.

(** One message whose processing raises in the user function, then the
    status report. *)
Definition status_after_user_exception : option FunctionStatus :=
  let cfg := under_python2 (sample_config ATLEAST_ONCE true None) in
  match run cfg (sample_env always_raises)
            [Deliver DEFAULT_SERIALIZER sample_consumer (sample_message x01);
             WorkerTurn]
            (initial_process cfg 100) with
  | Some p =>
      match get_function_status cfg (state p) with
      | (Normal st, _) => Some st
      | _ => None
      end
  | None => None
  end.


(** The item a listener call enqueues. *)
Definition item_of (sd : Serde) (c : Consumer) (m : Message) : InternalMessage :=
  {| message := m; topic := consumer_topic c; serde := sd; consumer := c |}.

(** A computation that returns nothing but [c], when it returns. *)
Definition always_returns {A} (c : A) (m : M A) : Prop :=
  ∀ s a, fst (m s) = Normal a → a = c.

(** One item handled: the turn of the loop on the state in which the item
    has just been dequeued. *)
Definition turn (cfg : Config) (env : Env) (entry : queue_entry) : M loop_ctl :=
  try_except_Exception (loop_continuation cfg env entry) (loop_handler cfg env).

(** The queue and its two histories are as before. *)
Definition same_logs (s s' : State) : Prop :=
  queue s' = queue s ∧ put_log s' = put_log s ∧ get_log s' = get_log s.

(** ** Invariants of the process *)

(** Everything enqueued was dequeued, in the same order, or is still in the
    queue. *)
Definition fifo (p : Process) : Prop :=
  put_log (state p) = get_log (state p) ++ queue (state p).

(** The execution thread runs as long as it has dequeued work items only;
    it has finished right after the first sentinel; it has died only of an
    exception that leaves the loop. *)
Definition thread_consistent (env : Env) (p : Process) : Prop :=
  match execution_thread p with
  | ThreadRunning =>
      get_log (state p) = map Work (work_items (get_log (state p)))
  | ThreadFinished =>
      get_log (state p) =
        map Work (work_items (get_log (state p))) ++ [Quit]
  | ThreadDied e => leaves_the_loop env e
  end.

Definition join_consistent (p : Process) : Prop :=
  joiner p = JoinReturned → thread_ended (execution_thread p) = true.

Definition consistent (env : Env) (p : Process) : Prop :=
  fifo p ∧ thread_consistent env p ∧ join_consistent p.

(** Whether the input serde returns on the payload of an item. *)
Definition decodable (env : Env) (item : InternalMessage) : bool :=
  match deserialize env (serde item) (data (message item)) with
  | Returns _ => true
  | Raises _ => false
  end.

(** The calls of the user function that dequeued entries account for: one
    for each work item whose payload the input serde decodes. *)
Definition calls_due (env : Env) (entries : list queue_entry) : nat :=
  length (List.filter (decodable env) (work_items entries)).

(** Every item taken from the queue has been given to the input serde and,
    where that returned, to the user function, once: the user function was
    called as often as there are decodable items among those dequeued. *)
Definition every_item_attempted (env : Env) (s : State) : Prop :=
  invocations s = calls_due env (get_log s).

(** The calls of the user function and the history of the dequeued entries
    are as before. *)
Definition same_calls (s s' : State) : Prop :=
  invocations s' = invocations s ∧ get_log s' = get_log s.

(** ** The claims on the threads, as properties of a configuration *)


(** No exception ends the execution thread. *)
Definition worker_survives (cfg : Config) (env : Env) : Prop :=
  ∀ now schedule p e,
    run cfg env schedule (initial_process cfg now) = Some p →
    execution_thread p ≠ ThreadDied e.

(** Once [join] has returned, the items enqueued before the sentinel have
    all been dequeued and handled, followed by the sentinel, and nothing
    else: the user function has been called once for each of them that the
    input serde could decode. *)
Definition join_waits_for_all (cfg : Config) (env : Env) : Prop :=
  ∀ now schedule p items rest,
    run cfg env schedule (initial_process cfg now) = Some p →
    put_log (state p) = map Work items ++ Quit :: rest →
    joiner p = JoinReturned →
    get_log (state p) = map Work items ++ [Quit] ∧ queue (state p) = rest
    ∧ invocations (state p) = length (List.filter (decodable env) items).

(** Two deliveries, [join], one turn of the loop in which the user function
    calls [sys.exit], and the return of [join]. *)
Definition run_with_sys_exit : option Process :=
  let cfg := sample_config ATLEAST_ONCE true None in
  run cfg (sample_env calls_sys_exit)
      [Deliver DEFAULT_SERIALIZER sample_consumer (sample_message x01);
       Deliver DEFAULT_SERIALIZER sample_consumer (sample_message x02);
       JoinPut; WorkerTurn; JoinReturn]
      (initial_process cfg 100).

(** The value of a counter of this instance. *)
Definition counter (cfg : Config) (metric : string) (s : State) : Q :=
  read_cell (counter_values (stats_class s)) metric (metrics_labels cfg).

(** The messages whose handling has ended in one of the three ways the
    loop counts last: successfully processed, a user exception, a system
    exception. *)
Definition outcomes (cfg : Config) (s : State) : Q :=
  (counter cfg TOTAL_SUCCESSFULLY_PROCESSED s
   + counter cfg TOTAL_USER_EXCEPTIONS s
   + counter cfg TOTAL_SYSTEM_EXCEPTIONS s)%Q.

(** The items of a list handled one after the other, as the loop does it
    when nothing else runs in between: each is taken from the head of the
    queue and given to the body of the loop, in the state the turn before
    has left. The first exception that leaves a turn ends it all. *)
Fixpoint handle_each (cfg : Config) (env : Env) (items : list InternalMessage)
  : M unit :=
  match items with
  | [] => ret tt
  | item :: items' =>
      modify dequeued ;;
      turn cfg env (Work item) ;;
      handle_each cfg env items'
  end.

(** [actual_execution] left its loop at the sentinel that follows [items]:
    it has handled them one after the other, each turn having ended in one
    of the three counted ways, then dequeued the sentinel. *)
Definition exits_after (cfg : Config) (env : Env) (fuel : nat) (s : State)
    (items : list InternalMessage) (rest : list queue_entry) : Prop :=
  ∃ s1, handle_each cfg env items s = (Normal tt, s1)
        ∧ actual_execution cfg env fuel s = (Normal (Some tt), dequeued s1)
        ∧ (outcomes cfg s1 ==
             outcomes cfg s + inject_Z (Z.of_nat (length items)))%Q
        ∧ get_log (dequeued s1) = get_log s ++ map Work items ++ [Quit]
        ∧ queue (dequeued s1) = rest
        ∧ put_log (dequeued s1) = put_log s.

(** [actual_execution] was left by an exception that satisfies [bad],
    raised while one of [items] was handled. *)
Definition dies_of (cfg : Config) (env : Env) (fuel : nat) (s : State)
    (items : list InternalMessage) (bad : PyExc -> Prop) : Prop :=
  ∃ e s', actual_execution cfg env fuel s = (Raise e, s')
          ∧ handle_each cfg env items s = (Raise e, s')
          ∧ bad e.

(** What a turn on a work item has done when it returns: the loop goes on,
    the item has ended in exactly one of the three counted ways, and the
    user function was called if and only if the input serde returned. *)
Definition attempted (cfg : Config) (env : Env) (item : InternalMessage)
    (s : State) (c : loop_ctl) (s' : State) : Prop :=
  c = Continue
  ∧ (outcomes cfg s' == outcomes cfg s + 1)%Q
  ∧ match deserialize env (serde item) (data (message item)) with
    | Returns _ => invocations s' = S (invocations s)
    | Raises _ => invocations s' = invocations s
    end.

(** A state whose queue holds two items and the sentinel. *)
Definition two_items_then_quit : State :=
  set_queue [Work (sample_item x01); Work (sample_item x02); Quit]
    (initial_state (sample_config ATLEAST_ONCE true None) 100).

(** The same schedule behind an input serde whose exceptions have no
    text. *)
Definition run_with_unprintable : option Process :=
  let cfg := sample_config ATLEAST_ONCE true None in
  run cfg (unprintable_env exclaim)
      [Deliver DEFAULT_SERIALIZER sample_consumer (sample_message x01);
       Deliver DEFAULT_SERIALIZER sample_consumer (sample_message x02);
       JoinPut; WorkerTurn; JoinReturn]
      (initial_process cfg 100).

(** The process at the end of [run_with_sys_exit]. *)
Definition process_after_sys_exit : Process :=
  Eval vm_compute in
    match run_with_sys_exit with
    | Some p => p
    | None => initial_process (sample_config ATLEAST_ONCE true None) 100
    end.

(** The process at the end of [run_with_unprintable]. *)
Definition process_after_unprintable : Process :=
  Eval vm_compute in
    match run_with_unprintable with
    | Some p => p
    | None => initial_process (sample_config ATLEAST_ONCE true None) 100
    end.

(** * Further properties of the code

    ** Definitions for [base64ify] *)

(** Characters that need no escaping in a URL or a file name, and the
    padding character. *)
Definition url_safe_char (c : ascii) : bool :=
  let n := N_of_ascii c in
  ((65 <=? n) && (n <=? 90) || (97 <=? n) && (n <=? 122)
   || (48 <=? n) && (n <=? 57) || (n =? 45) || (n =? 95) || (n =? 61))%N.

(** The number of bytes [base64ify] encodes: the bytes of a [bytes] object,
    the UTF-8 bytes of a [str]. *)
Definition input_size (x : bytes_or_str) : nat :=
  match x with
  | PyBytes b => length b
  | PyStr s => String.length s
  end.

(** The position of a character in a string (its length when absent). *)
Fixpoint index_of (c : ascii) (s : string) : N :=
  match s with
  | EmptyString => 0%N
  | String c' s' => if Ascii.eqb c c' then 0%N else N.succ (index_of c s')
  end.

(** The 24-bit group [encode_chars] forms of three bytes. *)
Definition group (a b c : N) : N :=
  N.lor (N.lor (N.shiftl a 16) (N.shiftl b 8)) c.

(** ** Definitions for the turns of the loop *)

(** The parts of [loop_body] that handle a work item, named: the call of
    the user function inside the inner [try], and what follows it. *)
Definition invoke (cfg : Config) (env : Env) (input_object : PyObject)
  : M (bool * option PyObject) :=
  try_except_Exception
    (start_time <- time_time ;;
     modify (fun s =>
       set_stats (set_own_last_invocation_time
                    (Some (start_time * 1000)%Q) (stats s)) s) ;;
     output_object <- call_user_function cfg env input_object ;;
     now <- time_time ;;
     summary_observe PROCESS_LATENCY_MS (metrics_labels cfg)
       ((now - start_time) * 1000)%Q ;;
     counter_inc TOTAL_PROCESSED (metrics_labels cfg) ;;
     ret (true, output_object))
    (fun e =>
       counter_inc TOTAL_USER_EXCEPTIONS (metrics_labels cfg) ;;
       add_user_exception e ;;
       ret (false, None)).

Definition conclude (cfg : Config) (env : Env) (msg : InternalMessage)
    (executed : bool * option PyObject) : M loop_ctl :=
  let '(successfully_executed, output_object) := executed in
  when (has_log_topic_handler cfg) (emit LogRestore) ;;
  when successfully_executed
    (process_result cfg env output_object msg ;;
     counter_inc TOTAL_SUCCESSFULLY_PROCESSED (metrics_labels cfg)) ;;
  ret Continue.

Definition handle (cfg : Config) (env : Env) (msg : InternalMessage) : M loop_ctl :=
  input_object <- call (deserialize env (serde msg) (data (message msg))) ;;
  set_current_message_context (message_id (message msg)) (topic msg) ;;
  when (has_log_topic_handler cfg) (emit LogRedirect) ;;
  executed <- invoke cfg env input_object ;;
  conclude cfg env msg executed.

(** What the user function is called with in state [s], and what it does. *)
Definition user_call (cfg : Config) (env : Env) (input_object : PyObject)
    (s : State) : outcome (option PyObject) * Q :=
  match user_function cfg with
  | FunctionClass =>
      process_with_context env (invocations s) input_object (contextimpl s)
  | PureFunction => process_pure env (invocations s) input_object
  end.

(** The context while [msg] is handled. *)
Definition context_for (msg : InternalMessage) (s : State) : Context :=
  {| current_message_id := Some (message_id (message msg));
     current_topic := Some (topic msg);
     user_metrics := user_metrics (contextimpl s) |}.

(** The call of the user function for [msg], dequeued in state [s]. *)
Definition user_call_for (cfg : Config) (env : Env) (input_object : PyObject)
    (msg : InternalMessage) (s : State) : outcome (option PyObject) * Q :=
  user_call cfg env input_object (set_contextimpl (context_for msg s) s).

(** The state in which the user function returns or raises, [dt] seconds
    after it was called in state [s]. *)
Definition after_call (dt : Q) (s : State) : State :=
  set_clock (clock s + dt)%Q
    (set_invocations (S (invocations s))
       (set_stats (set_own_last_invocation_time (Some (clock s * 1000)%Q) (stats s))
          s)).

(** What a handler of [actual_execution] leaves: the counter [metric]
    incremented, then the exception recorded. *)
Definition recorded (cfg : Config) (metric : string) (e : PyExc) (s : State)
  : State :=
  snd (add_sys_exception e (snd (counter_inc metric (metrics_labels cfg) s))).

(** A swap of the log handlers, when there is a log topic. *)
Definition log_event (cfg : Config) (ev : event) (s : State) : State :=
  if has_log_topic_handler cfg then set_trace (trace s ++ [ev]) s else s.

(** The state in which [process_result] is called after the user function
    returned, [dt] seconds after it was called in state [s]. *)
Definition processed (cfg : Config) (dt : Q) (s : State) : State :=
  log_event cfg LogRestore
    (snd (counter_inc TOTAL_PROCESSED (metrics_labels cfg)
            (snd (summary_observe PROCESS_LATENCY_MS (metrics_labels cfg)
                    ((clock s + dt - clock s) * 1000)%Q (after_call dt s))))).

(** The state in which the user function is called for [msg]. *)
Definition called_for (cfg : Config) (msg : InternalMessage) (s : State) : State :=
  log_event cfg LogRedirect (set_contextimpl (context_for msg s) s).

(** What the outer handler of the loop makes of [e], caught in state [s]:
    when the text of [e] cannot be had, the exception raised instead, with
    nothing counted or recorded. *)
Definition caught (cfg : Config) (env : Env) (e : PyExc) (s : State)
  : result loop_ctl * State :=
  match str_of_exception env e with
  | Returns _ => (Normal Continue, recorded cfg TOTAL_SYSTEM_EXCEPTIONS e s)
  | Raises e' => (Raise e', s)
  end.

(** One turn on a dequeued work item, as a decision tree over what the
    collaborators do. *)
Definition handled (cfg : Config) (env : Env) (msg : InternalMessage) (s : State)
  : result loop_ctl * State :=
  match deserialize env (serde msg) (data (message msg)) with
  | Raises e =>
      if isinstance_Exception e then caught cfg env e s else (Raise e, s)
  | Returns input_object =>
      match user_call cfg env input_object (called_for cfg msg s) with
      | (Raises e, dt) =>
          if isinstance_Exception e
          then (Normal Continue,
                log_event cfg LogRestore
                  (recorded cfg TOTAL_USER_EXCEPTIONS e
                     (after_call dt (called_for cfg msg s))))
          else (Raise e, after_call dt (called_for cfg msg s))
      | (Returns output_object, dt) =>
          match process_result cfg env output_object msg
                  (processed cfg dt (called_for cfg msg s)) with
          | (Normal _, s') =>
              (Normal Continue,
               snd (counter_inc TOTAL_SUCCESSFULLY_PROCESSED (metrics_labels cfg) s'))
          | (Raise e, s') =>
              if isinstance_Exception e then caught cfg env e s' else (Raise e, s')
          | (Blocked, s') => (Blocked, s')
          end
      end
  end.

(** Everything but the two exception lists is as before. *)
Definition same_but_exception_lists (s s' : State) : Prop :=
  counter_values (stats_class s') = counter_values (stats_class s)
  ∧ summary_sum (stats_class s') = summary_sum (stats_class s)
  ∧ summary_count (stats_class s') = summary_count (stats_class s)
  ∧ own_last_invocation_time (stats s') = own_last_invocation_time (stats s)
  ∧ queue s' = queue s ∧ put_log s' = put_log s ∧ get_log s' = get_log s
  ∧ alive s' = alive s ∧ invocations s' = invocations s ∧ clock s' = clock s
  ∧ contextimpl s' = contextimpl s ∧ producer s' = producer s
  ∧ output_serde s' = output_serde s
  ∧ last_health_check_ts s' = last_health_check_ts s
  ∧ trace s' = trace s.

(** Everything but the trace, the output serde and the producer is as
    before. *)
Definition same_but_routing (s s' : State) : Prop :=
  stats_class s' = stats_class s ∧ stats s' = stats s
  ∧ queue s' = queue s ∧ put_log s' = put_log s ∧ get_log s' = get_log s
  ∧ alive s' = alive s ∧ invocations s' = invocations s ∧ clock s' = clock s
  ∧ contextimpl s' = contextimpl s
  ∧ last_health_check_ts s' = last_health_check_ts s.

(** A state in which one sample item waits in the queue. *)
Definition one_item_queued (cfg : Config) : State :=
  set_put_log [Work (sample_item x01)]
    (set_queue [Work (sample_item x01)] (initial_state cfg 100)).

(** A serde that cannot deserialize, and one that cannot serialize. *)
Definition UnicodeDecodeError : PyExc :=
  {| exc_type := "UnicodeDecodeError"; isinstance_Exception := true;
     format_exc := "UnicodeDecodeError: invalid start byte" |}.

Definition TypeError : PyExc :=
  {| exc_type := "TypeError"; isinstance_Exception := true;
     format_exc := "TypeError: a bytes-like object is required" |}.

Definition undecodable_env : Env :=
  {| deserialize := fun _ _ => Raises UnicodeDecodeError;
     serialize := fun _ o => Returns (Some (list_byte_of_string o));
     process_with_context := fun n o _ => (exclaim n o, 1 # 100);
     process_pure := fun n o => (exclaim n o, 1 # 100);
     import_serde := fun cls => Returns cls;
     create_producer := fun _ => Returns tt;
     str_of_exception := fun e => Returns (exc_type e) |}.

Definition unserializable_env : Env :=
  {| deserialize := fun _ b => Returns (string_of_list_byte b);
     serialize := fun _ _ => Raises TypeError;
     process_with_context := fun n o _ => (exclaim n o, 1 # 100);
     process_pure := fun n o => (exclaim n o, 1 # 100);
     import_serde := fun cls => Returns cls;
     create_producer := fun _ => Returns tt;
     str_of_exception := fun e => Returns (exc_type e) |}.

(** The sample state with the output serde and the producer set up. *)
Definition one_item_queued_routed (cfg : Config) : State :=
  set_producer sink_topic_sample
    (set_output_serde (Some DEFAULT_SERIALIZER) (one_item_queued cfg)).

(** ** Definitions for the invariants of runs *)

(** A method keeps an invariant of the state. *)
Definition preserves (I : State → Prop) {A} (m : M A) : Prop :=
  ∀ s, I s → I (snd (m s)).

(** The counters and the summary are as before. *)
Definition same_counters (s s' : State) : Prop :=
  counter_values (stats_class s') = counter_values (stats_class s)
  ∧ summary_sum (stats_class s') = summary_sum (stats_class s)
  ∧ summary_count (stats_class s') = summary_count (stats_class s).

(** A sample schedule: two deliveries, two turns of the loop, a status
    report, a third delivery and the call of [join]. *)
Definition sample_schedule : list action :=
  [Deliver DEFAULT_SERIALIZER sample_consumer (sample_message x01);
   Deliver DEFAULT_SERIALIZER sample_consumer (sample_message x02);
   WorkerTurn; WorkerTurn; GetFunctionStatus;
   Deliver DEFAULT_SERIALIZER sample_consumer (sample_message x03);
   JoinPut].

(** The process a schedule leads to (the initial one when the schedule
    cannot be run). *)
Definition sample_run (cfg : Config) (env : Env) (schedule : list action)
  : Process :=
  match run cfg env schedule (initial_process cfg 100) with
  | Some p => p
  | None => initial_process cfg 100
  end.

(** The processes the sample schedule leads to, at-least-once with
    auto-ack and without. *)
Definition process_after_sample_schedule : Process :=
  Eval vm_compute in
    sample_run (sample_config ATLEAST_ONCE true None) (sample_env exclaim)
      sample_schedule.

Definition process_after_sample_schedule_without_auto_ack : Process :=
  Eval vm_compute in
    sample_run (sample_config ATLEAST_ONCE false None) (sample_env exclaim)
      sample_schedule.

(** ** Definitions for the producer *)

Definition is_create_producer (ev : event) : bool :=
  match ev with
  | CreateProducer _ => true
  | _ => false
  end.

(** An event that touches the producer: its creation or a [send_async]. *)
Definition is_routing (ev : event) : bool :=
  is_create_producer ev || is_send_async ev.

(** A trace in which the producer is created at most once, and before
    anything is sent. *)
Fixpoint created_once_before_sending (tr : list event) : bool :=
  match tr with
  | [] => true
  | ev :: tr' =>
      if is_create_producer ev
      then forallb (fun ev' => negb (is_create_producer ev')) tr'
      else negb (is_send_async ev) && created_once_before_sending tr'
  end.

(** The trace and the producer agree: without a producer nothing was
    created or sent; with one, it was created once, before all sending. *)
Definition producer_consistent (s : State) : Prop :=
  match producer s with
  | None => forallb (fun ev => negb (is_routing ev)) (trace s) = true
  | Some _ =>
      created_once_before_sending (trace s) = true
      ∧ existsb is_create_producer (trace s) = true
  end.

(** The producer is as before, and the trace grew by events that do not
    touch it. *)
Definition same_producer (s s' : State) : Prop :=
  producer s' = producer s ∧ emits (fun ev => is_routing ev = false) s s'.

(** The process the sample schedule leads to with a sink topic. *)
Definition process_after_sample_schedule_with_sink : Process :=
  Eval vm_compute in
    sample_run (sample_config ATLEAST_ONCE true sink_topic_sample)
      (sample_env exclaim) sample_schedule.

(** ** Definitions for the counters along a run *)

(** No more messages counted as successfully processed than as processed. *)
Definition counts_consistent (cfg : Config) (s : State) : Prop :=
  (counter cfg TOTAL_SUCCESSFULLY_PROCESSED s <= counter cfg TOTAL_PROCESSED s)%Q.

(** ** Definitions for the log handlers *)

Definition is_log_event (ev : event) : bool :=
  match ev with
  | LogRedirect | LogRestore => true
  | _ => false
  end.

(** Which handlers are in place after a trace, [true] for the log topic
    handler, when the trace starts with the handlers [redirected] and swaps
    them in turn; [None] when it redirects twice or restores twice in a
    row. *)
Fixpoint log_handlers_after (redirected : bool) (tr : list event) : option bool :=
  match tr with
  | [] => Some redirected
  | LogRedirect :: tr' =>
      if redirected then None else log_handlers_after true tr'
  | LogRestore :: tr' =>
      if redirected then log_handlers_after false tr' else None
  | _ :: tr' => log_handlers_after redirected tr'
  end.

(** The log handlers are those of the process, unless the execution thread
    has died. *)
Definition log_handlers_restored (p : Process) : Prop :=
  match execution_thread p with
  | ThreadDied _ => True
  | _ => log_handlers_after false (trace (state p)) = Some false
  end.

(** An instance with a log topic. *)
Definition logging_config : Config :=
  {| instance_config :=
       {| instance_id := "0"; function_id := "f-1"; function_version := "1";
          function_details :=
            {| tenant := "public"; namespace := "default"; name := "exclamation";
               processingGuarantees := ATLEAST_ONCE; autoAck := true;
               sink_topic := None; sink_serDeClassName := None;
               logTopic := Some "persistent://public/default/logs"%string |};
          max_buffered_tuples := 8 |};
     expected_healthcheck_interval := 30;
     user_function := PureFunction;
     PY3 := true |}.

(** A user function that raises on every second call. *)
Definition raises_every_second_time : nat -> PyObject -> outcome (option PyObject) :=
  fun n o => if Nat.even n then Raises ValueError else Returns (Some (o ++ "!")%string).

Definition process_after_sample_schedule_with_log_topic : Process :=
  Eval vm_compute in
    sample_run logging_config (sample_env raises_every_second_time) sample_schedule.

(** ** Definitions for the reports and for [Stats] *)

(** The names under which [get_metrics] stores the system metrics. *)
Definition system_metric_names : list string :=
  ["__total_processed__"; "__total_successfully_processed__";
   "__total_system_exceptions__"; "__total_user_exceptions__";
   "__avg_latency_ms__"]%string.

(** [Stats()]: an object without attributes of its own. *)
Definition new_Stats : StatsObject :=
  {| own_latest_user_exception := None;
     own_latest_sys_exception := None;
     own_last_invocation_time := None |}.

(** [actual_execution] waits in [queue.get] on the empty queue, having
    handled [items] one after the other, each turn having ended in one of
    the three counted ways. *)
Definition waits_after (cfg : Config) (env : Env) (fuel : nat) (s : State)
    (items : list InternalMessage) : Prop :=
  ∃ s', handle_each cfg env items s = (Normal tt, s')
        ∧ actual_execution cfg env fuel s = (Blocked, s')
        ∧ (outcomes cfg s' ==
             outcomes cfg s + inject_Z (Z.of_nat (length items)))%Q
        ∧ queue s' = []
        ∧ get_log s' = get_log s ++ map Work items
        ∧ put_log s' = put_log s.

(** A state whose queue holds two items and no sentinel. *)
Definition two_items_waiting : State :=
  set_queue [Work (sample_item x01); Work (sample_item x02)]
    (initial_state (sample_config ATLEAST_ONCE true None) 100).

(** ** Start-up: [__init__] and [run]

    The fields of [function_details] that only the start-up reads, the
    calls it makes into the messaging client, and the attributes it sets.
    The messaging client, [util.import_class] and the constructor of the
    user class are collaborators outside the file. *)

Module Startup.

(** [Function_pb2.SubscriptionType] and [pulsar._pulsar.ConsumerType]. *)
Inductive SubscriptionType := SHARED | FAILOVER.
Inductive ConsumerType := Shared | Failover.

#[global] Instance SubscriptionType_eq_dec : EqDecision SubscriptionType.
Proof. solve_decision. Defined.

#[global] Instance ConsumerType_eq_dec : EqDecision ConsumerType.
Proof. solve_decision. Defined.

(** An entry of [function_details.source.inputSpecs]. *)
Record ConsumerSpec := {
  serdeClassName : string;
  isRegexPattern : bool
}.

(** [function_details.source] and [function_details.className]; the two
    maps are given as the entries [items()] yields, in that order. *)
Record SourceSpec := {
  subscriptionType : SubscriptionType;
  topicsToSerDeClassName : list (string * string);
  inputSpecs : list (string * ConsumerSpec);
  timeoutMs : Z;
  className : string
}.

(** The first argument of [subscribe]: [str(topic)] or
    [re.compile(str(topic))]. *)
Inductive topic_or_pattern :=
| TopicName (t : string)
| TopicPattern (compiled : string).

(** A call [pulsar_client.subscribe(topic, subscription_name,
    consumer_type=mode, message_listener=partial(self.message_listener,
    serde), unacked_messages_timeout_ms=timeout)]. *)
Record SubscribeCall := {
  call_topic : topic_or_pattern;
  call_subscription_name : string;
  call_consumer_type : ConsumerType;
  call_listener_serde : option Serde;
  call_unacked_messages_timeout_ms : option Z
}.

(** What the start-up does to the outside. *)
Inductive startup_event :=
| Subscribed (c : SubscribeCall)
| ContextCreated
    (* [contextimpl.ContextImpl(..)] *)
| ThreadStarted
    (* [threading.Thread(target=self.actual_execution).start()] *)
| TimerStarted (interval : Q)
    (* [Timer(interval, self.process_spawner_health_check_timer).start()] *).

(** The collaborators of the start-up. [util.import_class] gives the class
    or [None]; [run] tests its result against [None]. *)
Record StartupEnv := {
  import_class : string -> outcome (option string);
  instantiate : string -> outcome unit;
    (* [function_kclass()] *)
  subscribe : SubscribeCall -> outcome Consumer;
  re_compile : string -> outcome string
}.

(** The attributes of the instance that the start-up sets. *)
Record Instance := {
  input_serdes : gmap string Serde;
  consumers : gmap string Consumer;
  function_class : option string;
  function_purefunction : option string;
  timeout_ms : option Z;
  execution_thread_started : bool;
  health_check_ts : Q;
  now : Q;                          (* what [time.time()] returns *)
  events : list startup_event
}.

Definition set_input_serdes (v : gmap string Serde) (i : Instance) : Instance :=
  {| input_serdes := v; consumers := consumers i;
     function_class := function_class i;
     function_purefunction := function_purefunction i;
     timeout_ms := timeout_ms i;
     execution_thread_started := execution_thread_started i;
     health_check_ts := health_check_ts i; now := now i; events := events i |}.
Definition set_consumers (v : gmap string Consumer) (i : Instance) : Instance :=
  {| input_serdes := input_serdes i; consumers := v;
     function_class := function_class i;
     function_purefunction := function_purefunction i;
     timeout_ms := timeout_ms i;
     execution_thread_started := execution_thread_started i;
     health_check_ts := health_check_ts i; now := now i; events := events i |}.
Definition set_function_class (v : option string) (i : Instance) : Instance :=
  {| input_serdes := input_serdes i; consumers := consumers i;
     function_class := v;
     function_purefunction := function_purefunction i;
     timeout_ms := timeout_ms i;
     execution_thread_started := execution_thread_started i;
     health_check_ts := health_check_ts i; now := now i; events := events i |}.
Definition set_function_purefunction (v : option string) (i : Instance) : Instance :=
  {| input_serdes := input_serdes i; consumers := consumers i;
     function_class := function_class i;
     function_purefunction := v;
     timeout_ms := timeout_ms i;
     execution_thread_started := execution_thread_started i;
     health_check_ts := health_check_ts i; now := now i; events := events i |}.
Definition set_execution_thread_started (v : bool) (i : Instance) : Instance :=
  {| input_serdes := input_serdes i; consumers := consumers i;
     function_class := function_class i;
     function_purefunction := function_purefunction i;
     timeout_ms := timeout_ms i;
     execution_thread_started := v;
     health_check_ts := health_check_ts i; now := now i; events := events i |}.
Definition set_health_check_ts (v : Q) (i : Instance) : Instance :=
  {| input_serdes := input_serdes i; consumers := consumers i;
     function_class := function_class i;
     function_purefunction := function_purefunction i;
     timeout_ms := timeout_ms i;
     execution_thread_started := execution_thread_started i;
     health_check_ts := v; now := now i; events := events i |}.
Definition set_events (v : list startup_event) (i : Instance) : Instance :=
  {| input_serdes := input_serdes i; consumers := consumers i;
     function_class := function_class i;
     function_purefunction := function_purefunction i;
     timeout_ms := timeout_ms i;
     execution_thread_started := execution_thread_started i;
     health_check_ts := health_check_ts i; now := now i; events := v |}.

(** The methods of the start-up thread the instance through. *)
Definition M (A : Type) : Type := Instance -> result A * Instance.

Definition ret {A} (a : A) : M A := fun i => (Normal a, i).

Definition bind {A B} (m : M A) (k : A -> M B) : M B :=
  fun i =>
    match m i with
    | (Normal a, i') => k a i'
    | (Raise e, i') => (Raise e, i')
    | (Blocked, i') => (Blocked, i')
    end.

Declare Scope startup_scope.
Delimit Scope startup_scope with startup.
Notation "x <- m ;; k" := (bind m (fun x => k))
  (at level 100, m at next level, right associativity) : startup_scope.
Notation "m ;; k" := (bind m (fun _ => k))
  (at level 100, right associativity) : startup_scope.
Local Open Scope startup_scope.

Definition gets {A} (f : Instance -> A) : M A := fun i => (Normal (f i), i).
Definition modify (f : Instance -> Instance) : M unit := fun i => (Normal tt, f i).
Definition raise {A} (e : PyExc) : M A := fun i => (Raise e, i).

Definition call {A} (o : outcome A) : M A :=
  match o with
  | Returns a => ret a
  | Raises e => raise e
  end.

Definition emit (ev : startup_event) : M unit :=
  modify (fun i => set_events (events i ++ [ev]) i).

(** [try: body / except: handler]: the bare [except] catches whatever is
    raised. *)
Definition try_except {A} (body : M A) (handler : M A) : M A :=
  fun i =>
    match body i with
    | (Raise _, i') => handler i'
    | r => r
    end.

(** [for x in xs: body] *)
Fixpoint for_each {A} (xs : list A) (body : A -> M unit) : M unit :=
  match xs with
  | [] => ret tt
  | x :: xs' => body x ;; for_each xs' body
  end.

Definition NameError : PyExc :=
  {| exc_type := "NameError"; isinstance_Exception := true;
     format_exc := "NameError: Could not import User Function Module" |}.

Section Run.

Variable cfg : Config.
Variable source : SourceSpec.
Variable env : Env.
Variable senv : StartupEnv.

(** [__init__], as far as [run] depends on it: the two dictionaries are
    empty, no function object and no thread yet, the time of the last
    health check is the time of construction, and [timeout_ms] is
    [source.timeoutMs] when that is positive and [None] otherwise. *)
Definition init (t : Q) : Instance :=
  {| input_serdes := ∅;
     consumers := ∅;
     function_class := None;
     function_purefunction := None;
     timeout_ms := if 0 <? timeoutMs source then Some (timeoutMs source) else None;
     execution_thread_started := false;
     health_check_ts := t;
     now := t;
     events := [] |}.

(** [not serde] on a protobuf string. *)
Definition not_str (s : string) : bool := String.eqb s "".

(** [run] *)
Definition run : M unit :=
  (* Setup consumers and input deserializers *)
  let mode :=
    if decide (subscriptionType source = FAILOVER) then Failover else Shared in
  let subscription_name :=
    (tenant (details cfg) ++ "/" ++ namespace (details cfg) ++ "/"
     ++ name (details cfg))%string in
  for_each (topicsToSerDeClassName source) (fun '(topic, serde) =>
    serde_object <-
      (if not_str serde
       then call (import_serde env DEFAULT_SERIALIZER)
       else call (import_serde env serde)) ;;
    modify (fun i => set_input_serdes (<[topic := serde_object]> (input_serdes i)) i) ;;
    i <- gets id ;;
    let request :=
      {| call_topic := TopicName topic;
         call_subscription_name := subscription_name;
         call_consumer_type := mode;
         call_listener_serde := input_serdes i !! topic;
         call_unacked_messages_timeout_ms := timeout_ms i |} in
    consumer <- call (subscribe senv request) ;;
    emit (Subscribed request) ;;
    modify (fun i => set_consumers (<[topic := consumer]> (consumers i)) i)) ;;
  for_each (inputSpecs source) (fun '(topic, consumer_conf) =>
    serde_object <-
      (if not_str (serdeClassName consumer_conf)
       then call (import_serde env DEFAULT_SERIALIZER)
       else call (import_serde env (serdeClassName consumer_conf))) ;;
    modify (fun i => set_input_serdes (<[topic := serde_object]> (input_serdes i)) i) ;;
    if isRegexPattern consumer_conf then
      pattern <- call (re_compile senv topic) ;;
      i <- gets id ;;
      let request :=
        {| call_topic := TopicPattern pattern;
           call_subscription_name := subscription_name;
           call_consumer_type := mode;
           call_listener_serde := input_serdes i !! topic;
           call_unacked_messages_timeout_ms := timeout_ms i |} in
      consumer <- call (subscribe senv request) ;;
      emit (Subscribed request) ;;
      modify (fun i => set_consumers (<[topic := consumer]> (consumers i)) i)
    else
      i <- gets id ;;
      let request :=
        {| call_topic := TopicName topic;
           call_subscription_name := subscription_name;
           call_consumer_type := mode;
           call_listener_serde := input_serdes i !! topic;
           call_unacked_messages_timeout_ms := timeout_ms i |} in
      consumer <- call (subscribe senv request) ;;
      emit (Subscribed request) ;;
      modify (fun i => set_consumers (<[topic := consumer]> (consumers i)) i)) ;;
  function_kclass <- call (import_class senv (className source)) ;;
  match function_kclass with
  | None => raise NameError
  | Some kclass =>
      try_except
        (call (instantiate senv kclass) ;;
         modify (set_function_class (Some kclass)))
        (modify (set_function_purefunction (Some kclass))) ;;
      emit ContextCreated ;;
      (* Now launch a thread that does execution *)
      modify (set_execution_thread_started true) ;;
      emit ThreadStarted ;;
      (* start proccess spawner health check timer *)
      t <- gets now ;;
      modify (set_health_check_ts t) ;;
      if py_gt (expected_healthcheck_interval cfg) 0
      then emit (TimerStarted (expected_healthcheck_interval cfg))
      else ret tt
  end.

End Run.

(** The calls of [subscribe] among the events, in order. *)
Definition subscriptions (evs : list startup_event) : list SubscribeCall :=
  omap (fun ev => match ev with Subscribed c => Some c | _ => None end) evs.

(** The topic a call of [subscribe] was made for. *)
Definition topic_text (c : SubscribeCall) : string :=
  match call_topic c with
  | TopicName t => t
  | TopicPattern p => p
  end.

End Startup.

(** *** What the start-up is expected to subscribe to *)

Section ExpectedSubscriptions.

Variable cfg : Config.
Variable source : Startup.SourceSpec.
Variable env : Env.
Variable senv : Startup.StartupEnv.

(** The serde object for a class name, the default serde for an empty
    name. *)
Definition serde_for (class_name : string) : option Serde :=
  match import_serde env
          (if String.eqb class_name "" then DEFAULT_SERIALIZER else class_name) with
  | Returns sd => Some sd
  | Raises _ => None
  end.

Definition expected_topic (topic : string) (regex : bool) : Startup.topic_or_pattern :=
  if regex then
    match Startup.re_compile senv topic with
    | Returns p => Startup.TopicPattern p
    | Raises _ => Startup.TopicName topic
    end
  else Startup.TopicName topic.

Definition expected_subscription (topic class_name : string) (regex : bool)
  : Startup.SubscribeCall :=
  {| Startup.call_topic := expected_topic topic regex;
     Startup.call_subscription_name :=
       (tenant (details cfg) ++ "/" ++ namespace (details cfg) ++ "/"
        ++ name (details cfg))%string;
     Startup.call_consumer_type :=
       match Startup.subscriptionType source with
       | Startup.FAILOVER => Startup.Failover
       | Startup.SHARED => Startup.Shared
       end;
     Startup.call_listener_serde := serde_for class_name;
     Startup.call_unacked_messages_timeout_ms :=
       if 0 <? Startup.timeoutMs source then Some (Startup.timeoutMs source)
       else None |}.

(** One subscription per entry of [topicsToSerDeClassName], then one per
    entry of [inputSpecs]. *)
Definition expected_subscriptions : list Startup.SubscribeCall :=
  map (fun '(topic, class_name) => expected_subscription topic class_name false)
      (Startup.topicsToSerDeClassName source)
  ++ map (fun '(topic, conf) =>
            expected_subscription topic (Startup.serdeClassName conf)
              (Startup.isRegexPattern conf))
         (Startup.inputSpecs source).

(** The topics of the two maps. *)
Definition input_topics : list string :=
  map fst (Startup.topicsToSerDeClassName source)
  ++ map fst (Startup.inputSpecs source).

(** Collaborators that let the subscriptions through. *)
Definition subscriptions_succeed : Prop :=
  (∀ class_name, ∃ sd, import_serde env class_name = Returns sd)
  ∧ (∀ request, ∃ consumer, Startup.subscribe senv request = Returns consumer)
  ∧ (∀ topic, ∃ p, Startup.re_compile senv topic = Returns p).

End ExpectedSubscriptions.

(** A sample source: two topics, one of them a pattern, and a topic listed
    in both maps. *)
Definition sample_source : Startup.SourceSpec :=
  {| Startup.subscriptionType := Startup.FAILOVER;
     Startup.topicsToSerDeClassName :=
       [("persistent://public/default/in", "");
        ("persistent://public/default/in2", "serde.PickleSerDe")]%string;
     Startup.inputSpecs :=
       [("persistent://public/default/in",
         {| Startup.serdeClassName := "serde.PickleSerDe";
            Startup.isRegexPattern := false |});
        ("persistent://public/default/.*",
         {| Startup.serdeClassName := ""; Startup.isRegexPattern := true |})]%string;
     Startup.timeoutMs := 0;
     Startup.className := "exclamation.Exclamation" |}.

(** A client that accepts every subscription; [found] is what
    [util.import_class] gives for the user class, and [constructible] says
    whether the class can be instantiated without arguments. *)
Definition sample_startup_env (found : option string) (constructible : bool)
  : Startup.StartupEnv :=
  {| Startup.import_class := fun _ => Returns found;
     Startup.instantiate :=
       fun _ => if constructible then Returns tt else Raises TypeError;
     Startup.subscribe :=
       fun request =>
         Returns {| consumer_topic := Startup.topic_text request;
                    consumer_subscription :=
                      Startup.call_subscription_name request |};
     Startup.re_compile := fun topic => Returns topic |}.

(** What the loops of [run] keep, and what they add: the calls of
    [subscribe], and the entries of the two dictionaries. *)
Definition loop_outcome (i i' : Startup.Instance)
    (calls : list Startup.SubscribeCall) (topics : list string) : Prop :=
  Startup.events i' = Startup.events i ++ map Startup.Subscribed calls
  ∧ dom (Startup.consumers i') =
      dom (Startup.consumers i) ∪ list_to_set topics
  ∧ dom (Startup.input_serdes i') =
      dom (Startup.input_serdes i) ∪ list_to_set topics
  ∧ Startup.timeout_ms i' = Startup.timeout_ms i
  ∧ Startup.function_class i' = Startup.function_class i
  ∧ Startup.function_purefunction i' = Startup.function_purefunction i
  ∧ Startup.execution_thread_started i' = Startup.execution_thread_started i
  ∧ Startup.health_check_ts i' = Startup.health_check_ts i
  ∧ Startup.now i' = Startup.now i.

(** The three parts of [run], read off its definition: the bodies of the
    two loops, and what follows the loops. *)
Definition first_loop_body (cfg : Config) (source : Startup.SourceSpec)
    (env : Env) (senv : Startup.StartupEnv) : string * string -> Startup.M unit :=
  ltac:(let t := eval cbv beta zeta delta [Startup.run] in
                   (Startup.run cfg source env senv) in
        lazymatch t with
        | Startup.bind (Startup.for_each _ ?b) _ => exact b
        end).

Definition second_loop_body (cfg : Config) (source : Startup.SourceSpec)
    (env : Env) (senv : Startup.StartupEnv)
  : string * Startup.ConsumerSpec -> Startup.M unit :=
  ltac:(let t := eval cbv beta zeta delta [Startup.run] in
                   (Startup.run cfg source env senv) in
        lazymatch t with
        | Startup.bind _ (fun _ => Startup.bind (Startup.for_each _ ?b) _) =>
            exact b
        end).

Definition load_and_launch (cfg : Config) (source : Startup.SourceSpec)
    (env : Env) (senv : Startup.StartupEnv) : Startup.M unit :=
  ltac:(let t := eval cbv beta zeta delta [Startup.run] in
                   (Startup.run cfg source env senv) in
        lazymatch t with
        | Startup.bind _ (fun _ => Startup.bind _ (fun _ => ?k)) => exact k
        end).

(** ** Definitions for the messages that are acknowledged or published *)

(** The input message an event is about: the one acknowledged, or the one
    the callback of a [send_async] is bound to. *)
Definition addressed (ev : event) : option (Consumer * Message) :=
  match ev with
  | Acknowledge c m => Some (c, m)
  | SendAsync _ _ c m => Some (c, m)
  | _ => None
  end.

(** The messages the execution thread has taken from the queue. *)
Definition taken_messages (s : State) : list (Consumer * Message) :=
  map (fun item => (consumer item, message item)) (work_items (get_log s)).

(** Whatever was acknowledged or published had been taken from the queue. *)
Definition routes_only_taken (s : State) : Prop :=
  ∀ ev cm, ev ∈ trace s → addressed ev = Some cm → cm ∈ taken_messages s.

(** An event about no other message than [msg]. *)
Definition about (msg : InternalMessage) (ev : event) : Prop :=
  match addressed ev with
  | Some cm => cm = (consumer msg, message msg)
  | None => True
  end.

(** An event about no message. *)
Definition unaddressed (ev : event) : Prop := addressed ev = None.

(** * Properties *)

(** ** The exception lists *)

Lemma ring_push_length l r :
  (length l <= 10)%nat → (length (ring_push l r) <= 10)%nat.
Proof.
  intros Hl. unfold ring_push.
  destruct (10 <? length (l ++ [r]))%nat eqn:E.
  - rewrite length_drop, length_app. simpl. lia.
  - apply Nat.ltb_ge in E. exact E.
Qed.

Lemma ring_push_drop l r :
  (length l <= 10)%nat →
  ring_push l r = drop (length (l ++ [r]) - 10) (l ++ [r]).
Proof.
  intros Hl. unfold ring_push. rewrite length_app. simpl.
  destruct (10 <? length l + 1)%nat eqn:E.
  - apply Nat.ltb_lt in E. replace (length l + 1 - 10)%nat with 1%nat by lia.
    reflexivity.
  - apply Nat.ltb_ge in E. replace (length l + 1 - 10)%nat with 0%nat by lia.
    reflexivity.
Qed.

Lemma fold_ring_push rs : ∀ l,
  (length l <= 10)%nat →
  fold_left ring_push rs l = drop (length (l ++ rs) - 10) (l ++ rs).
Proof.
  induction rs as [|r rs IH]; intros l Hl; simpl.
  - rewrite app_nil_r. replace (length l - 10)%nat with 0%nat by lia. reflexivity.
  - rewrite IH by (apply ring_push_length; exact Hl).
    rewrite ring_push_drop by exact Hl.
    replace (l ++ r :: rs) with ((l ++ [r]) ++ rs)
      by (rewrite <- app_assoc; reflexivity).
    set (k := (l ++ [r])).
    assert (Hk : (length k <= 11)%nat)
      by (subst k; rewrite length_app; simpl; lia).
    destruct (decide (length k <= 10)%nat) as [Hle|Hgt].
    + replace (length k - 10)%nat with 0%nat by lia. reflexivity.
    + replace (length k - 10)%nat with 1%nat by lia.
      destruct k as [|x k']; [simpl in Hgt; lia|].
      simpl in Hk, Hgt.
      change (drop 1 (x :: k')) with (drop 0 k'). rewrite drop_0.
      change ((x :: k') ++ rs) with (x :: (k' ++ rs)).
      cbn [length]. rewrite length_app.
      replace (S (length k' + length rs) - 10)%nat
        with (S (length k' + length rs - 10)) by lia.
      reflexivity.
Qed.

Lemma mutate_latest_sys_exception_spec f s :
  mutate_latest_sys_exception f s =
    (Normal tt, snd (mutate_latest_sys_exception f s))
  ∧ latest_sys_exception (snd (mutate_latest_sys_exception f s)) =
      f (latest_sys_exception s)
  ∧ latest_user_exception (snd (mutate_latest_sys_exception f s)) =
      latest_user_exception s
  ∧ clock (snd (mutate_latest_sys_exception f s)) = clock s.
Proof.
  unfold mutate_latest_sys_exception, modify, latest_sys_exception,
    latest_user_exception.
  destruct (own_latest_sys_exception (stats s)) as [l|] eqn:E; simpl;
    rewrite ?E; auto.
Qed.

Lemma add_sys_exception_unfold e s :
  add_sys_exception e s =
    let s1 := snd (mutate_latest_sys_exception
                     (fun l => l ++ [(format_exc e, py_int (clock s * 1000))]) s) in
    if (10 <? length (latest_sys_exception s1))%nat
    then mutate_latest_sys_exception (drop 1) s1
    else (Normal tt, s1).
Proof.
  unfold add_sys_exception, bind, time_time, get, gets, when, pass, ret. simpl.
  destruct (10 <? _)%nat; reflexivity.
Qed.

Lemma add_sys_exception_spec e s :
  fst (add_sys_exception e s) = Normal tt
  ∧ latest_sys_exception (snd (add_sys_exception e s)) =
      ring_push (latest_sys_exception s)
                (format_exc e, py_int (clock s * 1000))
  ∧ latest_user_exception (snd (add_sys_exception e s)) =
      latest_user_exception s
  ∧ clock (snd (add_sys_exception e s)) = clock s.
Proof.
  rewrite add_sys_exception_unfold. cbv zeta.
  match goal with
  | |- context [mutate_latest_sys_exception ?g s] => set (f := g)
  end.
  destruct (mutate_latest_sys_exception_spec f s) as (_ & H1 & H2 & H3).
  rewrite H1. unfold ring_push.
  change (latest_sys_exception s ++ [(format_exc e, py_int (clock s * 1000))])
    with (f (latest_sys_exception s)).
  destruct (10 <? length (f (latest_sys_exception s)))%nat.
  - destruct (mutate_latest_sys_exception_spec (drop 1)
                (snd (mutate_latest_sys_exception f s))) as (E & G1 & G2 & G3).
    rewrite E at 1. simpl fst. rewrite G1, G2, G3, H1, H2, H3. auto.
  - simpl. auto.
Qed.

Lemma record_exception_spec src e dt s :
  let s' := snd ((elapse dt ;; record_exception src e) s) in
  latest_sys_exception s' =
    ring_push (latest_sys_exception s)
              (format_exc e, py_int ((clock s + dt) * 1000))
  ∧ latest_user_exception s' = latest_user_exception s
  ∧ clock s' = (clock s + dt)%Q.
Proof.
  assert (E : (elapse dt ;; record_exception src e) s =
              add_sys_exception e (set_clock (clock s + dt)%Q s))
    by (destruct src; reflexivity).
  cbv zeta. rewrite E.
  destruct (add_sys_exception_spec e (set_clock (clock s + dt)%Q s))
    as (_ & H1 & H2 & H3).
  rewrite H1, H2, H3. auto.
Qed.

Lemma record_all_spec appends : ∀ s,
  latest_sys_exception (record_all appends s) =
    fold_left ring_push (appended_records appends (clock s))
              (latest_sys_exception s)
  ∧ latest_user_exception (record_all appends s) = latest_user_exception s.
Proof.
  induction appends as [|[[src e] dt] rest IH]; intros s; [auto|].
  cbn [record_all appended_records fold_left].
  destruct (record_exception_spec src e dt s) as (H1 & H2 & H3). cbv zeta in *.
  destruct (IH (snd ((elapse dt;; record_exception src e) s))) as [I1 I2].
  rewrite I1, I2, H1, H2, H3. auto.
Qed.

Lemma appended_records_length appends now :
  length (appended_records appends now) = length appends.
Proof.
  revert now. induction appends as [|[[src e] dt] rest IH]; intros now; simpl;
    [reflexivity|]. rewrite IH. reflexivity.
Qed.

Lemma record_all_take_length appends : ∀ s n,
  (length (latest_sys_exception s) <= 10)%nat →
  (length (latest_sys_exception (record_all (take n appends) s)) <= 10)%nat.
Proof.
  induction appends as [|[[src e] dt] rest IH]; intros s n Hs.
  - rewrite take_nil. exact Hs.
  - destruct n as [|n]; [exact Hs|]. cbn [take record_all].
    apply IH. destruct (record_exception_spec src e dt s) as (H1 & _).
    cbv zeta in H1. rewrite H1. apply ring_push_length, Hs.
Qed.

(** C8. From a list of at most ten entries (as the lists are from the start
    and after every [reset]), more than ten recordings, by
    [add_user_exception] or [add_sys_exception] in any mix, leave in
    [latest_sys_exception] exactly the ten pairs appended last, oldest
    first; and after each single recording the list has at most ten
    entries. *)
Theorem C8_exception_ring_keeps_last_ten
    (appends : list (exception_source * PyExc * Q)) (s : State) :
  (length (latest_sys_exception s) <= 10)%nat →
  (10 < length appends)%nat →
  latest_sys_exception (record_all appends s) =
    drop (length appends - 10) (appended_records appends (clock s))
  ∧ length (latest_sys_exception (record_all appends s)) = 10%nat
  ∧ ∀ n, (length (latest_sys_exception (record_all (take n appends) s)) <= 10)%nat.
Proof.
  intros Hs Hk.
  destruct (record_all_spec appends s) as [H _].
  assert (E : latest_sys_exception (record_all appends s) =
              drop (length appends - 10) (appended_records appends (clock s))).
  { rewrite H, fold_ring_push by exact Hs.
    rewrite length_app, appended_records_length.
    replace (length (latest_sys_exception s) + length appends - 10)%nat
      with (length (latest_sys_exception s) + (length appends - 10))%nat by lia.
    rewrite drop_app_add'; reflexivity. }
  split; [exact E|]. split.
  - rewrite E, length_drop, appended_records_length. lia.
  - intros n. apply record_all_take_length, Hs.
Qed.

Lemma C8_witness :
  latest_sys_exception
    (record_all eleven_appends
       (initial_state (sample_config ATLEAST_ONCE true None) 0)) =
    drop (length eleven_appends - 10)
      (appended_records eleven_appends
         (clock (initial_state (sample_config ATLEAST_ONCE true None) 0)))
  ∧ length (latest_sys_exception
              (record_all eleven_appends
                 (initial_state (sample_config ATLEAST_ONCE true None) 0))) = 10%nat
  ∧ ∀ n, (length (latest_sys_exception
                    (record_all (take n eleven_appends)
                       (initial_state (sample_config ATLEAST_ONCE true None) 0)))
          <= 10)%nat.
Proof.
  apply (C8_exception_ring_keeps_last_ten eleven_appends
           (initial_state (sample_config ATLEAST_ONCE true None) 0)).
  - vm_compute. lia.
  - vm_compute. lia.
Defined.

(** ** Rules for [spec] *)

Section SpecRules.

Variable R : State -> State -> Prop.
Hypothesis R_refl : ∀ s, R s s.
Hypothesis R_trans : ∀ s1 s2 s3, R s1 s2 → R s2 s3 → R s1 s3.
Variable K : kind -> Prop.

Lemma spec_ret {A} (a : A) : K KNormal → spec R K (ret a).
Proof. intros HK s. split; [apply R_refl | exact HK]. Qed.

Lemma spec_gets {A} (f : State → A) : K KNormal → spec R K (gets f).
Proof. intros HK s. split; [apply R_refl | exact HK]. Qed.

Lemma spec_raise {A} e : K (KRaise e) → spec R K (@raise A e).
Proof. intros HK s. split; [apply R_refl | exact HK]. Qed.

Lemma spec_block {A} : K KBlocked → spec R K (@block A).
Proof. intros HK s. split; [apply R_refl | exact HK]. Qed.

Lemma spec_modify f : (∀ s, R s (f s)) → K KNormal → spec R K (modify f).
Proof. intros Hf HK s. split; [apply Hf | exact HK]. Qed.

Lemma spec_bind {A B} (m : M A) (k : A → M B) :
  spec R K m → (∀ a, spec R K (k a)) → spec R K (bind m k).
Proof.
  intros Hm Hk s. unfold bind. destruct (Hm s) as [HR HK].
  destruct (m s) as [[a|e|] s1]; simpl in *.
  - destruct (Hk a s1) as [HR' HK']. split; [eapply R_trans; eauto | exact HK'].
  - split; assumption.
  - split; assumption.
Qed.

Lemma spec_try {A} (K' : kind → Prop) (body : M A) (handler : PyExc → M A) :
  spec R K' body →
  (∀ e, isinstance_Exception e = true → spec R K (handler e)) →
  (∀ k, K' k → (∀ e, k = KRaise e → isinstance_Exception e = false) → K k) →
  spec R K (try_except_Exception body handler).
Proof.
  intros Hb Hh HK s. unfold try_except_Exception.
  destruct (Hb s) as [HR Hk'].
  destruct (body s) as [[a|e|] s1]; simpl in *.
  - split; [exact HR|]. apply HK; [exact Hk'|]. intros e [=].
  - destruct (isinstance_Exception e) eqn:E.
    + destruct (Hh e E s1) as [HR' HK']. split; [eapply R_trans; eauto | exact HK'].
    + split; [exact HR|]. apply HK; [exact Hk'|]. intros e' [= <-]. exact E.
  - split; [exact HR|]. apply HK; [exact Hk'|]. intros e [=].
Qed.

End SpecRules.

Lemma spec_weaken (R : State → State → Prop) (K K' : kind → Prop) {A} (m : M A) :
  (∀ k, K k → K' k) → spec R K m → spec R K' m.
Proof. intros H Hm s. destruct (Hm s). split; auto. Qed.

(** The two relations are preorders. *)

Lemma emits_refl P s : emits P s s.
Proof. exists []. rewrite app_nil_r. split; [reflexivity | constructor]. Qed.

Lemma emits_trans P s1 s2 s3 : emits P s1 s2 → emits P s2 s3 → emits P s1 s3.
Proof.
  intros (e1 & H1 & F1) (e2 & H2 & F2). exists (e1 ++ e2).
  rewrite H2, H1, app_assoc. split; [reflexivity | apply Forall_app; auto].
Qed.

Lemma emits_same_trace P s s' : trace s' = trace s → emits P s s'.
Proof. intros H. exists []. rewrite app_nil_r. split; [exact H | constructor]. Qed.

Lemma emits_one P ev s : P ev → emits P s (set_trace (trace s ++ [ev]) s).
Proof. intros H. exists [ev]. split; [reflexivity | repeat constructor; exact H]. Qed.

Lemma same_queue_refl s : same_queue s s.
Proof. repeat split. Qed.

Lemma same_queue_trans s1 s2 s3 :
  same_queue s1 s2 → same_queue s2 s3 → same_queue s1 s3.
Proof.
  intros (A1 & A2 & A3 & A4) (B1 & B2 & B3 & B4).
  repeat split; congruence.
Qed.

(** ** Automation for [spec]

    [spec_go rf tr K' side] walks a method along its binds, conditionals and
    handlers down to the primitives; [rf] and [tr] are the proofs that the
    relation at hand is a preorder, [K'] is what may happen inside a [try],
    and [side] closes what is left about single steps. *)

Ltac head_of t :=
  lazymatch t with
  | ?f _ => head_of f
  | _ => t
  end.

Ltac spec_go rf tr K' side :=
  repeat (intros;
    lazymatch goal with
    | |- spec _ _ (bind _ _) => apply (spec_bind _ tr)
    | |- spec _ _ (ret _) => apply (spec_ret _ rf)
    | |- spec _ _ pass => apply (spec_ret _ rf)
    | |- spec _ _ (gets _) => apply (spec_gets _ rf)
    | |- spec _ _ (raise _) => apply (spec_raise _ rf)
    | |- spec _ _ block => apply (spec_block _ rf)
    | |- spec _ _ (modify _) => apply spec_modify
    | |- spec _ _ (call ?o) => destruct o eqn:?; cbn [call]
    | |- spec _ _ (when ?c _) => destruct c eqn:?; cbn [when]
    | |- spec _ _ (try_except_Exception _ _) => apply (spec_try _ tr _ K')
    | |- spec _ _ (match ?x with _ => _ end) => destruct x eqn:?
    | |- @spec _ _ _ ?m => let h := head_of m in unfold h
    | |- _ => side
    end).

(** Steps that leave the trace alone, or add one event. *)
Ltac emits_side ev_side :=
  idtac;
  lazymatch goal with
  | |- emits _ _ _ =>
      repeat case_match;
      first [ apply emits_same_trace; reflexivity
            | apply emits_one; ev_side ]
  | |- any_kind _ => exact I
  | |- _ => fail
  end.

Ltac quiet_side :=
  idtac;
  emits_side ltac:(idtac; first [ reflexivity
                                | exfalso;
                                  repeat match goal with
                                  | H : _ && _ = true |- _ =>
                                      apply andb_prop in H; destruct H
                                  end; congruence ]).

Ltac quiet_go :=
  spec_go (emits_refl quiet) (emits_trans quiet) any_kind quiet_side.

Lemma loop_body_quiet cfg env :
  atleast_once cfg = false →
  spec (emits quiet) any_kind (loop_body cfg env).
Proof. intros H. quiet_go. Qed.

Lemma done_producing_quiet cfg c m result :
  atleast_once cfg = false →
  spec (emits quiet) any_kind (done_producing cfg c m result).
Proof. intros H. quiet_go. Qed.

Lemma queue_put_quiet maxsize entry :
  spec (emits quiet) any_kind (queue_put maxsize entry).
Proof. quiet_go. Qed.

Lemma elapse_quiet dt : spec (emits quiet) any_kind (elapse dt).
Proof. quiet_go. Qed.

Lemma health_check_quiet : spec (emits quiet) any_kind health_check.
Proof. quiet_go. Qed.

Lemma watchdog_quiet cfg :
  spec (emits quiet) any_kind (process_spawner_health_check_timer cfg).
Proof. quiet_go. Qed.

Lemma get_function_status_quiet cfg :
  spec (emits quiet) any_kind (get_function_status cfg).
Proof. quiet_go. Qed.

Lemma get_metrics_quiet cfg : spec (emits quiet) any_kind (get_metrics cfg).
Proof. quiet_go. Qed.

Lemma get_and_reset_metrics_quiet cfg :
  spec (emits quiet) any_kind (get_and_reset_metrics cfg).
Proof. quiet_go. Qed.

(** ** The watchdog *)

Lemma py_gt_true a b : (b < a)%Q → py_gt a b = true.
Proof.
  intros H. unfold py_gt. destruct (Qle_bool a b) eqn:E; [|reflexivity].
  apply Qle_bool_iff in E. lra.
Qed.

Lemma py_gt_false a b : (a <= b)%Q → py_gt a b = false.
Proof.
  intros H. unfold py_gt. apply Qle_bool_iff in H. rewrite H. reflexivity.
Qed.

Lemma watchdog_kills cfg s :
  (expected_healthcheck_interval cfg * 3 < clock s - last_health_check_ts s)%Q →
  process_spawner_health_check_timer cfg s =
    (Raise SystemExit, set_alive false (set_trace (trace s ++ [Kill]) s)).
Proof.
  intros H. unfold process_spawner_health_check_timer, bind, time_time, get, gets.
  rewrite (py_gt_true _ _ H). reflexivity.
Qed.

Lemma watchdog_reschedules cfg s :
  (clock s - last_health_check_ts s <= expected_healthcheck_interval cfg * 3)%Q →
  process_spawner_health_check_timer cfg s =
    (Normal tt,
     set_trace (trace s ++ [TimerStart (expected_healthcheck_interval cfg)]) s).
Proof.
  intros H. unfold process_spawner_health_check_timer, bind, time_time, get, gets.
  rewrite (py_gt_false _ _ H). reflexivity.
Qed.

Lemma dead_process_is_stuck cfg env a p :
  alive (state p) = false → step cfg env a p = None.
Proof. intros H. unfold step. rewrite H. reflexivity. Qed.

(** C5. A firing of the watchdog more than three intervals after the last
    recorded health check sends SIGKILL and nothing else (no timer is
    started, and the killed process takes no further step); a firing within
    three intervals starts the next timer and leaves the process alive. A
    health check stamps the present time, so that a firing at most three
    intervals after it reschedules, whatever the stamp was before. *)
Theorem C5_watchdog_kills_after_three_intervals
    (cfg : Config) (env : Env) (s : State) :
  ((expected_healthcheck_interval cfg * 3 < clock s - last_health_check_ts s)%Q →
     process_spawner_health_check_timer cfg s =
       (Raise SystemExit, set_alive false (set_trace (trace s ++ [Kill]) s))
     ∧ ∀ a p, state p = snd (process_spawner_health_check_timer cfg s) →
              step cfg env a p = None)
  ∧ ((clock s - last_health_check_ts s <= expected_healthcheck_interval cfg * 3)%Q →
     process_spawner_health_check_timer cfg s =
       (Normal tt,
        set_trace (trace s ++ [TimerStart (expected_healthcheck_interval cfg)]) s)
     ∧ alive (snd (process_spawner_health_check_timer cfg s)) = alive s)
  ∧ (∀ dt, (dt <= expected_healthcheck_interval cfg * 3)%Q →
       let s' := snd (elapse dt (snd (health_check s))) in
       fst (health_check s) = Normal true
       ∧ last_health_check_ts (snd (health_check s)) = clock s
       ∧ process_spawner_health_check_timer cfg s' =
           (Normal tt,
            set_trace (trace s' ++ [TimerStart (expected_healthcheck_interval cfg)]) s')
       ∧ alive (snd (process_spawner_health_check_timer cfg s')) = alive s).
Proof.
  split; [|split].
  - intros H. split; [apply watchdog_kills, H|].
    intros a p Hp. apply dead_process_is_stuck.
    rewrite Hp, (watchdog_kills _ _ H). reflexivity.
  - intros H. rewrite (watchdog_reschedules _ _ H). split; reflexivity.
  - intros dt Hdt s'.
    assert (Hs' : (clock s' - last_health_check_ts s'
                   <= expected_healthcheck_interval cfg * 3)%Q).
    { subst s'. cbn. lra. }
    split; [reflexivity|]. split; [reflexivity|].
    rewrite (watchdog_reschedules _ _ Hs'). split; reflexivity.
Qed.

Lemma C5_witness :
  let cfg := sample_config ATLEAST_ONCE true None in
  let late := set_clock 91 (initial_state cfg 0) in
  let in_time := set_clock 90 (initial_state cfg 0) in
  (process_spawner_health_check_timer cfg late =
     (Raise SystemExit, set_alive false (set_trace (trace late ++ [Kill]) late))
   ∧ ∀ a p, state p = snd (process_spawner_health_check_timer cfg late) →
            step cfg (sample_env exclaim) a p = None)
  ∧ (process_spawner_health_check_timer cfg in_time =
       (Normal tt, set_trace (trace in_time ++ [TimerStart 30]) in_time)
     ∧ alive (snd (process_spawner_health_check_timer cfg in_time)) = true)
  ∧ alive (snd (process_spawner_health_check_timer cfg
                  (snd (elapse 90 (snd (health_check late)))))) = true.
Proof.
  intros cfg late in_time.
  destruct (C5_watchdog_kills_after_three_intervals cfg (sample_env exclaim) late)
    as (Hkill & _ & Hreset).
  destruct (C5_watchdog_kills_after_three_intervals cfg (sample_env exclaim) in_time)
    as (_ & Hok & _).
  split; [apply Hkill; vm_compute; reflexivity|].
  split; [apply Hok; vm_compute; discriminate|].
  apply (Hreset 90%Q). vm_compute. discriminate.
Defined.

(** ** The latency summary and the two reports *)

Lemma read_cell_insert m k v metric labels :
  read_cell (<[k := v]> m) metric labels =
    if decide (k = (metric, labels)) then v else read_cell m metric labels.
Proof.
  unfold read_cell. rewrite lookup_insert. destruct (decide _); reflexivity.
Qed.

Lemma summary_observe_spec cfg d s :
  let s' := snd (summary_observe PROCESS_LATENCY_MS (metrics_labels cfg) d s) in
  latency_sum cfg s' = (latency_sum cfg s + d)%Q
  ∧ latency_count cfg s' = (latency_count cfg s + 1)%Q.
Proof.
  unfold latency_sum, latency_count. cbn.
  rewrite !read_cell_insert. rewrite !decide_True by reflexivity. auto.
Qed.

Lemma observe_all_spec cfg ds : ∀ s,
  (latency_sum cfg (observe_all cfg ds s) == latency_sum cfg s + Qsum ds)%Q
  ∧ (latency_count cfg (observe_all cfg ds s)
     == latency_count cfg s + inject_Z (Z.of_nat (length ds)))%Q.
Proof.
  induction ds as [|d ds IH]; intros s.
  - cbn [observe_all length]. unfold Qsum. cbn [fold_right].
    change (inject_Z (Z.of_nat 0)) with 0%Q. split; rewrite Qplus_0_r; reflexivity.
  - cbn [observe_all]. destruct (IH (snd (summary_observe PROCESS_LATENCY_MS
                                            (metrics_labels cfg) d s))) as [I1 I2].
    destruct (summary_observe_spec cfg d s) as [H1 H2]. cbv zeta in *.
    rewrite I1, I2, H1, H2. cbn [length].
    rewrite Nat2Z.inj_succ, <- Z.add_1_r, inject_Z_plus.
    change (Qsum (d :: ds)) with (d + Qsum ds)%Q.
    change (inject_Z 1) with 1%Q. split; ring.
Qed.

Lemma average_latency_idle cfg s :
  (latency_count cfg s <= 0)%Q → average_latency cfg s = (Normal 0%Q, s).
Proof.
  intros H. unfold average_latency, bind, summary_count_get, gets, py_le.
  fold (latency_count cfg s). apply Qle_bool_iff in H. rewrite H. reflexivity.
Qed.

Lemma average_latency_busy cfg s :
  (0 < latency_count cfg s)%Q →
  average_latency cfg s =
    (Normal (latency_sum cfg s / latency_count cfg s)%Q, s).
Proof.
  intros H.
  unfold average_latency, bind, summary_count_get, summary_sum_get, gets, py_le,
    py_truediv.
  fold (latency_count cfg s). fold (latency_sum cfg s).
  destruct (Qle_bool (latency_count cfg s) 0) eqn:E.
  { apply Qle_bool_iff in E. lra. }
  destruct (Qeq_bool (latency_count cfg s) 0) eqn:E2.
  { apply Qeq_bool_iff in E2. lra. }
  unfold latency_count in E2. rewrite E2. reflexivity.
Qed.

(** The average never divides by zero, and leaves the state alone. *)
Lemma average_latency_total cfg s :
  ∃ avg, average_latency cfg s = (Normal avg, s).
Proof.
  destruct (Qlt_le_dec 0 (latency_count cfg s)) as [H|H].
  - eexists. apply average_latency_busy, H.
  - eexists. apply average_latency_idle, H.
Qed.

Lemma add_system_metrics_lookup metric value metrics :
  add_system_metrics metric value metrics !! metric = Some (system_digest value).
Proof.
  unfold add_system_metrics, entry. rewrite !lookup_insert_eq. reflexivity.
Qed.

Lemma add_system_metrics_lookup_ne metric metric' value metrics :
  metric ≠ metric' →
  add_system_metrics metric value metrics !! metric' = metrics !! metric'.
Proof.
  intros H. unfold add_system_metrics. rewrite !lookup_insert_ne by exact H.
  reflexivity.
Qed.

(** [get_metrics] in one piece: the user metrics, then the five system
    entries. *)
Lemma get_metrics_eq cfg s avg :
  average_latency cfg s = (Normal avg, s) →
  get_metrics cfg s =
    (Normal
       (add_system_metrics "__avg_latency_ms__" avg
          (add_system_metrics "__total_user_exceptions__"
             (read_cell (counter_values (stats_class s)) TOTAL_USER_EXCEPTIONS
                (metrics_labels cfg))
             (add_system_metrics "__total_system_exceptions__"
                (read_cell (counter_values (stats_class s)) TOTAL_SYSTEM_EXCEPTIONS
                   (metrics_labels cfg))
                (add_system_metrics "__total_successfully_processed__"
                   (read_cell (counter_values (stats_class s))
                      TOTAL_SUCCESSFULLY_PROCESSED (metrics_labels cfg))
                   (add_system_metrics "__total_processed__"
                      (read_cell (counter_values (stats_class s)) TOTAL_PROCESSED
                         (metrics_labels cfg))
                      (user_metrics (contextimpl s))))))), s).
Proof.
  intros H. unfold get_metrics, bind, contextimpl_get_metrics, counter_get, gets, ret.
  rewrite H. reflexivity.
Qed.

(** [get_function_status] in one piece, under Python 2. *)
Lemma get_function_status_eq cfg s avg :
  PY3 cfg = false →
  average_latency cfg s = (Normal avg, s) →
  get_function_status cfg s =
    (Normal
       {| running := true;
          numProcessed :=
            py_int (read_cell (counter_values (stats_class s)) TOTAL_PROCESSED
                      (metrics_labels cfg));
          numSuccessfullyProcessed :=
            py_int (read_cell (counter_values (stats_class s))
                      TOTAL_SUCCESSFULLY_PROCESSED (metrics_labels cfg));
          numUserExceptions :=
            py_int (read_cell (counter_values (stats_class s))
                      TOTAL_USER_EXCEPTIONS (metrics_labels cfg));
          instanceId := instance_id (instance_config cfg);
          latestUserExceptions :=
            map exception_information (latest_user_exception s);
          numSystemExceptions :=
            py_int (read_cell (counter_values (stats_class s))
                      TOTAL_SYSTEM_EXCEPTIONS (metrics_labels cfg));
          latestSystemExceptions :=
            map exception_information (latest_sys_exception s);
          averageLatency := avg;
          lastInvocationTime := py_int (last_invocation_time s) |}, s).
Proof.
  intros H2 H. unfold get_function_status, long, bind, counter_get, get, gets, ret.
  rewrite H2, H. reflexivity.
Qed.

(** Under Python 3 the first statement that calls [long] raises, before
    anything was read. *)
Lemma get_function_status_py3 cfg s :
  PY3 cfg = true →
  get_function_status cfg s = (Raise NameError_long, s).
Proof.
  intros H. unfold get_function_status, long, bind, raise. rewrite H. reflexivity.
Qed.

(** C9. From a zeroed summary, after the durations [ds] were observed the
    average that [get_metrics] reports is 0.0 when [ds] is empty, and the
    sum of [ds] over their number otherwise; the division is never reached
    with a zero count, and the call returns. Under Python 2
    [get_function_status] returns too, and its report carries the same
    average. Under Python 3 [get_function_status] reports nothing: its
    first call of [long] raises [NameError]. *)
Theorem C9_average_latency (cfg : Config) (ds : list Q) (s : State) :
  (latency_sum cfg s == 0)%Q →
  (latency_count cfg s == 0)%Q →
  ∃ avg metrics,
    get_metrics cfg (observe_all cfg ds s) = (Normal metrics, observe_all cfg ds s)
    ∧ metrics !! "__avg_latency_ms__" = Some (system_digest avg)
    ∧ (ds = [] → avg = 0%Q)
    ∧ (ds ≠ [] → (avg == Qsum ds / inject_Z (Z.of_nat (length ds)))%Q)
    ∧ (PY3 cfg = false →
       ∃ st, get_function_status cfg (observe_all cfg ds s) =
               (Normal st, observe_all cfg ds s)
             ∧ averageLatency st = avg)
    ∧ (PY3 cfg = true →
       get_function_status cfg (observe_all cfg ds s) =
         (Raise NameError_long, observe_all cfg ds s)).
Proof.
  intros Hsum Hcount.
  destruct (observe_all_spec cfg ds s) as [Hs Hc].
  rewrite Hsum in Hs. rewrite Hcount in Hc.
  destruct ds as [|d ds].
  - assert (Hidle : (latency_count cfg (observe_all cfg [] s) <= 0)%Q).
    { cbn [observe_all]. rewrite Hcount. apply Qle_refl. }
    pose proof (average_latency_idle _ _ Hidle) as Havg.
    eexists _, _.
    split; [apply get_metrics_eq, Havg|].
    split; [apply add_system_metrics_lookup|].
    split; [reflexivity|]. split; [congruence|].
    split; [|apply get_function_status_py3].
    intros H2. eexists. split; [apply (get_function_status_eq _ _ _ H2 Havg)|].
    reflexivity.
  - assert (Hn : (0 < inject_Z (Z.of_nat (length (d :: ds))))%Q).
    { change 0%Q with (inject_Z 0). rewrite <- Zlt_Qlt. cbn [length]. lia. }
    assert (Hbusy : (0 < latency_count cfg (observe_all cfg (d :: ds) s))%Q).
    { rewrite Hc. lra. }
    pose proof (average_latency_busy _ _ Hbusy) as Havg.
    eexists _, _.
    split; [apply get_metrics_eq, Havg|].
    split; [apply add_system_metrics_lookup|].
    split; [discriminate|].
    split.
    { intros _.
      transitivity ((0 + Qsum (d :: ds)) /
                    (0 + inject_Z (Z.of_nat (length (d :: ds)))))%Q.
      + apply Qdiv_comp; assumption.
      + field. lra. }
    split; [|apply get_function_status_py3].
    intros H2. eexists. split; [apply (get_function_status_eq _ _ _ H2 Havg)|].
    reflexivity.
Qed.

Lemma C9_witness :
  let cfg := under_python2 (sample_config ATLEAST_ONCE true None) in
  ∃ avg metrics,
    get_metrics cfg (observe_all cfg [10; 20; 36]%Q (initial_state cfg 0)) =
      (Normal metrics, observe_all cfg [10; 20; 36]%Q (initial_state cfg 0))
    ∧ metrics !! "__avg_latency_ms__" = Some (system_digest avg)
    ∧ ([10; 20; 36]%Q = [] → avg = 0%Q)
    ∧ ([10; 20; 36]%Q ≠ [] →
       (avg == Qsum [10; 20; 36] / inject_Z (Z.of_nat (length [10; 20; 36]%Q)))%Q)
    ∧ (PY3 cfg = false →
       ∃ st, get_function_status cfg
               (observe_all cfg [10; 20; 36]%Q (initial_state cfg 0)) =
               (Normal st, observe_all cfg [10; 20; 36]%Q (initial_state cfg 0))
             ∧ averageLatency st = avg)
    ∧ (PY3 cfg = true →
       get_function_status cfg
         (observe_all cfg [10; 20; 36]%Q (initial_state cfg 0)) =
         (Raise NameError_long,
          observe_all cfg [10; 20; 36]%Q (initial_state cfg 0))).
Proof.
  intros cfg.
  apply (C9_average_latency cfg [10; 20; 36]%Q (initial_state cfg 0)).
  - vm_compute. reflexivity.
  - vm_compute. reflexivity.
Defined.

(** ** Reset *)

Lemma reset_metrics_eq cfg s :
  reset_metrics cfg s = (Normal tt, snd (reset_metrics cfg s)).
Proof. reflexivity. Qed.

Ltac cells :=
  rewrite ?read_cell_insert;
  repeat match goal with
  | |- context [decide (?a = ?b)] =>
      destruct (decide (a = b)) as [?|?]; try congruence
  end.

Lemma reset_metrics_own cfg s :
  let s' := snd (reset_metrics cfg s) in
  read_cell (counter_values (stats_class s')) TOTAL_PROCESSED (metrics_labels cfg) = 0%Q
  ∧ read_cell (counter_values (stats_class s')) TOTAL_SUCCESSFULLY_PROCESSED
      (metrics_labels cfg) = 0%Q
  ∧ read_cell (counter_values (stats_class s')) TOTAL_USER_EXCEPTIONS
      (metrics_labels cfg) = 0%Q
  ∧ read_cell (counter_values (stats_class s')) TOTAL_SYSTEM_EXCEPTIONS
      (metrics_labels cfg) = 0%Q
  ∧ latency_sum cfg s' = 0%Q
  ∧ latency_count cfg s' = 0%Q
  ∧ latest_user_exception s' = []
  ∧ latest_sys_exception s' = []
  ∧ last_invocation_time s' = 0%Q
  ∧ user_metrics (contextimpl s') = ∅.
Proof.
  unfold latency_sum, latency_count. cbn.
  repeat split; try reflexivity; cells.
Qed.

Lemma reset_metrics_frame cfg s metric labels :
  labels ≠ metrics_labels cfg →
  let s' := snd (reset_metrics cfg s) in
  read_cell (counter_values (stats_class s')) metric labels =
    read_cell (counter_values (stats_class s)) metric labels
  ∧ read_cell (summary_sum (stats_class s')) metric labels =
      read_cell (summary_sum (stats_class s)) metric labels
  ∧ read_cell (summary_count (stats_class s')) metric labels =
      read_cell (summary_count (stats_class s)) metric labels.
Proof.
  intros H. cbn. repeat split; cells.
Qed.

(** C7. [get_and_reset_metrics] returns what [get_metrics] reads before the
    reset: the user metrics with the five system entries filled from the
    counters as they were. After it the four counters, the latency summary
    and the last invocation time of this instance are zero and both
    exception lists are empty, and every counter and summary child under
    another label tuple reads as before. Under Python 2 the status report
    that follows shows just that. Under Python 3 no status report follows:
    [get_function_status] raises [NameError] at its first call of [long]. *)
Theorem C7_get_and_reset_metrics (cfg : Config) (s : State) :
  ∃ metrics s',
    get_and_reset_metrics cfg s = (Normal metrics, s')
    ∧ get_metrics cfg s = (Normal metrics, s)
    ∧ metrics !! "__total_processed__" =
        Some (system_digest (read_cell (counter_values (stats_class s))
                               TOTAL_PROCESSED (metrics_labels cfg)))
    ∧ metrics !! "__total_successfully_processed__" =
        Some (system_digest (read_cell (counter_values (stats_class s))
                               TOTAL_SUCCESSFULLY_PROCESSED (metrics_labels cfg)))
    ∧ metrics !! "__total_system_exceptions__" =
        Some (system_digest (read_cell (counter_values (stats_class s))
                               TOTAL_SYSTEM_EXCEPTIONS (metrics_labels cfg)))
    ∧ metrics !! "__total_user_exceptions__" =
        Some (system_digest (read_cell (counter_values (stats_class s))
                               TOTAL_USER_EXCEPTIONS (metrics_labels cfg)))
    ∧ counter cfg TOTAL_PROCESSED s' = 0%Q
    ∧ counter cfg TOTAL_SUCCESSFULLY_PROCESSED s' = 0%Q
    ∧ counter cfg TOTAL_USER_EXCEPTIONS s' = 0%Q
    ∧ counter cfg TOTAL_SYSTEM_EXCEPTIONS s' = 0%Q
    ∧ latency_sum cfg s' = 0%Q ∧ latency_count cfg s' = 0%Q
    ∧ latest_user_exception s' = [] ∧ latest_sys_exception s' = []
    ∧ last_invocation_time s' = 0%Q
    ∧ (PY3 cfg = false →
       ∃ st, get_function_status cfg s' = (Normal st, s')
             ∧ numProcessed st = 0 ∧ numSuccessfullyProcessed st = 0
             ∧ numUserExceptions st = 0 ∧ numSystemExceptions st = 0
             ∧ latestUserExceptions st = [] ∧ latestSystemExceptions st = []
             ∧ averageLatency st = 0%Q ∧ lastInvocationTime st = 0)
    ∧ (PY3 cfg = true →
       get_function_status cfg s' = (Raise NameError_long, s'))
    ∧ ∀ metric labels, labels ≠ metrics_labels cfg →
        read_cell (counter_values (stats_class s')) metric labels =
          read_cell (counter_values (stats_class s)) metric labels
        ∧ read_cell (summary_sum (stats_class s')) metric labels =
            read_cell (summary_sum (stats_class s)) metric labels
        ∧ read_cell (summary_count (stats_class s')) metric labels =
            read_cell (summary_count (stats_class s)) metric labels.
Proof.
  destruct (average_latency_total cfg s) as [avg Havg].
  pose proof (get_metrics_eq cfg s avg Havg) as Hget.
  destruct (reset_metrics_own cfg s)
    as (R1 & R2 & R3 & R4 & R5 & R6 & R7 & R8 & R9 & _).
  cbv zeta in *.
  set (s' := snd (reset_metrics cfg s)) in *.
  assert (Hidle : average_latency cfg s' = (Normal 0%Q, s')).
  { apply average_latency_idle. rewrite R6. apply Qle_refl. }
  eexists _, s'.
  split.
  { unfold get_and_reset_metrics, bind. rewrite Hget, reset_metrics_eq.
    reflexivity. }
  split; [exact Hget|].
  split.
  { rewrite !add_system_metrics_lookup_ne by discriminate.
    apply add_system_metrics_lookup. }
  split.
  { rewrite !add_system_metrics_lookup_ne by discriminate.
    apply add_system_metrics_lookup. }
  split.
  { rewrite !add_system_metrics_lookup_ne by discriminate.
    apply add_system_metrics_lookup. }
  split.
  { rewrite !add_system_metrics_lookup_ne by discriminate.
    apply add_system_metrics_lookup. }
  unfold counter.
  do 9 (split; [assumption|]).
  split.
  { intros H2. eexists. split; [apply (get_function_status_eq _ _ _ H2 Hidle)|].
    cbn [numProcessed numSuccessfullyProcessed numUserExceptions
         numSystemExceptions latestUserExceptions latestSystemExceptions
         averageLatency lastInvocationTime].
    rewrite R1, R2, R3, R4, R7, R8, R9. repeat split; reflexivity. }
  split; [apply get_function_status_py3|].
  intros metric labels Hne. apply (reset_metrics_frame cfg s metric labels Hne).
Qed.

(** C7 at a sample instance under Python 2, after one observed latency. *)
Lemma C7_witness :
  let cfg := under_python2 (sample_config ATLEAST_ONCE true None) in
  let s := observe_all cfg [10%Q] (initial_state cfg 0) in
  ∃ st, get_function_status cfg (snd (get_and_reset_metrics cfg s)) =
          (Normal st, snd (get_and_reset_metrics cfg s))
        ∧ numProcessed st = 0 ∧ numSuccessfullyProcessed st = 0
        ∧ numUserExceptions st = 0 ∧ numSystemExceptions st = 0
        ∧ latestUserExceptions st = [] ∧ latestSystemExceptions st = []
        ∧ averageLatency st = 0%Q ∧ lastInvocationTime st = 0.
Proof.
  intros cfg s.
  destruct (C7_get_and_reset_metrics cfg s) as (metrics & s' & H).
  destruct H as (E & _ & _ & _ & _ & _ & _ & _ & _ & _ & _ & _ & _ & _ & _ & H & _).
  rewrite E. exact (H eq_refl).
Defined.

(** ** The provenance properties *)

Lemma base64ify_bytes py3 b :
  base64ify py3 (PyBytes b) = string_of_list_byte (Base64.urlsafe_b64encode b).
Proof. destruct py3; reflexivity. Qed.

Lemma provenance_props py3 payload msg :
  carries_provenance msg
    (SendAsync payload
       (<["__pfn_input_msg_id__" :=
            base64ify py3 (PyBytes (message_id (message msg)))]>
          (<["__pfn_input_topic__" := topic msg]> ∅))
       (consumer msg) (message msg)).
Proof.
  unfold carries_provenance. rewrite base64ify_bytes.
  split; [rewrite lookup_insert_ne by discriminate; apply lookup_insert_eq|].
  split; [apply lookup_insert_eq|].
  split; [rewrite !dom_insert_L, dom_empty_L; set_solver|].
  split; [|split; reflexivity].
  rewrite map_size_insert_None
    by (rewrite lookup_insert_ne by discriminate; apply lookup_empty).
  rewrite map_size_insert_None by apply lookup_empty.
  rewrite map_size_empty. reflexivity.
Qed.

Section Provenance.

Variable cfg : Config.
Variable env : Env.
Variable msg : InternalMessage.

Ltac provenance_side :=
  idtac;
  emits_side ltac:(idtac; first [ apply provenance_props | exact I ]).

Ltac provenance_go :=
  spec_go (emits_refl (carries_provenance msg))
          (emits_trans (carries_provenance msg)) any_kind provenance_side.

Lemma process_result_provenance output :
  spec (emits (carries_provenance msg)) any_kind
       (process_result cfg env output msg).
Proof. provenance_go. Qed.

End Provenance.

(** ** One turn of the loop *)

Lemma loop_body_eq cfg env :
  loop_body cfg env =
    try_except_Exception (bind queue_get (loop_continuation cfg env))
                         (loop_handler cfg env).
Proof. reflexivity. Qed.

Lemma loop_body_empty cfg env s :
  queue s = [] → loop_body cfg env s = (Blocked, s).
Proof.
  intros H. rewrite loop_body_eq.
  cbv beta iota zeta delta [try_except_Exception bind queue_get get gets].
  rewrite H. reflexivity.
Qed.

Lemma loop_body_dequeues cfg env s entry rest :
  queue s = entry :: rest →
  loop_body cfg env s =
    try_except_Exception (loop_continuation cfg env entry) (loop_handler cfg env)
      (dequeued s).
Proof.
  intros H. rewrite loop_body_eq.
  cbv beta iota zeta delta [try_except_Exception bind queue_get get gets dequeued].
  rewrite H. reflexivity.
Qed.

Lemma loop_body_quit cfg env s rest :
  queue s = Quit :: rest → loop_body cfg env s = (Normal Break, dequeued s).
Proof. intros H. rewrite (loop_body_dequeues _ _ _ _ _ H). reflexivity. Qed.

Lemma dequeued_spec s entry rest :
  queue s = entry :: rest →
  queue (dequeued s) = rest
  ∧ get_log (dequeued s) = get_log s ++ [entry]
  ∧ put_log (dequeued s) = put_log s
  ∧ trace (dequeued s) = trace s
  ∧ alive (dequeued s) = alive s.
Proof. intros H. unfold dequeued. rewrite H. repeat split. Qed.

Section ProvenanceOfTurn.

Variable cfg : Config.
Variable env : Env.
Variable msg : InternalMessage.

Ltac provenance_side :=
  idtac;
  emits_side ltac:(idtac; first [ apply provenance_props | exact I ]).

Lemma turn_provenance :
  spec (emits (carries_provenance msg)) any_kind
       (try_except_Exception (loop_continuation cfg env (Work msg))
                             (loop_handler cfg env)).
Proof.
  spec_go (emits_refl (carries_provenance msg))
          (emits_trans (carries_provenance msg)) any_kind provenance_side.
Qed.

End ProvenanceOfTurn.

(** C10. Whatever [process_result] hands to the producer carries exactly the
    two properties [__pfn_input_topic__], the topic of the work item, and
    [__pfn_input_msg_id__], the URL-safe base64 text of the serialized
    message id, and its callback is bound to the consumer and the message
    of the item. The same holds of everything a turn of the loop publishes
    for the item it dequeued; and the listener sets the topic of an item to
    that of the consumer that delivered it. *)
Theorem C10_provenance_properties (cfg : Config) (env : Env) :
  (∀ output msg s,
     emits (carries_provenance msg) s (snd (process_result cfg env output msg s)))
  ∧ (∀ s msg rest,
       queue s = Work msg :: rest →
       emits (carries_provenance msg) s (snd (loop_body cfg env s)))
  ∧ (∀ sd c m s,
       fst (message_listener cfg sd c m s) = Normal tt →
       queue (snd (message_listener cfg sd c m s)) =
         queue s ++ [Work {| message := m; topic := consumer_topic c;
                             serde := sd; consumer := c |}]).
Proof.
  split; [|split].
  - intros output msg s. apply (process_result_provenance cfg env msg output s).
  - intros s msg rest Hq. rewrite (loop_body_dequeues _ _ _ _ _ Hq).
    destruct (turn_provenance cfg env msg (dequeued s)) as [(evs & H & F) _].
    exists evs. split; [|exact F].
    rewrite H. destruct (dequeued_spec _ _ _ Hq) as (_ & _ & _ & -> & _).
    reflexivity.
  - intros sd c m s.
    cbv beta iota zeta delta [message_listener bind queue_put get gets].
    destruct (queue_full _ _); [discriminate|]. cbn.
    destruct (atmost_once cfg && auto_ack cfg); reflexivity.
Qed.

(** ** Acknowledgement after publishing *)

Lemma acknowledgements_app tr1 tr2 :
  acknowledgements (tr1 ++ tr2) = acknowledgements tr1 ++ acknowledgements tr2.
Proof. unfold acknowledgements. apply omap_app. Qed.

Lemma acknowledgements_quiet evs :
  Forall quiet evs → acknowledgements evs = [].
Proof.
  induction 1 as [|ev evs Hev _ IH]; [reflexivity|].
  destruct ev; try discriminate; exact IH.
Qed.

Lemma emits_quiet_acknowledgements s s' :
  emits quiet s s' →
  acknowledgements (trace s') = acknowledgements (trace s).
Proof.
  intros (evs & H & F). rewrite H, acknowledgements_app,
    (acknowledgements_quiet _ F), app_nil_r. reflexivity.
Qed.

Section Publishing.

Variable cfg : Config.
Variable env : Env.
Variable msg : InternalMessage.
Hypothesis Hsink : sink_configured cfg = true.

Lemma process_result_publishes out :
  spec (emits (publishes_for msg)) any_kind
       (process_result cfg env (Some out) msg).
Proof.
  spec_go (emits_refl (publishes_for msg)) (emits_trans (publishes_for msg))
          any_kind
          ltac:(idtac;
                emits_side
                  ltac:(idtac;
                        first [ congruence
                              | split; [reflexivity
                                       | first [apply provenance_props | exact I]] ])).
Qed.

End Publishing.

Lemma done_producing_eq cfg c m result s :
  atleast_once cfg = true → auto_ack cfg = true →
  done_producing cfg c m result s =
    (Normal tt,
     if decide (result = ResultOk)
     then set_trace (trace s ++ [Acknowledge c m]) s else s).
Proof.
  intros H1 H2. unfold done_producing. rewrite H1, H2, !andb_true_r.
  destruct (decide (result = ResultOk)) as [E|E].
  - rewrite (bool_decide_eq_true_2 _ E). reflexivity.
  - rewrite (bool_decide_eq_false_2 _ E). reflexivity.
Qed.

(** C2. At-least-once with auto-ack and a sink: routing a non-null output
    never acknowledges, and what it hands to the producer has its callback
    bound to the consumer and the message of the item; the callback
    acknowledges that message exactly when the publish result is [Ok]; so
    the completion of a publish adds the acknowledgement of the originating
    message if the result is [Ok] and nothing otherwise. *)
Theorem C2_acknowledge_iff_publish_succeeded (cfg : Config) (env : Env) :
  atleast_once cfg = true →
  auto_ack cfg = true →
  sink_configured cfg = true →
  (∀ out msg s,
     emits (publishes_for msg) s (snd (process_result cfg env (Some out) msg s)))
  ∧ (∀ c m result s,
       fst (done_producing cfg c m result s) = Normal tt
       ∧ trace (snd (done_producing cfg c m result s)) =
           trace s ++ (if decide (result = ResultOk) then [Acknowledge c m] else []))
  ∧ (∀ p p' i result payload props c m,
       trace (state p) !! i = Some (SendAsync payload props c m) →
       step cfg env (PublishCompleted i result) p = Some p' →
       acknowledgements (trace (state p')) =
         acknowledgements (trace (state p)) ++ acknowledged_on result c m).
Proof.
  intros Hmode Hauto Hsink. split; [|split].
  - intros out msg s. apply (process_result_publishes cfg env msg Hsink out s).
  - intros c m result s. rewrite (done_producing_eq _ _ _ _ _ Hmode Hauto).
    destruct (decide (result = ResultOk)); cbn; rewrite ?app_nil_r; auto.
  - intros p p' i result payload props c m Hi Hstep.
    unfold step in Hstep.
    destruct (negb (alive (state p))); [discriminate|].
    destruct (bool_decide (i ∈ completed p)); [discriminate|].
    rewrite Hi, (done_producing_eq _ _ _ _ _ Hmode Hauto) in Hstep.
    injection Hstep as <-. unfold acknowledged_on. cbn [state].
    destruct (decide (result = ResultOk)); cbn [trace set_trace].
    + rewrite acknowledgements_app. reflexivity.
    + rewrite app_nil_r. reflexivity.
Qed.

Lemma C2_witness :
  let cfg := sample_config ATLEAST_ONCE true (Some "persistent://public/default/out") in
  let env := sample_env exclaim in
  (∀ out msg s,
     emits (publishes_for msg) s (snd (process_result cfg env (Some out) msg s)))
  ∧ (∀ c m result s,
       fst (done_producing cfg c m result s) = Normal tt
       ∧ trace (snd (done_producing cfg c m result s)) =
           trace s ++ (if decide (result = ResultOk) then [Acknowledge c m] else []))
  ∧ (∀ p p' i result payload props c m,
       trace (state p) !! i = Some (SendAsync payload props c m) →
       step cfg env (PublishCompleted i result) p = Some p' →
       acknowledgements (trace (state p')) =
         acknowledgements (trace (state p)) ++ acknowledged_on result c m).
Proof.
  intros cfg env.
  apply (C2_acknowledge_iff_publish_succeeded cfg env); reflexivity.
Defined.

(** ** An output that serializes to [None] *)

Section Unserializable.

Variable cfg : Config.
Variable env : Env.
Variable msg : InternalMessage.
Variable out : PyObject.
Hypothesis Hsink : sink_configured cfg = true.
Hypothesis Hser : ∀ sd, serialize env sd out = Returns None.

Ltac silent_go :=
  spec_go (emits_refl silent) (emits_trans silent) any_kind
          ltac:(idtac;
                emits_side ltac:(idtac; first [ congruence
                                              | split; reflexivity ])).

Lemma process_result_unserializable :
  spec (emits silent) any_kind (process_result cfg env (Some out) msg).
Proof.
  unfold process_result. rewrite Hsink.
  apply (spec_bind _ (emits_trans silent)); [silent_go | intros s0].
  apply (spec_bind _ (emits_trans silent)); [silent_go | intros _].
  apply (spec_bind _ (emits_trans silent)); [silent_go | intros s1].
  apply (spec_bind _ (emits_trans silent)); [silent_go | intros _].
  apply (spec_bind _ (emits_trans silent)); [silent_go | intros s2].
  destruct (output_serde s2) as [sd|].
  - rewrite Hser. intros s. cbn. split; [apply emits_refl | exact I].
  - intros s. cbn. split; [apply emits_refl | exact I].
Qed.

End Unserializable.

(** C6. With a sink configured, a non-null output that the output serde
    serializes to [None] makes [process_result] call neither [send_async]
    nor [acknowledge], whatever the processing guarantee and the auto-ack
    flag are; with a loadable serde and a producer that can be created the
    call returns normally. *)
Theorem C6_none_from_serializer_neither_publishes_nor_acknowledges
    (cfg : Config) (env : Env) (out : PyObject) (msg : InternalMessage) (s : State) :
  sink_configured cfg = true →
  (∀ sd, serialize env sd out = Returns None) →
  emits silent s (snd (process_result cfg env (Some out) msg s))
  ∧ acknowledgements (trace (snd (process_result cfg env (Some out) msg s))) =
      acknowledgements (trace s)
  ∧ filter (fun ev => is_send_async ev = true)
      (trace (snd (process_result cfg env (Some out) msg s))) =
      filter (fun ev => is_send_async ev = true) (trace s).
Proof.
  intros Hsink Hser.
  destruct (process_result_unserializable cfg env msg out Hsink Hser s)
    as [(evs & H & F) _].
  split; [exists evs; auto|]. rewrite H. split.
  - assert (Q : acknowledgements evs = []).
    { apply acknowledgements_quiet. eapply Forall_impl; [exact F|].
      intros ev [_ Hev]. exact Hev. }
    rewrite acknowledgements_app, Q, app_nil_r. reflexivity.
  - rewrite filter_app.
    replace (filter (fun ev => is_send_async ev = true) evs) with (@nil event);
      [rewrite app_nil_r; reflexivity|].
    symmetry. clear H. induction F as [|ev evs [Hev _] _ IH]; [reflexivity|].
    rewrite filter_cons_False by (rewrite Hev; discriminate). exact IH.
Qed.

Lemma C6_witness :
  let cfg := sample_config ATLEAST_ONCE true sink_topic_sample in
  let env := null_serde_env exclaim in
  let s := initial_state cfg 0 in
  emits silent s
    (snd (process_result cfg env (Some "hello!"%string) (sample_item x01) s))
  ∧ acknowledgements
      (trace (snd (process_result cfg env (Some "hello!"%string) (sample_item x01) s))) =
      acknowledgements (trace s)
  ∧ filter (fun ev => is_send_async ev = true)
      (trace (snd (process_result cfg env (Some "hello!"%string) (sample_item x01) s))) =
      filter (fun ev => is_send_async ev = true) (trace s).
Proof.
  intros cfg env s.
  apply (C6_none_from_serializer_neither_publishes_nor_acknowledges
           cfg env "hello!"%string (sample_item x01) s).
  - reflexivity.
  - intros sd. reflexivity.
Defined.

(** ** User exceptions in the status report *)

(** C3, at a failing input, under Python 2 (where [get_function_status]
    returns a report). One message is delivered and the user function
    raises [ValueError] on it: the status report then counts one user
    exception, but its list of latest user exceptions is empty, and the
    record sits in the list of latest system exceptions, although no system
    exception was counted. [add_user_exception] appends to
    [latest_sys_exception]. *)
Theorem C3_user_exception_lands_in_system_list :
  option_map
    (fun st => (numUserExceptions st, numSystemExceptions st,
                latestUserExceptions st, latestSystemExceptions st))
    status_after_user_exception =
  Some (1, 0, [],
        [{| exceptionString := "ValueError: bad input"; msSinceEpoch := 100010 |}]).
Proof. vm_compute. reflexivity. Qed.

(** In general: recording a user exception leaves the list that the status
    report reads for user exceptions as it was. *)
Lemma add_user_exception_misses_user_list e s :
  latest_user_exception (snd (add_user_exception e s)) = latest_user_exception s
  ∧ latest_sys_exception (snd (add_user_exception e s)) =
      ring_push (latest_sys_exception s) (format_exc e, py_int (clock s * 1000)).
Proof.
  change (add_user_exception e) with (add_sys_exception e).
  destruct (add_sys_exception_spec e s) as (_ & H1 & H2 & _). auto.
Qed.

(** ** At-most-once: acknowledgement at ingress *)


Lemma message_listener_eq cfg sd c m s :
  message_listener cfg sd c m s =
    if queue_full (max_buffered_tuples (instance_config cfg)) (queue s)
    then (Blocked, s)
    else
      let s1 := set_put_log (put_log s ++ [Work (item_of sd c m)])
                  (set_queue (queue s ++ [Work (item_of sd c m)]) s) in
      (Normal tt,
       if atmost_once cfg && auto_ack cfg
       then set_trace (trace s1 ++ [Acknowledge c m]) s1 else s1).
Proof.
  cbv beta iota zeta delta [message_listener bind queue_put get gets].
  destruct (queue_full _ _); [reflexivity|]. cbn.
  destruct (atmost_once cfg && auto_ack cfg); reflexivity.
Qed.


Section Ingress.

Variable cfg : Config.
Variable env : Env.
Hypothesis Hmode : atmost_once cfg = true.
Hypothesis Hauto : auto_ack cfg = true.



End Ingress.

Lemma initial_process_no_acknowledgements cfg now :
  acknowledgements (trace (state (initial_process cfg now))) = [].
Proof. cbn. destruct (py_gt _ _); reflexivity. Qed.




(** ** One turn of the loop, case by case *)

Lemma loop_continuation_Work cfg env msg :
  loop_continuation cfg env (Work msg) = handle cfg env msg.
Proof. reflexivity. Qed.

Lemma bind_Normal {A B} (m : M A) (k : A → M B) s a s1 :
  m s = (Normal a, s1) → bind m k s = k a s1.
Proof. intros H. unfold bind. rewrite H. reflexivity. Qed.

Lemma bind_Raise {A B} (m : M A) (k : A → M B) s e s1 :
  m s = (Raise e, s1) → bind m k s = (Raise e, s1).
Proof. intros H. unfold bind. rewrite H. reflexivity. Qed.

Lemma try_Normal {A} (body : M A) handler s a s1 :
  body s = (Normal a, s1) → try_except_Exception body handler s = (Normal a, s1).
Proof. intros H. unfold try_except_Exception. rewrite H. reflexivity. Qed.

Lemma try_caught {A} (body : M A) handler s e s1 :
  body s = (Raise e, s1) → isinstance_Exception e = true →
  try_except_Exception body handler s = handler e s1.
Proof. intros H E. unfold try_except_Exception. rewrite H, E. reflexivity. Qed.

Lemma try_escapes {A} (body : M A) handler s e s1 :
  body s = (Raise e, s1) → isinstance_Exception e = false →
  try_except_Exception body handler s = (Raise e, s1).
Proof. intros H E. unfold try_except_Exception. rewrite H, E. reflexivity. Qed.

Lemma call_user_function_eq cfg env input s :
  call_user_function cfg env input s =
    (match fst (user_call cfg env input s) with
     | Returns out => Normal out
     | Raises e => Raise e
     end,
     set_clock (clock s + snd (user_call cfg env input s))%Q
       (set_invocations (S (invocations s)) s)).
Proof.
  unfold call_user_function, user_call, bind, get, gets, modify, elapse, call.
  destruct (user_function cfg).
  - destruct (process_with_context _ _ _ _) as [[out|e] dt]; reflexivity.
  - destruct (process_pure _ _ _) as [[out|e] dt]; reflexivity.
Qed.

Lemma counter_inc_eq metric labels s :
  counter_inc metric labels s =
    (Normal tt,
     set_stats_class
       (set_counter_values
          (<[(metric, labels) :=
               (read_cell (counter_values (stats_class s)) metric labels + 1)%Q]>
             (counter_values (stats_class s)))
          (stats_class s)) s).
Proof. reflexivity. Qed.

Lemma summary_observe_eq metric labels amount s :
  summary_observe metric labels amount s =
    (Normal tt, snd (summary_observe metric labels amount s)).
Proof. reflexivity. Qed.

Lemma add_user_exception_eq e s :
  add_user_exception e s = (Normal tt, snd (add_user_exception e s)).
Proof.
  change (add_user_exception e) with (add_sys_exception e).
  destruct (add_sys_exception_spec e s) as [H _].
  destruct (add_sys_exception e s) as [r s1]. cbn in *. rewrite H. reflexivity.
Qed.

Lemma add_sys_exception_eq e s :
  add_sys_exception e s = (Normal tt, snd (add_sys_exception e s)).
Proof. exact (add_user_exception_eq e s). Qed.

(** The three ways the call of the user function ends. *)
Lemma invoke_returns cfg env input s out dt :
  user_call cfg env input s = (Returns out, dt) →
  invoke cfg env input s =
    (Normal (true, out),
     snd (counter_inc TOTAL_PROCESSED (metrics_labels cfg)
            (snd (summary_observe PROCESS_LATENCY_MS (metrics_labels cfg)
                    ((clock s + dt - clock s) * 1000)%Q (after_call dt s))))).
Proof.
  intros H. unfold invoke. apply try_Normal.
  cbv beta iota zeta delta [bind time_time gets modify ret].
  rewrite call_user_function_eq. cbn [user_call invocations contextimpl set_stats].
  unfold user_call in *. cbn [invocations contextimpl set_stats]. rewrite H.
  reflexivity.
Qed.

Lemma invoke_raises cfg env input s e dt :
  user_call cfg env input s = (Raises e, dt) →
  isinstance_Exception e = true →
  invoke cfg env input s =
    (Normal (false, None),
     snd (add_user_exception e
            (snd (counter_inc TOTAL_USER_EXCEPTIONS (metrics_labels cfg)
                    (after_call dt s))))).
Proof.
  intros H He. unfold invoke.
  rewrite (try_caught _ _ s e (after_call dt s)); [|  | exact He].
  - cbv beta iota zeta delta [bind ret]. rewrite counter_inc_eq.
    rewrite add_user_exception_eq. reflexivity.
  - cbv beta iota zeta delta [bind time_time gets modify ret].
    rewrite call_user_function_eq.
    unfold user_call in *. cbn [invocations contextimpl set_stats]. rewrite H.
    reflexivity.
Qed.

Lemma invoke_escapes cfg env input s e dt :
  user_call cfg env input s = (Raises e, dt) →
  isinstance_Exception e = false →
  invoke cfg env input s = (Raise e, after_call dt s).
Proof.
  intros H He. unfold invoke. apply try_escapes; [|exact He].
  cbv beta iota zeta delta [bind time_time gets modify ret].
  rewrite call_user_function_eq.
  unfold user_call in *. cbn [invocations contextimpl set_stats]. rewrite H.
  reflexivity.
Qed.

Lemma add_sys_exception_frame e s :
  same_but_exception_lists s (snd (add_sys_exception e s)).
Proof.
  rewrite add_sys_exception_unfold. cbv zeta.
  unfold mutate_latest_sys_exception, modify, latest_sys_exception.
  destruct (own_latest_sys_exception (stats s)) as [l|] eqn:E; cbn; rewrite ?E; cbn;
    match goal with
    | |- same_but_exception_lists _ (snd (if ?c then _ else _)) => destruct c
    end; cbn; repeat split.
Qed.

Lemma same_but_routing_refl s : same_but_routing s s.
Proof. repeat split. Qed.

Lemma same_but_routing_trans s1 s2 s3 :
  same_but_routing s1 s2 → same_but_routing s2 s3 → same_but_routing s1 s3.
Proof.
  unfold same_but_routing. intros H1 H2.
  decompose [and] H1. decompose [and] H2. repeat split; congruence.
Qed.

Ltac same_but_routing_side :=
  idtac;
  lazymatch goal with
  | |- same_but_routing _ _ =>
      unfold same_but_routing; repeat case_match; cbn; repeat split; reflexivity
  | |- any_kind _ => exact I
  | |- no_wait _ => first [ assumption | discriminate ]
  | |- _ => fail
  end.

Lemma process_result_frame cfg env output msg :
  spec same_but_routing no_wait (process_result cfg env output msg).
Proof.
  spec_go same_but_routing_refl same_but_routing_trans no_wait
          same_but_routing_side.
Qed.

(** The outer handler: the text of the exception first, then the counter
    and the list. *)
Lemma loop_handler_eq cfg env e s :
  loop_handler cfg env e s = caught cfg env e s.
Proof.
  unfold loop_handler, caught, recorded.
  destruct (str_of_exception env e) as [text|e'].
  - cbv beta iota zeta delta [bind ret call].
    rewrite counter_inc_eq, add_sys_exception_eq. reflexivity.
  - reflexivity.
Qed.

Lemma turn_Work_eq cfg env msg s :
  turn cfg env (Work msg) s = handled cfg env msg s.
Proof.
  unfold turn, handled. rewrite loop_continuation_Work.
  unfold handle.
  destruct (deserialize env (serde msg) (data (message msg))) as [input|e] eqn:Hd.
  - set (s1 := called_for cfg msg s).
    assert (P : ∀ k : bool * option PyObject → M loop_ctl,
              (input_object <- call (Returns input) ;;
               set_current_message_context (message_id (message msg)) (topic msg) ;;
               when (has_log_topic_handler cfg) (emit LogRedirect) ;;
               executed <- invoke cfg env input_object ;; k executed) s =
              (executed <- invoke cfg env input ;; k executed) s1).
    { intros k. subst s1. unfold called_for, log_event, context_for.
      cbv beta iota zeta delta [bind call ret set_current_message_context modify
                                when emit pass].
      destruct (has_log_topic_handler cfg); reflexivity. }
    unfold try_except_Exception at 1. rewrite P. clear P.
    destruct (user_call cfg env input s1) as [[out|e] dt] eqn:Hu.
    + rewrite (bind_Normal _ _ _ _ _ (invoke_returns _ _ _ _ _ _ Hu)).
      fold (processed cfg dt s1). unfold conclude.
      assert (Q : ∀ s2, (when (has_log_topic_handler cfg) (emit LogRestore) ;;
                   when true
                     (process_result cfg env out msg ;;
                      counter_inc TOTAL_SUCCESSFULLY_PROCESSED (metrics_labels cfg)) ;;
                   ret Continue) s2 =
                  (process_result cfg env out msg ;;
                   counter_inc TOTAL_SUCCESSFULLY_PROCESSED (metrics_labels cfg) ;;
                   ret Continue) (log_event cfg LogRestore s2)).
      { intros s2. unfold log_event.
        cbv beta iota zeta delta [bind ret when emit pass modify].
        destruct (has_log_topic_handler cfg); cbn;
          destruct (process_result _ _ _ _ _) as [[[]|e|] s3]; reflexivity. }
      rewrite Q. clear Q.
      change (log_event cfg LogRestore
                (snd (counter_inc TOTAL_PROCESSED (metrics_labels cfg)
                   (snd (summary_observe PROCESS_LATENCY_MS (metrics_labels cfg)
                      ((clock s1 + dt - clock s1) * 1000)%Q (after_call dt s1))))))
        with (processed cfg dt s1).
      unfold bind at 1.
      destruct (process_result cfg env out msg (processed cfg dt s1))
        as [[[]|e|] s3]; try reflexivity.
      destruct (isinstance_Exception e); [|reflexivity].
      apply loop_handler_eq.
    + destruct (isinstance_Exception e) eqn:He.
      * rewrite (bind_Normal _ _ _ _ _ (invoke_raises _ _ _ _ _ _ Hu He)).
        unfold conclude, recorded, log_event.
        cbv beta iota zeta delta [bind ret when emit pass modify].
        destruct (has_log_topic_handler cfg); reflexivity.
      * rewrite (bind_Raise _ _ _ _ _ (invoke_escapes _ _ _ _ _ _ Hu He)).
        rewrite He. reflexivity.
  - unfold try_except_Exception. cbv beta iota zeta delta [bind call raise].
    destruct (isinstance_Exception e); [|reflexivity].
    apply loop_handler_eq.
Qed.

Lemma loop_body_Work cfg env s msg rest :
  queue s = Work msg :: rest →
  loop_body cfg env s = handled cfg env msg (dequeued s).
Proof.
  intros H. rewrite (loop_body_dequeues _ _ _ _ _ H).
  exact (turn_Work_eq cfg env msg (dequeued s)).
Qed.

Lemma user_call_for_eq cfg env input msg s entry rest :
  queue s = entry :: rest →
  user_call cfg env input (called_for cfg msg (dequeued s)) =
    user_call_for cfg env input msg s.
Proof.
  intros H. unfold user_call_for, user_call, called_for, log_event, dequeued.
  rewrite H. destruct (has_log_topic_handler cfg); reflexivity.
Qed.

Lemma recorded_frame cfg metric e s :
  counter_values (stats_class (recorded cfg metric e s)) =
    <[(metric, metrics_labels cfg) := (counter cfg metric s + 1)%Q]>
      (counter_values (stats_class s))
  ∧ summary_sum (stats_class (recorded cfg metric e s)) = summary_sum (stats_class s)
  ∧ summary_count (stats_class (recorded cfg metric e s)) =
      summary_count (stats_class s)
  ∧ own_last_invocation_time (stats (recorded cfg metric e s)) =
      own_last_invocation_time (stats s)
  ∧ queue (recorded cfg metric e s) = queue s
  ∧ invocations (recorded cfg metric e s) = invocations s
  ∧ contextimpl (recorded cfg metric e s) = contextimpl s
  ∧ producer (recorded cfg metric e s) = producer s
  ∧ trace (recorded cfg metric e s) = trace s.
Proof.
  destruct (add_sys_exception_frame e
              (snd (counter_inc metric (metrics_labels cfg) s))) as
    (F1 & F2 & F3 & F4 & F5 & F6 & F7 & F8 & F9 & F10 & F11 & F12 & F13 & F14 & F15).
  unfold recorded. rewrite F1, F2, F3, F4, F5, F9, F11, F12, F15.
  repeat split.
Qed.

Lemma recorded_latest_sys_exception cfg metric e s :
  latest_sys_exception (recorded cfg metric e s) =
    ring_push (latest_sys_exception s) (format_exc e, py_int (clock s * 1000)).
Proof.
  unfold recorded.
  destruct (add_sys_exception_spec e (snd (counter_inc metric (metrics_labels cfg) s)))
    as (_ & H & _).
  rewrite H. reflexivity.
Qed.

Ltac counters :=
  rewrite ?read_cell_insert;
  repeat match goal with
  | |- context [decide (?a = ?b)] =>
      let E := fresh "E" in
      destruct (decide (a = b)) as [E|E];
      [ try (exfalso; injection E; discriminate) | try congruence ]
  end.

(** The frame of a recording, as rewriting steps. *)
Ltac recorded_views cfg metric e s1 :=
  let R1 := fresh "R" in let R2 := fresh "R" in let R3 := fresh "R" in
  let R4 := fresh "R" in let R5 := fresh "R" in let R6 := fresh "R" in
  let R7 := fresh "R" in let R8 := fresh "R" in let R9 := fresh "R" in
  destruct (recorded_frame cfg metric e s1)
    as (R1 & R2 & R3 & R4 & R5 & R6 & R7 & R8 & R9);
  rewrite ?R1, ?R2, ?R3, ?R4, ?R5, ?R6, ?R7, ?R8, ?R9;
  clear R1 R2 R3 R4 R5 R6 R7 R8 R9.

Lemma log_event_views cfg ev s :
  stats_class (log_event cfg ev s) = stats_class s
  ∧ stats (log_event cfg ev s) = stats s
  ∧ queue (log_event cfg ev s) = queue s
  ∧ producer (log_event cfg ev s) = producer s
  ∧ trace (log_event cfg ev s) =
      trace s ++ (if has_log_topic_handler cfg then [ev] else []).
Proof.
  unfold log_event. destruct (has_log_topic_handler cfg); cbn;
    rewrite ?app_nil_r; repeat split.
Qed.

Lemma after_call_views dt s :
  stats_class (after_call dt s) = stats_class s
  ∧ own_last_invocation_time (stats (after_call dt s)) = Some (clock s * 1000)%Q
  ∧ queue (after_call dt s) = queue s
  ∧ producer (after_call dt s) = producer s
  ∧ trace (after_call dt s) = trace s
  ∧ clock (after_call dt s) = (clock s + dt)%Q.
Proof. repeat split. Qed.

Lemma called_for_views cfg msg s entry rest :
  queue s = entry :: rest →
  stats_class (called_for cfg msg (dequeued s)) = stats_class s
  ∧ stats (called_for cfg msg (dequeued s)) = stats s
  ∧ queue (called_for cfg msg (dequeued s)) = rest
  ∧ producer (called_for cfg msg (dequeued s)) = producer s
  ∧ output_serde (called_for cfg msg (dequeued s)) = output_serde s
  ∧ clock (called_for cfg msg (dequeued s)) = clock s
  ∧ trace (called_for cfg msg (dequeued s)) =
      trace s ++ (if has_log_topic_handler cfg then [LogRedirect] else []).
Proof.
  intros Hq. unfold called_for, log_event, dequeued. rewrite Hq.
  destruct (has_log_topic_handler cfg); cbn; rewrite ?app_nil_r; repeat split.
Qed.

(** ** Invariants of runs *)

Lemma spec_preserves (R : State → State → Prop) (K : kind → Prop)
    (I : State → Prop) {A} (m : M A) :
  (∀ s s', R s s' → I s → I s') → spec R K m → preserves I m.
Proof. intros H Hm s Hs. destruct (Hm s) as [HR _]. eapply H; eauto. Qed.

Section RunInvariant.

Variable cfg : Config.
Variable env : Env.
Variable I : State → Prop.
Hypothesis listener_keeps : ∀ sd c m, preserves I (message_listener cfg sd c m).
Hypothesis loop_keeps : preserves I (loop_body cfg env).
Hypothesis callback_keeps : ∀ c m r, preserves I (done_producing cfg c m r).
Hypothesis join_keeps : preserves I (join_put cfg).
Hypothesis tick_keeps : ∀ dt, preserves I (elapse dt).
Hypothesis health_check_keeps : preserves I health_check.
Hypothesis watchdog_keeps : preserves I (process_spawner_health_check_timer cfg).
Hypothesis status_keeps : preserves I (get_function_status cfg).
Hypothesis metrics_keeps : preserves I (get_metrics cfg).
Hypothesis reset_keeps : preserves I (get_and_reset_metrics cfg).

Lemma after_invariant {A} (m : M A) p p' :
  preserves I m → after m p = Some p' → I (state p) → I (state p').
Proof.
  intros Hm H Hp. unfold after in H. specialize (Hm (state p) Hp).
  destruct (m (state p)) as [[a|e|] s1]; simplify_eq; exact Hm.
Qed.

Lemma step_invariant a p p' :
  step cfg env a p = Some p' → I (state p) → I (state p').
Proof.
  intros Hstep Hp. unfold step in Hstep.
  destruct (negb (alive (state p))); [discriminate|].
  destruct a as [sd c m| |i res| | |dt| | | | |].
  - specialize (listener_keeps sd c m (state p) Hp).
    destruct (message_listener cfg sd c m (state p)) as [[[]|e|] s1];
      simplify_eq; exact listener_keeps.
  - specialize (loop_keeps (state p) Hp).
    destruct (execution_thread p); try discriminate.
    destruct (loop_body cfg env (state p)) as [[[|]|e|] s1];
      simplify_eq; exact loop_keeps.
  - destruct (bool_decide _); [discriminate|].
    destruct (trace (state p) !! i) as [[]|]; try discriminate.
    specialize (callback_keeps cb_consumer cb_message res (state p) Hp).
    destruct (done_producing cfg cb_consumer cb_message res (state p))
      as [[[]|e|] s1]; simplify_eq; exact callback_keeps.
  - specialize (join_keeps (state p) Hp).
    destruct (joiner p); try discriminate.
    destruct (join_put cfg (state p)) as [[[]|e|] s1];
      simplify_eq; exact join_keeps.
  - destruct (joiner p); try discriminate.
    destruct (thread_ended _); simplify_eq. exact Hp.
  - exact (after_invariant _ _ _ (tick_keeps dt) Hstep Hp).
  - exact (after_invariant _ _ _ health_check_keeps Hstep Hp).
  - exact (after_invariant _ _ _ watchdog_keeps Hstep Hp).
  - exact (after_invariant _ _ _ status_keeps Hstep Hp).
  - exact (after_invariant _ _ _ metrics_keeps Hstep Hp).
  - exact (after_invariant _ _ _ reset_keeps Hstep Hp).
Qed.

Lemma step_invariant_other a p p' :
  a ≠ WorkerTurn →
  step cfg env a p = Some p' → I (state p) → I (state p').
Proof.
  intros Ha Hstep Hp. unfold step in Hstep.
  destruct (negb (alive (state p))); [discriminate|].
  destruct a as [sd c m| |i res| | |dt| | | | |]; [|congruence|..].
  - specialize (listener_keeps sd c m (state p) Hp).
    destruct (message_listener cfg sd c m (state p)) as [[[]|e|] s1];
      simplify_eq; exact listener_keeps.
  - destruct (bool_decide _); [discriminate|].
    destruct (trace (state p) !! i) as [[]|]; try discriminate.
    specialize (callback_keeps cb_consumer cb_message res (state p) Hp).
    destruct (done_producing cfg cb_consumer cb_message res (state p))
      as [[[]|e|] s1]; simplify_eq; exact callback_keeps.
  - specialize (join_keeps (state p) Hp).
    destruct (joiner p); try discriminate.
    destruct (join_put cfg (state p)) as [[[]|e|] s1];
      simplify_eq; exact join_keeps.
  - destruct (joiner p); try discriminate.
    destruct (thread_ended _); simplify_eq. exact Hp.
  - exact (after_invariant _ _ _ (tick_keeps dt) Hstep Hp).
  - exact (after_invariant _ _ _ health_check_keeps Hstep Hp).
  - exact (after_invariant _ _ _ watchdog_keeps Hstep Hp).
  - exact (after_invariant _ _ _ status_keeps Hstep Hp).
  - exact (after_invariant _ _ _ metrics_keeps Hstep Hp).
  - exact (after_invariant _ _ _ reset_keeps Hstep Hp).
Qed.

Lemma run_invariant schedule : ∀ p p',
  run cfg env schedule p = Some p' → I (state p) → I (state p').
Proof.
  induction schedule as [|a schedule IH]; intros p p' Hrun Hp; cbn in Hrun.
  - simplify_eq. exact Hp.
  - destruct (step cfg env a p) as [p1|] eqn:Hstep; [|discriminate].
    eapply IH; [exact Hrun|]. eapply step_invariant; eauto.
Qed.

End RunInvariant.

(** ** The execution thread and the queue *)

Lemma always_returns_ret {A} (c : A) : always_returns c (ret c).
Proof. intros s a [= <-]. reflexivity. Qed.

Lemma always_returns_bind {A B} (c : B) (m : M A) (k : A → M B) :
  (∀ a, always_returns c (k a)) → always_returns c (bind m k).
Proof.
  intros Hk s b. unfold bind. destruct (m s) as [[a|e|] s1]; cbn; try discriminate.
  apply Hk.
Qed.

Lemma always_returns_try {A} (c : A) (body : M A) (handler : PyExc → M A) :
  always_returns c body → (∀ e, always_returns c (handler e)) →
  always_returns c (try_except_Exception body handler).
Proof.
  intros Hb Hh s a. unfold try_except_Exception.
  pose proof (Hb s) as Hb'. destruct (body s) as [[a'|e|] s1]; cbn in *.
  - apply Hb'.
  - destruct (isinstance_Exception e); [apply Hh | discriminate].
  - discriminate.
Qed.

Lemma turn_returns_Continue cfg env item :
  always_returns Continue (turn cfg env (Work item)).
Proof.
  unfold turn, loop_continuation, loop_handler.
  apply always_returns_try; intros;
    repeat first [ apply always_returns_ret
                 | apply always_returns_bind; intros
                 | match goal with
                   | |- always_returns _ (let (_, _) := ?x in _) => destruct x
                   end ].
Qed.

Ltac same_queue_side :=
  idtac;
  lazymatch goal with
  | |- same_queue _ _ =>
      unfold same_queue; repeat case_match; cbn; repeat split; reflexivity
  | |- any_kind _ => exact I
  | |- no_wait _ => first [ assumption | discriminate ]
  | |- returns_or_leaves _ KNormal => split; [discriminate | intros ? [=]]
  | |- returns_or_leaves _ (KRaise _) =>
      split; [discriminate|]; intros ? [= <-]; right; eexists;
      split; [|eassumption]; assumption
  | |- returns_or_leaves _ _ =>
      split; [assumption|]; intros ? ->; left;
      match goal with
      | H : ∀ e, _ = KRaise e → _ |- _ => exact (H _ eq_refl)
      end
  | |- _ => fail
  end.

(** A turn on a dequeued entry leaves the queue and its histories alone,
    does not wait, and raises only what leaves the loop: what
    [except Exception] lets through, or what [str(e)] raised in the outer
    handler. *)
Lemma turn_same_queue cfg env entry :
  spec same_queue (returns_or_leaves env) (turn cfg env entry).
Proof.
  unfold turn.
  spec_go same_queue_refl same_queue_trans no_wait same_queue_side.
Qed.

(** With collaborators that raise nothing but instances of [Exception],
    and whose exceptions have a text, every turn returns. *)

Ltac solve_exc W :=
  subst; try reflexivity;
  repeat match goal with
  | H : match ?x with _ => _ end = _ |- _ => destruct x
  end;
  match goal with
  | E : deserialize _ ?a ?b = _ |- _ =>
      generalize (wb_deserialize _ W a b); rewrite E; exact id
  | E : serialize _ ?a ?b = _ |- _ =>
      generalize (wb_serialize _ W a b); rewrite E; exact id
  | E : process_with_context _ ?a ?b ?c = _ |- _ =>
      generalize (wb_process_with_context _ W a b c); rewrite E; exact id
  | E : process_pure _ ?a ?b = _ |- _ =>
      generalize (wb_process_pure _ W a b); rewrite E; exact id
  | E : import_serde _ ?a = _ |- _ =>
      generalize (wb_import_serde _ W a); rewrite E; exact id
  | E : create_producer _ ?a = _ |- _ =>
      generalize (wb_create_producer _ W a); rewrite E; exact id
  end.

Ltac well_behaved_side W :=
  idtac;
  lazymatch goal with
  | |- same_queue _ _ =>
      unfold same_queue; repeat case_match; cbn; repeat split; reflexivity
  | |- returns KNormal => reflexivity
  | |- returns (KRaise _) =>
      exfalso;
      match goal with
      | E : str_of_exception _ ?e = Raises _,
        H : isinstance_Exception ?e = true |- _ =>
          destruct (wb_str_of_exception _ W e H) as [? E'];
          rewrite E' in E; discriminate
      end
  | |- returns ?k =>
      match goal with
      | H1 : returns_or_raises_Exception k,
        H2 : ∀ e, k = KRaise e → isinstance_Exception e = false |- _ =>
          destruct H1 as [H1a H1b]; destruct k as [|e0|];
          [ reflexivity
          | specialize (H1b e0 eq_refl); specialize (H2 e0 eq_refl); congruence
          | congruence ]
      end
  | |- returns_or_raises_Exception KNormal => split; [discriminate | intros ? [=]]
  | |- returns_or_raises_Exception (KRaise _) =>
      split; [discriminate | intros ? [= <-]; solve_exc W]
  | |- returns_or_raises_Exception _ => assumption
  | |- _ => fail
  end.

Lemma turn_returns cfg env entry :
  well_behaved env → spec same_queue returns (turn cfg env entry).
Proof.
  intros W. unfold turn.
  spec_go same_queue_refl same_queue_trans returns_or_raises_Exception
          ltac:(idtac; well_behaved_side W).
Qed.

(** A turn on a work item that returns has dealt with the item. *)

Lemma outcomes_eq cfg s s' :
  counter_values (stats_class s') = counter_values (stats_class s) →
  outcomes cfg s' = outcomes cfg s.
Proof. intros H. unfold outcomes, counter. rewrite H. reflexivity. Qed.

Lemma outcomes_inc cfg metric s s' :
  metric = TOTAL_SUCCESSFULLY_PROCESSED ∨ metric = TOTAL_USER_EXCEPTIONS
  ∨ metric = TOTAL_SYSTEM_EXCEPTIONS →
  counter_values (stats_class s') =
    <[(metric, metrics_labels cfg) := (counter cfg metric s + 1)%Q]>
      (counter_values (stats_class s)) →
  (outcomes cfg s' == outcomes cfg s + 1)%Q.
Proof.
  intros Hm H. unfold outcomes, counter in *. rewrite H.
  destruct Hm as [->|[->| ->]]; counters; ring.
Qed.

Lemma outcomes_processed cfg s s' :
  counter_values (stats_class s') =
    <[(TOTAL_PROCESSED, metrics_labels cfg) :=
        (counter cfg TOTAL_PROCESSED s + 1)%Q]> (counter_values (stats_class s)) →
  outcomes cfg s' = outcomes cfg s.
Proof.
  intros H. unfold outcomes, counter in *. rewrite H. counters; try reflexivity.
Qed.

Lemma turn_attempted cfg env item s c s' :
  turn cfg env (Work item) s = (Normal c, s') → attempted cfg env item s c s'.
Proof.
  rewrite turn_Work_eq. unfold handled, caught, attempted. intros H.
  assert (Hcf : counter_values (stats_class (called_for cfg item s)) =
                counter_values (stats_class s)
                ∧ invocations (called_for cfg item s) = invocations s).
  { unfold called_for, log_event. destruct (has_log_topic_handler cfg); split;
      reflexivity. }
  destruct Hcf as [Hcv Hci].
  destruct (deserialize env (serde item) (data (message item))) as [input|e].
  - destruct (user_call cfg env input (called_for cfg item s)) as [[out|e] dt].
    + destruct (process_result_frame cfg env out item
                  (processed cfg dt (called_for cfg item s)))
        as [(F1 & _ & _ & _ & _ & _ & F2 & _) _].
      assert (P : counter_values (stats_class (processed cfg dt (called_for cfg item s))) =
                  <[(TOTAL_PROCESSED, metrics_labels cfg) :=
                      (counter cfg TOTAL_PROCESSED (called_for cfg item s) + 1)%Q]>
                    (counter_values (stats_class (called_for cfg item s)))
                  ∧ invocations (processed cfg dt (called_for cfg item s)) =
                      S (invocations (called_for cfg item s))).
      { unfold processed, log_event. destruct (has_log_topic_handler cfg); split;
          reflexivity. }
      destruct P as [P1 P2].
      destruct (process_result cfg env out item
                  (processed cfg dt (called_for cfg item s))) as [[[]|e|] s3];
        cbn [snd] in F1, F2.
      * injection H as <- <-. split; [reflexivity|]. split.
        -- rewrite <- (outcomes_eq cfg s _ Hcv),
             <- (outcomes_processed cfg _ _ P1).
           apply (outcomes_inc cfg TOTAL_SUCCESSFULLY_PROCESSED); [auto|].
           unfold counter. cbn. rewrite F1. reflexivity.
        -- cbn. rewrite F2, P2, Hci. reflexivity.
      * destruct (isinstance_Exception e); [|discriminate].
        destruct (str_of_exception env e); [|discriminate].
        injection H as <- <-. split; [reflexivity|].
        destruct (recorded_frame cfg TOTAL_SYSTEM_EXCEPTIONS e s3)
          as (R1 & _ & _ & _ & _ & R2 & _).
        split.
        -- rewrite <- (outcomes_eq cfg s _ Hcv),
             <- (outcomes_processed cfg _ _ P1).
           apply (outcomes_inc cfg TOTAL_SYSTEM_EXCEPTIONS); [auto|].
           rewrite R1. unfold counter. rewrite F1. reflexivity.
        -- rewrite R2, F2, P2, Hci. reflexivity.
      * discriminate.
    + destruct (isinstance_Exception e); [|discriminate].
      injection H as <- <-. split; [reflexivity|].
      destruct (recorded_frame cfg TOTAL_USER_EXCEPTIONS e
                  (after_call dt (called_for cfg item s)))
        as (R1 & _ & _ & _ & _ & R2 & _).
      destruct (log_event_views cfg LogRestore
                  (recorded cfg TOTAL_USER_EXCEPTIONS e
                     (after_call dt (called_for cfg item s)))) as (L1 & _).
      split.
      * rewrite <- (outcomes_eq cfg s _ Hcv).
        apply (outcomes_inc cfg TOTAL_USER_EXCEPTIONS); [auto|].
        rewrite L1, R1. reflexivity.
      * unfold log_event. destruct (has_log_topic_handler cfg);
          cbn [invocations set_trace]; rewrite R2; cbn; rewrite Hci; reflexivity.
  - destruct (isinstance_Exception e); [|discriminate].
    destruct (str_of_exception env e); [|discriminate].
    injection H as <- <-. split; [reflexivity|].
    destruct (recorded_frame cfg TOTAL_SYSTEM_EXCEPTIONS e s)
      as (R1 & _ & _ & _ & _ & R2 & _).
    split; [|exact R2].
    apply (outcomes_inc cfg TOTAL_SYSTEM_EXCEPTIONS); [auto|]. exact R1.
Qed.

Lemma same_logs_refl s : same_logs s s.
Proof. repeat split. Qed.

Lemma same_logs_trans s1 s2 s3 : same_logs s1 s2 → same_logs s2 s3 → same_logs s1 s3.
Proof. intros (A1 & A2 & A3) (B1 & B2 & B3). repeat split; congruence. Qed.

Lemma same_queue_logs s s' : same_queue s s' → same_logs s s'.
Proof. intros (A1 & A2 & A3 & _). repeat split; assumption. Qed.

Ltac same_logs_side :=
  idtac;
  lazymatch goal with
  | |- same_logs _ _ =>
      unfold same_logs; repeat case_match; cbn; repeat split; reflexivity
  | |- any_kind _ => exact I
  | |- _ => fail
  end.

Ltac same_logs_go :=
  spec_go same_logs_refl same_logs_trans any_kind same_logs_side.

Lemma done_producing_logs cfg c m res :
  spec same_logs any_kind (done_producing cfg c m res).
Proof. same_logs_go. Qed.

Lemma elapse_logs dt : spec same_logs any_kind (elapse dt).
Proof. same_logs_go. Qed.

Lemma health_check_logs : spec same_logs any_kind health_check.
Proof. same_logs_go. Qed.

Lemma watchdog_logs cfg :
  spec same_logs any_kind (process_spawner_health_check_timer cfg).
Proof. same_logs_go. Qed.

Lemma get_function_status_logs cfg :
  spec same_logs any_kind (get_function_status cfg).
Proof. same_logs_go. Qed.

Lemma get_metrics_logs cfg : spec same_logs any_kind (get_metrics cfg).
Proof. same_logs_go. Qed.

Lemma get_and_reset_metrics_logs cfg :
  spec same_logs any_kind (get_and_reset_metrics cfg).
Proof. same_logs_go. Qed.

Lemma queue_put_eq maxsize entry s :
  queue_put maxsize entry s =
    if queue_full maxsize (queue s) then (Blocked, s)
    else (Normal tt,
          set_put_log (put_log s ++ [entry]) (set_queue (queue s ++ [entry]) s)).
Proof.
  cbv beta iota zeta delta [queue_put bind get gets].
  destruct (queue_full _ _); reflexivity.
Qed.

(** Work items and sentinels in lists of queue entries. *)

Lemma work_items_app l1 l2 : work_items (l1 ++ l2) = work_items l1 ++ work_items l2.
Proof. unfold work_items. apply omap_app. Qed.

Lemma work_items_map_Work items : work_items (map Work items) = items.
Proof.
  unfold work_items. induction items as [|m items IH]; [reflexivity|].
  cbn. rewrite IH. reflexivity.
Qed.

Lemma map_Work_Quit_inj items1 : ∀ items2 rest1 rest2,
  map Work items1 ++ Quit :: rest1 = map Work items2 ++ Quit :: rest2 →
  items1 = items2 ∧ rest1 = rest2.
Proof.
  induction items1 as [|m1 items1 IH]; intros [|m2 items2] rest1 rest2 H;
    cbn in H; try discriminate.
  - injection H as <-. auto.
  - injection H as <- H. destruct (IH _ _ _ H) as [-> ->]. auto.
Qed.

(** The invariants hold along every schedule. *)

Lemma consistent_frame env p p' :
  execution_thread p' = execution_thread p →
  joiner p' = joiner p →
  same_logs (state p) (state p') →
  consistent env p → consistent env p'.
Proof.
  intros Ht Hj (Hq & Hp & Hg) (F & T & J).
  unfold consistent, fifo, thread_consistent, join_consistent in *.
  rewrite Ht, Hj, Hq, Hp, Hg. auto.
Qed.

Lemma consistent_enqueue env p p' entry :
  execution_thread p' = execution_thread p →
  joiner p' = joiner p ∨ joiner p' = JoinWaiting →
  queue (state p') = queue (state p) ++ [entry] →
  put_log (state p') = put_log (state p) ++ [entry] →
  get_log (state p') = get_log (state p) →
  consistent env p → consistent env p'.
Proof.
  intros Ht Hj Hq Hp Hg (F & T & J).
  unfold consistent, fifo, thread_consistent, join_consistent in *.
  rewrite Ht, Hq, Hp, Hg, F, app_assoc. repeat split; [exact T|].
  intros E. destruct Hj as [Hj|Hj]; rewrite Hj in E; [auto | discriminate].
Qed.

Lemma after_frame env {A} (m : M A) p p' :
  spec same_logs any_kind m → after m p = Some p' →
  consistent env p → consistent env p'.
Proof.
  intros Hm H. unfold after in H. destruct (Hm (state p)) as [Hq _].
  destruct (m (state p)) as [[a|e|] s1]; simplify_eq;
    apply consistent_frame; auto.
Qed.

Lemma initial_process_consistent cfg env now :
  consistent env (initial_process cfg now).
Proof. repeat split. intros [=]. Qed.

Section Consistency.

Variable cfg : Config.
Variable env : Env.

Lemma worker_turn_consistent p p' :
  step cfg env WorkerTurn p = Some p' → consistent env p → consistent env p'.
Proof.
  intros Hstep (F & T & J). unfold step in Hstep.
  destruct (negb (alive (state p))); [discriminate|].
  unfold consistent, fifo, thread_consistent, join_consistent in *.
  destruct (execution_thread p) eqn:Ht; try discriminate.
  destruct (queue (state p)) as [|entry rest] eqn:Hq.
  { rewrite (loop_body_empty _ _ _ Hq) in Hstep. discriminate. }
  rewrite (loop_body_dequeues _ _ _ _ _ Hq) in Hstep.
  destruct (dequeued_spec _ _ _ Hq) as (D1 & D2 & D3 & _).
  fold (turn cfg env entry) in Hstep.
  destruct (turn_same_queue cfg env entry (dequeued (state p)))
    as [(Q1 & Q2 & Q3 & _) [_ K]].
  assert (J' : joiner p = JoinReturned → False)
    by (intros E; apply J in E; discriminate).
  destruct entry as [item|].
  - pose proof (turn_returns_Continue cfg env item (dequeued (state p))) as Hc.
    destruct (turn cfg env (Work item) (dequeued (state p))) as [[c|e|] s1].
    + rewrite (Hc c eq_refl) in Hstep. injection Hstep as <-.
      cbn [state execution_thread joiner with_state kind_of fst snd] in *.
      rewrite Q1, Q2, Q3, D1, D2, D3, F, Ht.
      rewrite work_items_app, map_app, <- T, <- app_assoc.
      repeat split; auto.
    + injection Hstep as <-.
      cbn [state execution_thread joiner kind_of fst snd] in *.
      rewrite Q1, Q2, Q3, D1, D2, D3, F, <- app_assoc.
      repeat split; auto.
    + discriminate.
  - change (turn cfg env Quit (dequeued (state p)))
      with (@Normal loop_ctl Break, dequeued (state p)) in Hstep.
    injection Hstep as <-.
    cbn [state execution_thread joiner] in *.
    rewrite D1, D2, D3, F, <- app_assoc.
    repeat split; auto.
    rewrite work_items_app. change (work_items [Quit]) with (@nil InternalMessage).
    rewrite app_nil_r, <- T. reflexivity.
Qed.

Lemma step_consistent a p p' :
  step cfg env a p = Some p' → consistent env p → consistent env p'.
Proof.
  destruct a as [sd c m| |i res| | |dt| | | | |]; intros Hstep Inv;
    try (eapply worker_turn_consistent; eauto; fail);
    unfold step in Hstep;
    (destruct (negb (alive (state p))); [discriminate|]).
  - rewrite message_listener_eq in Hstep.
    destruct (queue_full _ _); [discriminate|]. cbn in Hstep. simplify_eq.
    apply (consistent_enqueue env p _ (Work (item_of sd c m)));
      [ reflexivity | left; reflexivity | .. | exact Inv ];
      destruct (atmost_once cfg && auto_ack cfg); reflexivity.
  - destruct (bool_decide _); [discriminate|].
    destruct (trace (state p) !! i) as [[]|]; try discriminate.
    destruct (done_producing_logs cfg cb_consumer cb_message res (state p))
      as [Hq _].
    destruct (done_producing cfg cb_consumer cb_message res (state p))
      as [[|e|] s1]; simplify_eq; apply (consistent_frame env p); auto.
  - destruct (joiner p) eqn:Hj; try discriminate.
    unfold join_put in Hstep. rewrite queue_put_eq in Hstep.
    destruct (queue_full _ _); [discriminate|]. simplify_eq.
    apply (consistent_enqueue env p _ Quit);
      [ reflexivity | right; reflexivity | reflexivity | reflexivity
      | reflexivity | exact Inv ].
  - destruct (joiner p) eqn:Hj; try discriminate.
    destruct (thread_ended (execution_thread p)) eqn:Ht; [|discriminate].
    injection Hstep as <-. destruct Inv as (F & T & J).
    split; [exact F|]. split; [exact T|]. intros _. exact Ht.
  - eapply after_frame; eauto using elapse_logs.
  - eapply after_frame; eauto using health_check_logs.
  - eapply after_frame; eauto using watchdog_logs.
  - eapply after_frame; eauto using get_function_status_logs.
  - eapply after_frame; eauto using get_metrics_logs.
  - eapply after_frame; eauto using get_and_reset_metrics_logs.
Qed.

Lemma run_consistent schedule : ∀ p p',
  run cfg env schedule p = Some p' → consistent env p → consistent env p'.
Proof.
  induction schedule as [|a schedule IH]; intros p p' Hrun Inv; cbn in Hrun.
  - simplify_eq. exact Inv.
  - destruct (step cfg env a p) as [p1|] eqn:Hstep; [|discriminate].
    eapply IH; [exact Hrun|]. eapply step_consistent; eauto.
Qed.

End Consistency.

(** ** The calls of the user function *)

Lemma same_calls_refl s : same_calls s s.
Proof. split; reflexivity. Qed.

Lemma same_calls_trans s1 s2 s3 :
  same_calls s1 s2 → same_calls s2 s3 → same_calls s1 s3.
Proof. intros (A1 & A2) (B1 & B2). split; congruence. Qed.

Ltac same_calls_side :=
  idtac;
  lazymatch goal with
  | |- same_calls _ _ =>
      unfold same_calls; repeat case_match; cbn; repeat split; reflexivity
  | |- any_kind _ => exact I
  | |- _ => fail
  end.

Ltac same_calls_go :=
  spec_go same_calls_refl same_calls_trans any_kind same_calls_side.

Lemma message_listener_same_calls cfg sd c m :
  spec same_calls any_kind (message_listener cfg sd c m).
Proof. same_calls_go. Qed.

Lemma done_producing_same_calls cfg c m r :
  spec same_calls any_kind (done_producing cfg c m r).
Proof. same_calls_go. Qed.

Lemma join_put_same_calls cfg : spec same_calls any_kind (join_put cfg).
Proof. same_calls_go. Qed.

Lemma elapse_same_calls dt : spec same_calls any_kind (elapse dt).
Proof. same_calls_go. Qed.

Lemma health_check_same_calls : spec same_calls any_kind health_check.
Proof. same_calls_go. Qed.

Lemma watchdog_same_calls cfg :
  spec same_calls any_kind (process_spawner_health_check_timer cfg).
Proof. same_calls_go. Qed.

Lemma get_function_status_same_calls cfg :
  spec same_calls any_kind (get_function_status cfg).
Proof. same_calls_go. Qed.

Lemma get_metrics_same_calls cfg : spec same_calls any_kind (get_metrics cfg).
Proof. same_calls_go. Qed.

Lemma get_and_reset_metrics_same_calls cfg :
  spec same_calls any_kind (get_and_reset_metrics cfg).
Proof. same_calls_go. Qed.

Lemma same_calls_preserves env {A} (m : M A) :
  spec same_calls any_kind m → preserves (every_item_attempted env) m.
Proof.
  apply spec_preserves. intros s s' (E1 & E2) H.
  unfold every_item_attempted in *. rewrite E1, E2. exact H.
Qed.

(** However a turn on a work item ends, the user function was called in it
    once if the input serde returned, and not at all if it raised. *)
Lemma turn_invocations cfg env item s :
  invocations (snd (turn cfg env (Work item) s)) =
    (invocations s + if decodable env item then 1 else 0)%nat.
Proof.
  rewrite turn_Work_eq. unfold handled, caught, decodable.
  assert (Hci : invocations (called_for cfg item s) = invocations s).
  { unfold called_for, log_event. destruct (has_log_topic_handler cfg); reflexivity. }
  destruct (deserialize env (serde item) (data (message item))) as [input|e].
  - destruct (user_call cfg env input (called_for cfg item s)) as [[out|e] dt].
    + destruct (process_result_frame cfg env out item
                  (processed cfg dt (called_for cfg item s)))
        as [(_ & _ & _ & _ & _ & _ & F & _) _].
      assert (P : invocations (processed cfg dt (called_for cfg item s)) =
                  S (invocations (called_for cfg item s))).
      { unfold processed, log_event. destruct (has_log_topic_handler cfg);
          reflexivity. }
      rewrite P, Hci in F.
      destruct (process_result cfg env out item
                  (processed cfg dt (called_for cfg item s))) as [[[]|e|] s3];
        cbn [snd] in F |- *.
      * cbn. rewrite F. lia.
      * destruct (isinstance_Exception e); cbn [snd];
          [destruct (str_of_exception env e); cbn [snd]|]; try (rewrite F; lia).
        destruct (recorded_frame cfg TOTAL_SYSTEM_EXCEPTIONS e s3)
          as (_ & _ & _ & _ & _ & R & _).
        rewrite R, F. lia.
      * rewrite F. lia.
    + destruct (isinstance_Exception e); cbn [snd].
      * destruct (recorded_frame cfg TOTAL_USER_EXCEPTIONS e
                    (after_call dt (called_for cfg item s)))
          as (_ & _ & _ & _ & _ & R & _).
        unfold log_event. destruct (has_log_topic_handler cfg);
          cbn [invocations set_trace]; rewrite R; cbn; rewrite Hci; lia.
      * cbn. rewrite Hci. lia.
  - destruct (isinstance_Exception e); cbn [snd]; [|lia].
    destruct (str_of_exception env e); cbn [snd]; [|lia].
    destruct (recorded_frame cfg TOTAL_SYSTEM_EXCEPTIONS e s)
      as (_ & _ & _ & _ & _ & R & _).
    rewrite R. lia.
Qed.

Lemma calls_due_snoc env entries entry :
  calls_due env (entries ++ [entry]) =
    (calls_due env entries +
     match entry with
     | Work item => if decodable env item then 1 else 0
     | Quit => 0
     end)%nat.
Proof.
  unfold calls_due. rewrite work_items_app, List.filter_app, length_app.
  destruct entry as [item|]; cbn; [destruct (decodable env item)|]; reflexivity.
Qed.

Lemma loop_body_attempts cfg env :
  preserves (every_item_attempted env) (loop_body cfg env).
Proof.
  intros s H. unfold every_item_attempted in *.
  destruct (queue s) as [|entry rest] eqn:Hq.
  { rewrite (loop_body_empty _ _ _ Hq). exact H. }
  rewrite (loop_body_dequeues _ _ _ _ _ Hq). fold (turn cfg env entry).
  destruct (dequeued_spec _ _ _ Hq) as (_ & D3 & _).
  assert (Di : invocations (dequeued s) = invocations s)
    by (unfold dequeued; rewrite Hq; reflexivity).
  destruct (turn_same_queue cfg env entry (dequeued s)) as [(_ & _ & Q3 & _) _].
  rewrite Q3, D3, calls_due_snoc, <- H.
  destruct entry as [item|].
  - rewrite turn_invocations, Di. reflexivity.
  - cbn. rewrite Di. lia.
Qed.

Lemma run_attempts cfg env now schedule p :
  run cfg env schedule (initial_process cfg now) = Some p →
  every_item_attempted env (state p).
Proof.
  intros Hrun.
  refine (run_invariant cfg env (every_item_attempted env)
            _ _ _ _ _ _ _ _ _ _ schedule _ _ Hrun _).
  - intros sd c m. apply same_calls_preserves, message_listener_same_calls.
  - apply loop_body_attempts.
  - intros c m r. apply same_calls_preserves, done_producing_same_calls.
  - apply same_calls_preserves, join_put_same_calls.
  - intros dt. apply same_calls_preserves, elapse_same_calls.
  - apply same_calls_preserves, health_check_same_calls.
  - apply same_calls_preserves, watchdog_same_calls.
  - apply same_calls_preserves, get_function_status_same_calls.
  - apply same_calls_preserves, get_metrics_same_calls.
  - apply same_calls_preserves, get_and_reset_metrics_same_calls.
  - reflexivity.
Qed.

(** ** The loop of [actual_execution] *)

Lemma handle_each_cons cfg env item items s :
  handle_each cfg env (item :: items) s =
    match turn cfg env (Work item) (dequeued s) with
    | (Normal _, s1) => handle_each cfg env items s1
    | (Raise e, s1) => (Raise e, s1)
    | (Blocked, s1) => (Blocked, s1)
    end.
Proof. reflexivity. Qed.

Lemma outcomes_dequeued cfg s : outcomes cfg (dequeued s) = outcomes cfg s.
Proof. apply outcomes_eq. unfold dequeued. destruct (queue s); reflexivity. Qed.

Section Loop.

Variable cfg : Config.
Variable env : Env.
Variable bad : PyExc → Prop.
Hypothesis turn_raises_bad :
  ∀ entry s e, fst (turn cfg env entry s) = Raise e → bad e.

Lemma actual_execution_ends items : ∀ s rest fuel,
  queue s = map Work items ++ Quit :: rest →
  (length items < fuel)%nat →
  exits_after cfg env fuel s items rest ∨ dies_of cfg env fuel s items bad.
Proof.
  induction items as [|item items IH]; intros s rest fuel Hq Hfuel;
    (destruct fuel as [|fuel]; [cbn in Hfuel; lia|]);
    cbn [map app] in Hq; unfold exits_after, dies_of;
    cbn [actual_execution]; unfold bind at 1; unfold bind at 1;
    destruct (dequeued_spec _ _ _ Hq) as (D1 & D2 & D3 & _).
  - rewrite (loop_body_quit _ _ _ _ Hq). left. exists s.
    rewrite D1, D2, D3. cbn [length Z.of_nat].
    repeat split; try reflexivity.
    change (inject_Z 0) with 0%Q. ring.
  - rewrite (loop_body_dequeues _ _ _ _ _ Hq), handle_each_cons.
    fold (turn cfg env (Work item)).
    destruct (turn_same_queue cfg env (Work item) (dequeued s))
      as [(Q1 & Q2 & Q3 & _) [Hw _]].
    pose proof (turn_attempted cfg env item (dequeued s)) as Ha.
    pose proof (turn_raises_bad (Work item) (dequeued s)) as Hb.
    destruct (turn cfg env (Work item) (dequeued s)) as [[c|e|] s1];
      cbn [fst snd kind_of] in *.
    + destruct (Ha c s1 eq_refl) as (-> & Ho & _).
      rewrite outcomes_dequeued in Ho.
      assert (Hq1 : queue s1 = map Work items ++ Quit :: rest) by congruence.
      assert (Hf : (length items < fuel)%nat) by (cbn in Hfuel; lia).
      destruct (IH s1 rest fuel Hq1 Hf)
        as [(s2 & E1 & E2 & O & G & Q & P)|(e & s' & E1 & E2 & B)].
      * left. exists s2. rewrite E1, E2, G, Q, P, Q2, Q3, D2, D3.
        rewrite <- !app_assoc. repeat split; try reflexivity.
        rewrite O, Ho. cbn [length]. rewrite Nat2Z.inj_succ, <- Z.add_1_r.
        rewrite inject_Z_plus. change (inject_Z 1) with 1%Q. ring.
      * right. exists e, s'. auto.
    + right. exists e, s1. auto.
    + exfalso. apply Hw. reflexivity.
Qed.

End Loop.

Lemma turn_raises_leaving cfg env entry s e :
  fst (turn cfg env entry s) = Raise e → leaves_the_loop env e.
Proof.
  intros H. destruct (turn_same_queue cfg env entry s) as [_ [_ K]].
  apply K. rewrite H. reflexivity.
Qed.

Lemma turn_raises_nothing cfg env entry s e :
  well_behaved env → fst (turn cfg env entry s) = Raise e → False.
Proof.
  intros W H. destruct (turn_returns cfg env entry W s) as [_ K].
  rewrite H in K. discriminate.
Qed.

(** Which steps touch the execution thread. *)
Lemma step_keeps_thread cfg env a p p' :
  a ≠ WorkerTurn → step cfg env a p = Some p' →
  execution_thread p' = execution_thread p.
Proof.
  intros Ha H. unfold step, after in H.
  destruct a; try congruence; repeat case_match; simplify_eq; reflexivity.
Qed.

(** A step of the execution thread is a turn on the head of the queue. *)
Lemma worker_turn_is_a_turn cfg env p p' :
  step cfg env WorkerTurn p = Some p' →
  ∃ entry rest,
    queue (state p) = entry :: rest
    ∧ execution_thread p = ThreadRunning
    ∧ state p' = snd (turn cfg env entry (dequeued (state p)))
    ∧ execution_thread p' =
        match fst (turn cfg env entry (dequeued (state p))) with
        | Normal Continue => ThreadRunning
        | Normal Break => ThreadFinished
        | Raise e => ThreadDied e
        | Blocked => ThreadRunning
        end.
Proof.
  intros Hstep. unfold step in Hstep.
  destruct (negb (alive (state p))); [discriminate|].
  destruct (execution_thread p) eqn:Ht; try discriminate.
  destruct (queue (state p)) as [|entry rest] eqn:Hq.
  { rewrite (loop_body_empty _ _ _ Hq) in Hstep. discriminate. }
  rewrite (loop_body_dequeues _ _ _ _ _ Hq) in Hstep.
  fold (turn cfg env entry) in Hstep.
  exists entry, rest. split; [reflexivity|]. split; [reflexivity|].
  destruct (turn cfg env entry (dequeued (state p))) as [[[|]|e'|] s1];
    simplify_eq; cbn; rewrite ?Ht; auto.
Qed.

Lemma step_no_death cfg env a p p' :
  well_behaved env →
  step cfg env a p = Some p' →
  (∀ e, execution_thread p ≠ ThreadDied e) →
  ∀ e, execution_thread p' ≠ ThreadDied e.
Proof.
  intros W Hstep Hp e.
  assert (Hcase : a = WorkerTurn ∨ a ≠ WorkerTurn)
    by (destruct a; first [left; reflexivity | right; discriminate]).
  destruct Hcase as [->|Ha];
    [|rewrite (step_keeps_thread _ _ _ _ _ Ha Hstep); apply Hp].
  destruct (worker_turn_is_a_turn _ _ _ _ Hstep) as (entry & rest & _ & _ & _ & Ht).
  rewrite Ht.
  pose proof (turn_raises_nothing cfg env entry (dequeued (state p))) as Hn.
  destruct (turn cfg env entry (dequeued (state p))) as [[[|]|e'|] s1];
    cbn [fst]; try discriminate.
  exfalso. exact (Hn e' W eq_refl).
Qed.

Lemma run_no_death cfg env schedule : ∀ p p',
  well_behaved env →
  run cfg env schedule p = Some p' →
  (∀ e, execution_thread p ≠ ThreadDied e) →
  ∀ e, execution_thread p' ≠ ThreadDied e.
Proof.
  induction schedule as [|a schedule IH]; intros p p' W Hrun Hp; cbn in Hrun.
  - simplify_eq. exact Hp.
  - destruct (step cfg env a p) as [p1|] eqn:Hstep; [|discriminate].
    eapply IH; eauto using step_no_death.
Qed.

(** ** Shutdown *)

Lemma reachable_consistent cfg env now schedule p :
  run cfg env schedule (initial_process cfg now) = Some p → consistent env p.
Proof.
  intros H. eapply run_consistent; [exact H|]. apply initial_process_consistent.
Qed.

Lemma finished_after_exactly env p items rest :
  consistent env p →
  every_item_attempted env (state p) →
  put_log (state p) = map Work items ++ Quit :: rest →
  execution_thread p = ThreadFinished →
  get_log (state p) = map Work items ++ [Quit] ∧ queue (state p) = rest
  ∧ invocations (state p) = length (List.filter (decodable env) items).
Proof.
  intros (F & T & _) A Hput Ht. unfold fifo, thread_consistent in *.
  rewrite Ht in T. rewrite T, <- app_assoc in F. cbn [app] in F.
  rewrite F in Hput. apply map_Work_Quit_inj in Hput. destruct Hput as [E1 E2].
  assert (G : get_log (state p) = map Work items ++ [Quit])
    by (rewrite T, E1; reflexivity).
  split; [exact G|]. split; [exact E2|].
  unfold every_item_attempted in A. rewrite A, G. unfold calls_due.
  rewrite work_items_app, work_items_map_Work. cbn [work_items omap].
  rewrite app_nil_r. reflexivity.
Qed.

(** C4, amended. Both handlers of the loop are [except Exception], and the
    outer one formats the exception for its log line before anything else.
    So, in every reachable state, the execution thread has died only of an
    exception that is no instance of [Exception], or of what [str(e)]
    raised in the outer handler; once the thread has left its loop it has
    dequeued exactly the work items enqueued before the first sentinel, in
    order, then that sentinel, and the rest is still in the queue, and it
    has called the user function once for each of those items that the
    input serde could decode; [join] has returned only after the thread has
    ended; and at every moment between two turns the user function has
    been called exactly once for every dequeued item that the input serde
    could decode (and for nothing else), whether the call returned or
    raised.

    Every step of the thread is the body of the loop run on the head of the
    queue, and a turn on a work item that returns has dealt with the item:
    it says [continue], exactly one of the three final counts (successes,
    user exceptions, system exceptions) went up by one, and the user
    function was called if and only if the input serde returned.

    The loop itself, started on a queue holding N items and then the
    sentinel and run without interference, needs N+1 turns: it exits having
    handled those N items one after the other, the three final counts up by
    N in all, or it is left in the turn of one of them by an exception of
    the two kinds above.

    If the collaborators raise nothing but instances of [Exception], and
    [str] returns on these, the thread never dies, the loop always exits
    after the N items, and a [join] that has returned has waited for all of
    them. *)
Theorem C4_worker_handles_all_items_before_shutdown (cfg : Config) (env : Env) :
  (∀ now schedule p e,
     run cfg env schedule (initial_process cfg now) = Some p →
     execution_thread p = ThreadDied e → leaves_the_loop env e)
  ∧ (∀ now schedule p items rest,
       run cfg env schedule (initial_process cfg now) = Some p →
       put_log (state p) = map Work items ++ Quit :: rest →
       execution_thread p = ThreadFinished →
       get_log (state p) = map Work items ++ [Quit] ∧ queue (state p) = rest
       ∧ invocations (state p) = length (List.filter (decodable env) items))
  ∧ (∀ now schedule p,
       run cfg env schedule (initial_process cfg now) = Some p →
       joiner p = JoinReturned → execution_thread p ≠ ThreadRunning)
  ∧ (∀ now schedule p,
       run cfg env schedule (initial_process cfg now) = Some p →
       invocations (state p) = calls_due env (get_log (state p)))
  ∧ (∀ p p',
       step cfg env WorkerTurn p = Some p' →
       ∃ entry rest,
         queue (state p) = entry :: rest
         ∧ loop_body cfg env (state p) = turn cfg env entry (dequeued (state p))
         ∧ state p' = snd (turn cfg env entry (dequeued (state p))))
  ∧ (∀ item s c s',
       turn cfg env (Work item) s = (Normal c, s') →
       attempted cfg env item s c s')
  ∧ (∀ s items rest fuel,
       queue s = map Work items ++ Quit :: rest →
       (length items < fuel)%nat →
       exits_after cfg env fuel s items rest
       ∨ dies_of cfg env fuel s items (leaves_the_loop env))
  ∧ (well_behaved env →
       worker_survives cfg env
       ∧ join_waits_for_all cfg env
       ∧ ∀ s items rest fuel,
           queue s = map Work items ++ Quit :: rest →
           (length items < fuel)%nat →
           exits_after cfg env fuel s items rest).
Proof.
  split; [|split; [|split; [|split; [|split; [|split; [|split]]]]]].
  - intros now schedule p e Hrun Ht.
    destruct (reachable_consistent _ _ _ _ _ Hrun) as (_ & T & _).
    unfold thread_consistent in T. rewrite Ht in T. exact T.
  - intros now schedule p items rest Hrun Hput Ht.
    eapply finished_after_exactly; eauto using reachable_consistent, run_attempts.
  - intros now schedule p Hrun Hj Ht.
    destruct (reachable_consistent _ _ _ _ _ Hrun) as (_ & _ & J).
    specialize (J Hj). rewrite Ht in J. discriminate.
  - intros now schedule p Hrun. exact (run_attempts _ _ _ _ _ Hrun).
  - intros p p' Hstep.
    destruct (worker_turn_is_a_turn _ _ _ _ Hstep) as (entry & rest & Hq & _ & Hs & _).
    exists entry, rest. split; [exact Hq|]. split; [|exact Hs].
    apply (loop_body_dequeues _ _ _ _ _ Hq).
  - apply turn_attempted.
  - intros s items rest fuel Hq Hfuel.
    apply (actual_execution_ends cfg env (leaves_the_loop env)
             (turn_raises_leaving cfg env) items s rest fuel Hq Hfuel).
  - intros W.
    assert (Hs : worker_survives cfg env).
    { intros now schedule p e Hrun.
      apply (run_no_death cfg env schedule _ _ W Hrun). intros e' [=]. }
    split; [exact Hs|]. split.
    + intros now schedule p items rest Hrun Hput Hj.
      pose proof (reachable_consistent _ _ _ _ _ Hrun) as Hc.
      destruct Hc as (F & T & J). specialize (J Hj).
      destruct (execution_thread p) as [| |e] eqn:Ht; [discriminate| |].
      * apply (finished_after_exactly env p items rest); auto.
        -- repeat split; auto. intros _. rewrite Ht. reflexivity.
        -- exact (run_attempts _ _ _ _ _ Hrun).
      * exfalso. apply (Hs now schedule p e Hrun). exact Ht.
    + intros s items rest fuel Hq Hfuel.
      destruct (actual_execution_ends cfg env (fun _ => False)
                  (fun entry s0 e => turn_raises_nothing cfg env entry s0 e W)
                  items s rest fuel Hq Hfuel) as [H|(e & s' & _ & _ & [])].
      exact H.
Qed.

Lemma sample_env_well_behaved : well_behaved (sample_env always_raises).
Proof. constructor; intros; cbn; unfold has_text; eauto. Qed.

Lemma C4_witness :
  let cfg := sample_config ATLEAST_ONCE true None in
  let env := sample_env always_raises in
  worker_survives cfg env
  ∧ join_waits_for_all cfg env
  ∧ exits_after cfg env 3 two_items_then_quit
      [sample_item x01; sample_item x02] [].
Proof.
  intros cfg env.
  destruct (C4_worker_handles_all_items_before_shutdown cfg env)
    as (_ & _ & _ & _ & _ & _ & _ & H).
  destruct (H sample_env_well_behaved) as (H1 & H2 & H3).
  split; [exact H1|]. split; [exact H2|].
  apply H3; [reflexivity | cbn; lia].
Defined.

(** C4 as stated fails, in two ways. The user function calls [sys.exit] on
    the first of two items: [SystemExit] passes both [except Exception]
    handlers and ends the execution thread; [join] returns; the second item
    was never dequeued. And an input serde raises an exception whose
    [__str__] raises: the outer handler fails at its log line, and what it
    raised, an instance of [Exception], ends the execution thread on the
    first item. *)
Lemma C4_counterexample :
  ¬ worker_survives (sample_config ATLEAST_ONCE true None)
      (sample_env calls_sys_exit)
  ∧ ¬ join_waits_for_all (sample_config ATLEAST_ONCE true None)
        (sample_env calls_sys_exit)
  ∧ ¬ worker_survives (sample_config ATLEAST_ONCE true None)
        (unprintable_env exclaim).
Proof.
  assert (Hrun : run (sample_config ATLEAST_ONCE true None)
                   (sample_env calls_sys_exit)
                   [Deliver DEFAULT_SERIALIZER sample_consumer (sample_message x01);
                    Deliver DEFAULT_SERIALIZER sample_consumer (sample_message x02);
                    JoinPut; WorkerTurn; JoinReturn]
                   (initial_process (sample_config ATLEAST_ONCE true None) 100) =
                 Some process_after_sys_exit)
    by (vm_compute; reflexivity).
  assert (Et : execution_thread process_after_sys_exit = ThreadDied SystemExit)
    by (vm_compute; reflexivity).
  assert (Ej : joiner process_after_sys_exit = JoinReturned)
    by (vm_compute; reflexivity).
  assert (Eg : get_log (state process_after_sys_exit) = [Work (sample_item x01)])
    by (vm_compute; reflexivity).
  assert (Ep : put_log (state process_after_sys_exit) =
               map Work [sample_item x01; sample_item x02] ++ Quit :: [])
    by (vm_compute; reflexivity).
  assert (Hrun' : run (sample_config ATLEAST_ONCE true None)
                    (unprintable_env exclaim)
                    [Deliver DEFAULT_SERIALIZER sample_consumer (sample_message x01);
                     Deliver DEFAULT_SERIALIZER sample_consumer (sample_message x02);
                     JoinPut; WorkerTurn; JoinReturn]
                    (initial_process (sample_config ATLEAST_ONCE true None) 100) =
                  Some process_after_unprintable)
    by (vm_compute; reflexivity).
  assert (Et' : execution_thread process_after_unprintable =
                ThreadDied UnicodeEncodeError)
    by (vm_compute; reflexivity).
  split; [|split].
  - intros H. exact (H _ _ _ SystemExit Hrun Et).
  - intros H.
    destruct (H _ _ _ [sample_item x01; sample_item x02] [] Hrun Ep Ej) as [G _].
    rewrite Eg in G. discriminate.
  - intros H. exact (H _ _ _ UnicodeEncodeError Hrun' Et').
Qed.

(** * Further properties of the code *)

(** ** [base64ify] *)

Lemma bytes_ind3 (P : bytes → Prop) :
  P [] → (∀ a, P [a]) → (∀ a b, P [a; b]) →
  (∀ a b c rest, P rest → P (a :: b :: c :: rest)) →
  ∀ l, P l.
Proof.
  intros H0 H1 H2 H3.
  assert (H : ∀ n l, (length l ≤ n)%nat → P l).
  { induction n as [|n IH]; intros l Hl.
    - destruct l; [exact H0 | cbn in Hl; lia].
    - destruct l as [|a [|b [|c rest]]]; auto.
      apply H3, IH. cbn in Hl. lia. }
  intros l. apply (H (length l)). lia.
Qed.

Lemma encode_chars_length input :
  length (Base64.encode_chars input) = (4 * ((length input + 2) / 3))%nat.
Proof.
  induction input as [|a|a b|a b c rest IH] using bytes_ind3; try reflexivity.
  cbn [Base64.encode_chars length]. rewrite IH.
  replace (S (S (S (length rest))) + 2)%nat with ((length rest + 2) + 1 * 3)%nat by lia.
  rewrite Nat.div_add by lia. lia.
Qed.

Lemma string_of_list_byte_length l :
  String.length (string_of_list_byte l) = length l.
Proof.
  unfold string_of_list_byte.
  induction l as [|b l IH]; [reflexivity|]. cbn. f_equal. exact IH.
Qed.

Lemma list_byte_of_string_length s :
  length (list_byte_of_string s) = String.length s.
Proof.
  unfold list_byte_of_string. rewrite length_map.
  induction s as [|c s IH]; [reflexivity|]. cbn. f_equal. exact IH.
Qed.

Lemma base64ify_eq py3 x :
  base64ify py3 x =
    string_of_list_byte
      (Base64.urlsafe_b64encode
         (match x with PyBytes b => b | PyStr s => list_byte_of_string s end)).
Proof. destruct py3, x; reflexivity. Qed.

(** X1. The text [base64ify] returns is four characters for every three
    bytes of input, the last group rounded up: [4 * ceil(n / 3)] characters
    for [n] bytes, under Python 2 and 3 alike. *)
Theorem X1_base64ify_length (py3 : bool) (x : bytes_or_str) :
  String.length (base64ify py3 x) = (4 * ((input_size x + 2) / 3))%nat.
Proof.
  rewrite base64ify_eq, string_of_list_byte_length.
  unfold Base64.urlsafe_b64encode. rewrite length_map, encode_chars_length.
  destruct x; cbn [input_size]; rewrite ?list_byte_of_string_length; reflexivity.
Qed.

Lemma sextet_url_safe n : url_safe_char (Base64.sextet n) = true.
Proof.
  unfold Base64.sextet.
  assert (H : (N.land n 63 < 64)%N).
  { change 63%N with (N.ones 6). rewrite N.land_ones. apply N.mod_lt. discriminate. }
  generalize dependent (N.land n 63). intros k Hk.
  assert (Hn : (N.to_nat k < 64)%nat) by lia.
  generalize dependent (N.to_nat k). clear. intros k Hk.
  do 64 (destruct k as [|k]; [reflexivity|]). lia.
Qed.

Lemma encode_chars_url_safe input :
  Forall (fun c => url_safe_char c = true) (Base64.encode_chars input).
Proof.
  induction input as [|a|a b|a b c rest IH] using bytes_ind3;
    cbn [Base64.encode_chars]; repeat constructor;
    try apply sextet_url_safe; try reflexivity.
  exact IH.
Qed.

Lemma list_ascii_of_string_of_list_byte l :
  list_ascii_of_string (string_of_list_byte l) = map ascii_of_byte l.
Proof. unfold string_of_list_byte. apply list_ascii_of_string_of_list_ascii. Qed.

Lemma ascii_of_byte_of_ascii_list l :
  map ascii_of_byte (map byte_of_ascii l) = l.
Proof.
  induction l as [|c l IH]; [reflexivity|].
  cbn [map]. rewrite ascii_of_byte_of_ascii, IH. reflexivity.
Qed.

(** X2. Every character of the text [base64ify] returns is a letter, a
    digit, [-], [_] or the padding [=]: the text is ASCII (so that
    [decode('ascii')] cannot fail) and holds neither [+] nor [/]. *)
Theorem X2_base64ify_url_safe (py3 : bool) (x : bytes_or_str) :
  Forall (fun c => url_safe_char c = true)
         (list_ascii_of_string (base64ify py3 x)).
Proof.
  rewrite base64ify_eq, list_ascii_of_string_of_list_byte.
  unfold Base64.urlsafe_b64encode. rewrite ascii_of_byte_of_ascii_list.
  apply encode_chars_url_safe.
Qed.

Lemma index_of_sextet n :
  index_of (Base64.sextet n) Base64.urlsafe_alphabet = N.land n 63.
Proof.
  unfold Base64.sextet.
  assert (H : (N.land n 63 < 64)%N).
  { change 63%N with (N.ones 6). rewrite N.land_ones. apply N.mod_lt. discriminate. }
  rewrite <- (N2Nat.id (N.land n 63)) at 2.
  assert (Hn : (N.to_nat (N.land n 63) < 64)%nat) by lia.
  generalize dependent (N.to_nat (N.land n 63)). clear. intros k Hk.
  do 64 (destruct k as [|k]; [reflexivity|]). lia.
Qed.

Lemma sextet_not_pad n : Base64.sextet n ≠ Base64.pad.
Proof.
  intros H. pose proof (sextet_url_safe n) as U.
  pose proof (index_of_sextet n) as I. rewrite H in I.
  assert (B : (N.land n 63 < 64)%N).
  { change 63%N with (N.ones 6). rewrite N.land_ones. apply N.mod_lt. discriminate. }
  rewrite <- I in B. vm_compute in B. discriminate.
Qed.

Lemma sextet_bits x y j :
  Base64.sextet x = Base64.sextet y → (j < 6)%N → N.testbit x j = N.testbit y j.
Proof.
  intros H Hj.
  assert (E : N.land x 63 = N.land y 63).
  { rewrite <- !index_of_sextet, H. reflexivity. }
  apply (f_equal (fun v => N.testbit v j)) in E.
  rewrite !N.land_spec in E. change 63%N with (N.ones 6) in E.
  rewrite N.ones_spec_low, !andb_true_r in E by exact Hj. exact E.
Qed.

Lemma shifted_sextet_bits n n' k j :
  Base64.sextet (N.shiftr n k) = Base64.sextet (N.shiftr n' k) →
  (k <= j < k + 6)%N → N.testbit n j = N.testbit n' j.
Proof.
  intros H Hj. pose proof (sextet_bits _ _ (j - k) H ltac:(lia)) as E.
  rewrite !N.shiftr_spec' in E. replace (j - k + k)%N with j in E by lia. exact E.
Qed.

Lemma byte_bits_high a i : (8 <= i)%N → N.testbit (Byte.to_N a) i = false.
Proof.
  intros H. pose proof (Byte.to_N_bounded a) as B.
  destruct (N.eq_dec (Byte.to_N a) 0%N) as [->|Hz]; [apply N.bits_0|].
  apply N.bits_above_log2. apply N.log2_lt_pow2; [lia|].
  apply N.lt_le_trans with (2 ^ 8)%N; [change (2 ^ 8)%N with 256%N; lia|].
  apply N.pow_le_mono_r; [discriminate | exact H].
Qed.

Lemma byte_eq_bits a a' :
  (∀ i, (i < 8)%N → N.testbit (Byte.to_N a) i = N.testbit (Byte.to_N a') i) →
  a = a'.
Proof.
  intros H. assert (E : Byte.to_N a = Byte.to_N a').
  { apply N.bits_inj. intros i. destruct (N.lt_ge_cases i 8) as [L|G].
    - apply H, L.
    - rewrite !byte_bits_high by exact G. reflexivity. }
  pose proof (Byte.of_to_N a) as P. rewrite E, Byte.of_to_N in P. congruence.
Qed.

Lemma group_bits_a a b c i :
  (i < 8)%N →
  N.testbit (group (Byte.to_N a) (Byte.to_N b) (Byte.to_N c)) (i + 16) =
    N.testbit (Byte.to_N a) i.
Proof.
  intros H. unfold group. rewrite !N.lor_spec.
  rewrite (N.shiftl_spec_high' (Byte.to_N a)) by lia.
  rewrite (N.shiftl_spec_high' (Byte.to_N b)) by lia.
  replace (i + 16 - 16)%N with i by lia.
  rewrite (byte_bits_high b), (byte_bits_high c) by lia.
  rewrite !orb_false_r. reflexivity.
Qed.

Lemma group_bits_b a b c i :
  (i < 8)%N →
  N.testbit (group (Byte.to_N a) (Byte.to_N b) (Byte.to_N c)) (i + 8) =
    N.testbit (Byte.to_N b) i.
Proof.
  intros H. unfold group. rewrite !N.lor_spec.
  rewrite (N.shiftl_spec_low (Byte.to_N a)) by lia.
  rewrite (N.shiftl_spec_high' (Byte.to_N b)) by lia.
  replace (i + 8 - 8)%N with i by lia.
  rewrite (byte_bits_high c) by lia.
  rewrite !orb_false_r. reflexivity.
Qed.

Lemma group_bits_c a b c i :
  (i < 8)%N →
  N.testbit (group (Byte.to_N a) (Byte.to_N b) (Byte.to_N c)) i =
    N.testbit (Byte.to_N c) i.
Proof.
  intros H. unfold group. rewrite !N.lor_spec.
  rewrite (N.shiftl_spec_low (Byte.to_N a)) by lia.
  rewrite (N.shiftl_spec_low (Byte.to_N b)) by lia.
  reflexivity.
Qed.

Lemma group_one a : N.shiftl (Byte.to_N a) 16 = group (Byte.to_N a) (Byte.to_N x00) (Byte.to_N x00).
Proof. unfold group. cbn [Byte.to_N]. rewrite N.shiftl_0_l, !N.lor_0_r. reflexivity. Qed.

Lemma group_two a b :
  N.lor (N.shiftl (Byte.to_N a) 16) (N.shiftl (Byte.to_N b) 8) =
    group (Byte.to_N a) (Byte.to_N b) (Byte.to_N x00).
Proof. unfold group. cbn [Byte.to_N]. rewrite N.lor_0_r. reflexivity. Qed.

Ltac bit_from_sextet k :=
  apply (shifted_sextet_bits _ _ k);
  [ match goal with
    | H : Base64.sextet _ = Base64.sextet _ |- _ =>
        first [ exact H | rewrite !N.shiftr_0_r; exact H ]
    end
  | lia ].

Lemma group_to_N a b c :
  group (Byte.to_N a) (Byte.to_N b) (Byte.to_N c) =
    N.lor (N.lor (N.shiftl (Byte.to_N a) 16) (N.shiftl (Byte.to_N b) 8)) (Byte.to_N c).
Proof. reflexivity. Qed.

Lemma encode_chars_inj input1 : ∀ input2,
  Base64.encode_chars input1 = Base64.encode_chars input2 → input1 = input2.
Proof.
  induction input1 as [|a|a b|a b c rest IH] using bytes_ind3;
    intros [|a' [|b' [|c' rest']]] H;
    cbn [Base64.encode_chars] in H; try discriminate H; try reflexivity;
    cbv zeta in H; rewrite <- ?group_to_N in H; rewrite ?group_two in H; rewrite ?group_one in H;
    injection H; clear H; intros;
    try (exfalso;
         match goal with
         | H : Base64.sextet _ = Base64.pad |- _ => exact (sextet_not_pad _ H)
         | H : Base64.pad = Base64.sextet _ |- _ =>
             exact (sextet_not_pad _ (eq_sym H))
         end).
  - f_equal. apply byte_eq_bits. intros i Hi.
    rewrite <- (group_bits_a a x00 x00 i Hi), <- (group_bits_a a' x00 x00 i Hi).
    destruct (N.lt_ge_cases i 2); [bit_from_sextet 12%N | bit_from_sextet 18%N].
  - assert (Ea : a = a').
    { apply byte_eq_bits. intros i Hi.
      rewrite <- (group_bits_a a b x00 i Hi), <- (group_bits_a a' b' x00 i Hi).
      destruct (N.lt_ge_cases i 2); [bit_from_sextet 12%N | bit_from_sextet 18%N]. }
    assert (Eb : b = b').
    { apply byte_eq_bits. intros i Hi.
      rewrite <- (group_bits_b a b x00 i Hi), <- (group_bits_b a' b' x00 i Hi).
      destruct (N.lt_ge_cases i 4); [bit_from_sextet 6%N | bit_from_sextet 12%N]. }
    congruence.
  - assert (Ea : a = a').
    { apply byte_eq_bits. intros i Hi.
      rewrite <- (group_bits_a a b c i Hi), <- (group_bits_a a' b' c' i Hi).
      destruct (N.lt_ge_cases i 2); [bit_from_sextet 12%N | bit_from_sextet 18%N]. }
    assert (Eb : b = b').
    { apply byte_eq_bits. intros i Hi.
      rewrite <- (group_bits_b a b c i Hi), <- (group_bits_b a' b' c' i Hi).
      destruct (N.lt_ge_cases i 4); [bit_from_sextet 6%N | bit_from_sextet 12%N]. }
    assert (Ec : c = c').
    { apply byte_eq_bits. intros i Hi.
      rewrite <- (group_bits_c a b c i Hi), <- (group_bits_c a' b' c' i Hi).
      destruct (N.lt_ge_cases i 6); [bit_from_sextet 0%N | bit_from_sextet 6%N]. }
    match goal with
    | H : Base64.encode_chars _ = Base64.encode_chars _ |- _ => rewrite (IH _ H)
    end.
    congruence.
Qed.

Lemma urlsafe_b64encode_inj input1 input2 :
  Base64.urlsafe_b64encode input1 = Base64.urlsafe_b64encode input2 →
  input1 = input2.
Proof.
  unfold Base64.urlsafe_b64encode. intros H. apply encode_chars_inj.
  apply (f_equal (map ascii_of_byte)) in H.
  rewrite !ascii_of_byte_of_ascii_list in H. exact H.
Qed.

(** X3. [base64ify] loses nothing of a byte string: two byte strings
    with the same text are equal. Distinct serialized message ids therefore
    give distinct values of [__pfn_input_msg_id__]. *)
Theorem X3_base64ify_injective (py3 : bool) (b1 b2 : bytes) :
  base64ify py3 (PyBytes b1) = base64ify py3 (PyBytes b2) → b1 = b2.
Proof.
  rewrite !base64ify_eq. intros H. apply urlsafe_b64encode_inj.
  apply (f_equal list_byte_of_string) in H.
  rewrite !list_byte_of_string_of_list_byte in H. exact H.
Qed.

Lemma X3_witness : message_id (sample_message x01) = [x08; x01; x10; x00].
Proof.
  apply (X3_base64ify_injective true (message_id (sample_message x01))
           [x08; x01; x10; x00]).
  reflexivity.
Defined.


(** ** What one message does to the counters and to the trace *)

(** X4. A message on which the user function raises an instance of
    [Exception] costs the execution thread nothing: the turn returns, the
    user-exception counter of the instance goes up by one, the other three
    counters and the latency summary stay as they were, the time of the last
    invocation is that of the call, and the process does nothing to the
    outside but swap the log handlers there and back: the message is neither
    published nor acknowledged. *)
Theorem X4_user_exception_is_counted_and_dropped
    (cfg : Config) (env : Env) (s : State) (msg : InternalMessage)
    (rest : list queue_entry) (input : PyObject) (e : PyExc) (dt : Q) :
  queue s = Work msg :: rest →
  deserialize env (serde msg) (data (message msg)) = Returns input →
  user_call_for cfg env input msg s = (Raises e, dt) →
  isinstance_Exception e = true →
  ∃ s', loop_body cfg env s = (Normal Continue, s')
    ∧ counter cfg TOTAL_USER_EXCEPTIONS s' = (counter cfg TOTAL_USER_EXCEPTIONS s + 1)%Q
    ∧ counter cfg TOTAL_PROCESSED s' = counter cfg TOTAL_PROCESSED s
    ∧ counter cfg TOTAL_SUCCESSFULLY_PROCESSED s' =
        counter cfg TOTAL_SUCCESSFULLY_PROCESSED s
    ∧ counter cfg TOTAL_SYSTEM_EXCEPTIONS s' = counter cfg TOTAL_SYSTEM_EXCEPTIONS s
    ∧ latency_count cfg s' = latency_count cfg s
    ∧ latency_sum cfg s' = latency_sum cfg s
    ∧ last_invocation_time s' = (clock s * 1000)%Q
    ∧ trace s' =
        trace s ++ (if has_log_topic_handler cfg then [LogRedirect; LogRestore] else [])
    ∧ queue s' = rest.
Proof.
  intros Hq Hd Hu He. rewrite (loop_body_Work _ _ _ _ _ Hq). unfold handled.
  rewrite Hd, (user_call_for_eq _ _ _ _ _ _ _ Hq), Hu, He.
  eexists. split; [reflexivity|].
  destruct (log_event_views cfg LogRestore
              (recorded cfg TOTAL_USER_EXCEPTIONS e
                 (after_call dt (called_for cfg msg (dequeued s)))))
    as (L1 & L2 & L3 & L4 & L5).
  destruct (recorded_frame cfg TOTAL_USER_EXCEPTIONS e
              (after_call dt (called_for cfg msg (dequeued s))))
    as (R1 & R2 & R3 & R4 & R5 & R6 & R7 & R8 & R9).
  destruct (after_call_views dt (called_for cfg msg (dequeued s)))
    as (A1 & A2 & A3 & A4 & A5 & A6).
  destruct (called_for_views cfg msg s _ _ Hq) as (C1 & C2 & C3 & C4 & C5 & C6 & C7).
  unfold counter, latency_count, latency_sum, last_invocation_time.
  rewrite L1, L2, L3, L5, R1, R2, R3, R4, R5, R9, A2, A3, A5, C3, C7.
  unfold counter. rewrite A1, C1, C6.
  repeat split; counters; try reflexivity.
  all: destruct (has_log_topic_handler cfg);
    rewrite <- ?app_assoc, ?app_nil_r; reflexivity.
Qed.

Lemma X4_witness :
  let cfg := sample_config ATLEAST_ONCE true None in
  let env := sample_env always_raises in
  let s := one_item_queued cfg in
  ∃ s', loop_body cfg env s = (Normal Continue, s')
    ∧ counter cfg TOTAL_USER_EXCEPTIONS s' = (counter cfg TOTAL_USER_EXCEPTIONS s + 1)%Q
    ∧ counter cfg TOTAL_PROCESSED s' = counter cfg TOTAL_PROCESSED s
    ∧ counter cfg TOTAL_SUCCESSFULLY_PROCESSED s' =
        counter cfg TOTAL_SUCCESSFULLY_PROCESSED s
    ∧ counter cfg TOTAL_SYSTEM_EXCEPTIONS s' = counter cfg TOTAL_SYSTEM_EXCEPTIONS s
    ∧ latency_count cfg s' = latency_count cfg s
    ∧ latency_sum cfg s' = latency_sum cfg s
    ∧ last_invocation_time s' = (clock s * 1000)%Q
    ∧ trace s' =
        trace s ++ (if has_log_topic_handler cfg then [LogRedirect; LogRestore] else [])
    ∧ queue s' = [].
Proof.
  intros cfg env s.
  apply (X4_user_exception_is_counted_and_dropped cfg env s (sample_item x01) []
           "hello"%string ValueError (1 # 100)); reflexivity.
Defined.

(** X5. A message that the input serde cannot deserialize (the serde raises
    an instance of [Exception]) never reaches the user function. The outer
    handler first formats the exception for its log line. When [str(e)]
    returns, the turn returns, only the system-exception counter goes up,
    the exception is recorded with the time of the failure, the context
    still addresses the message before, and nothing happens on the outside:
    no log handler is swapped, nothing is published, the message is not
    acknowledged. When [str(e)] raises, what it raises leaves the loop: the
    message is gone from the queue, and nothing was counted or recorded. *)
Theorem X5_undeserializable_message_is_counted_and_dropped
    (cfg : Config) (env : Env) (s : State) (msg : InternalMessage)
    (rest : list queue_entry) (e : PyExc) :
  queue s = Work msg :: rest →
  deserialize env (serde msg) (data (message msg)) = Raises e →
  isinstance_Exception e = true →
  match str_of_exception env e with
  | Returns _ =>
      ∃ s', loop_body cfg env s = (Normal Continue, s')
        ∧ counter cfg TOTAL_SYSTEM_EXCEPTIONS s' =
            (counter cfg TOTAL_SYSTEM_EXCEPTIONS s + 1)%Q
        ∧ counter cfg TOTAL_PROCESSED s' = counter cfg TOTAL_PROCESSED s
        ∧ counter cfg TOTAL_SUCCESSFULLY_PROCESSED s' =
            counter cfg TOTAL_SUCCESSFULLY_PROCESSED s
        ∧ counter cfg TOTAL_USER_EXCEPTIONS s' = counter cfg TOTAL_USER_EXCEPTIONS s
        ∧ latest_sys_exception s' =
            ring_push (latest_sys_exception s) (format_exc e, py_int (clock s * 1000))
        ∧ invocations s' = invocations s
        ∧ last_invocation_time s' = last_invocation_time s
        ∧ contextimpl s' = contextimpl s
        ∧ trace s' = trace s
        ∧ queue s' = rest
  | Raises e' =>
      loop_body cfg env s =
        (Raise e', set_get_log (get_log s ++ [Work msg]) (set_queue rest s))
  end.
Proof.
  intros Hq Hd He. rewrite (loop_body_Work _ _ _ _ _ Hq). unfold handled, caught.
  rewrite Hd, He. destruct (str_of_exception env e) as [text|e'].
  - eexists. split; [reflexivity|].
    rewrite recorded_latest_sys_exception.
    unfold counter, last_invocation_time.
    recorded_views cfg TOTAL_SYSTEM_EXCEPTIONS e (dequeued s).
    unfold counter, latest_sys_exception, dequeued. rewrite Hq.
    cbn -[Qplus Qmult read_cell insert].
    repeat split; counters; reflexivity.
  - unfold dequeued. rewrite Hq. reflexivity.
Qed.

Lemma X5_witness :
  let cfg := sample_config ATLEAST_ONCE true None in
  let env := undecodable_env in
  let s := one_item_queued cfg in
  ∃ s', loop_body cfg env s = (Normal Continue, s')
    ∧ counter cfg TOTAL_SYSTEM_EXCEPTIONS s' =
        (counter cfg TOTAL_SYSTEM_EXCEPTIONS s + 1)%Q
    ∧ counter cfg TOTAL_PROCESSED s' = counter cfg TOTAL_PROCESSED s
    ∧ counter cfg TOTAL_SUCCESSFULLY_PROCESSED s' =
        counter cfg TOTAL_SUCCESSFULLY_PROCESSED s
    ∧ counter cfg TOTAL_USER_EXCEPTIONS s' = counter cfg TOTAL_USER_EXCEPTIONS s
    ∧ latest_sys_exception s' =
        ring_push (latest_sys_exception s)
          (format_exc UnicodeDecodeError, py_int (clock s * 1000))
    ∧ invocations s' = invocations s
    ∧ last_invocation_time s' = last_invocation_time s
    ∧ contextimpl s' = contextimpl s
    ∧ trace s' = trace s
    ∧ queue s' = [].
Proof.
  intros cfg env s.
  exact (X5_undeserializable_message_is_counted_and_dropped cfg env s
           (sample_item x01) [] UnicodeDecodeError eq_refl eq_refl eq_refl).
Defined.

Lemma process_result_without_sink cfg env output msg s :
  sink_configured cfg = false ∨ output = None →
  process_result cfg env output msg s =
    (Normal tt,
     if auto_ack cfg && atleast_once cfg
     then set_trace (trace s ++ [Acknowledge (consumer msg) (message msg)]) s
     else s).
Proof.
  intros H. unfold process_result.
  assert (E : when (auto_ack cfg && atleast_once cfg)
                (emit (Acknowledge (consumer msg) (message msg))) s =
              (Normal tt,
               if auto_ack cfg && atleast_once cfg
               then set_trace (trace s ++ [Acknowledge (consumer msg) (message msg)]) s
               else s))
    by (destruct (auto_ack cfg && atleast_once cfg); reflexivity).
  destruct output as [out|]; [|exact E].
  destruct H as [H|H]; [|discriminate]. rewrite H. exact E.
Qed.

(** X6. Without a sink topic (none, or the empty string), or when the user
    function returns [None], a message on which the user function returns is
    counted once as processed and once as successfully processed, its
    latency (the seconds the call took, times 1000) is observed once, and,
    in at-least-once mode with auto-ack, the message is acknowledged right
    away, after the log handlers were put back; in every other mode nothing
    is acknowledged. Nothing is published and no producer is created. *)
Theorem X6_success_without_sink_acknowledges
    (cfg : Config) (env : Env) (s : State) (msg : InternalMessage)
    (rest : list queue_entry) (input : PyObject) (out : option PyObject) (dt : Q) :
  queue s = Work msg :: rest →
  deserialize env (serde msg) (data (message msg)) = Returns input →
  user_call_for cfg env input msg s = (Returns out, dt) →
  sink_configured cfg = false ∨ out = None →
  ∃ s', loop_body cfg env s = (Normal Continue, s')
    ∧ counter cfg TOTAL_PROCESSED s' = (counter cfg TOTAL_PROCESSED s + 1)%Q
    ∧ counter cfg TOTAL_SUCCESSFULLY_PROCESSED s' =
        (counter cfg TOTAL_SUCCESSFULLY_PROCESSED s + 1)%Q
    ∧ counter cfg TOTAL_USER_EXCEPTIONS s' = counter cfg TOTAL_USER_EXCEPTIONS s
    ∧ counter cfg TOTAL_SYSTEM_EXCEPTIONS s' = counter cfg TOTAL_SYSTEM_EXCEPTIONS s
    ∧ latency_count cfg s' = (latency_count cfg s + 1)%Q
    ∧ (latency_sum cfg s' == latency_sum cfg s + dt * 1000)%Q
    ∧ last_invocation_time s' = (clock s * 1000)%Q
    ∧ trace s' =
        trace s
        ++ (if has_log_topic_handler cfg then [LogRedirect; LogRestore] else [])
        ++ (if auto_ack cfg && atleast_once cfg
            then [Acknowledge (consumer msg) (message msg)] else [])
    ∧ producer s' = producer s
    ∧ queue s' = rest.
Proof.
  intros Hq Hd Hu Hsink. rewrite (loop_body_Work _ _ _ _ _ Hq). unfold handled.
  rewrite Hd, (user_call_for_eq _ _ _ _ _ _ _ Hq), Hu.
  rewrite (process_result_without_sink _ _ _ _ _ Hsink).
  eexists. split; [reflexivity|].
  unfold counter, latency_count, latency_sum, last_invocation_time, processed,
    called_for, log_event, dequeued.
  rewrite Hq.
  destruct (has_log_topic_handler cfg), (auto_ack cfg && atleast_once cfg).
  all: cbn -[Qplus Qmult Qminus read_cell insert].
  all: repeat split; counters; rewrite <- ?app_assoc, ?app_nil_r; cbn [app];
         try reflexivity.
  all: ring.
Qed.

Lemma X6_witness :
  let cfg := sample_config ATLEAST_ONCE true None in
  let env := sample_env exclaim in
  let s := one_item_queued cfg in
  ∃ s', loop_body cfg env s = (Normal Continue, s')
    ∧ counter cfg TOTAL_PROCESSED s' = (counter cfg TOTAL_PROCESSED s + 1)%Q
    ∧ counter cfg TOTAL_SUCCESSFULLY_PROCESSED s' =
        (counter cfg TOTAL_SUCCESSFULLY_PROCESSED s + 1)%Q
    ∧ counter cfg TOTAL_USER_EXCEPTIONS s' = counter cfg TOTAL_USER_EXCEPTIONS s
    ∧ counter cfg TOTAL_SYSTEM_EXCEPTIONS s' = counter cfg TOTAL_SYSTEM_EXCEPTIONS s
    ∧ latency_count cfg s' = (latency_count cfg s + 1)%Q
    ∧ (latency_sum cfg s' == latency_sum cfg s + (1 # 100) * 1000)%Q
    ∧ last_invocation_time s' = (clock s * 1000)%Q
    ∧ trace s' =
        trace s
        ++ (if has_log_topic_handler cfg then [LogRedirect; LogRestore] else [])
        ++ (if auto_ack cfg && atleast_once cfg
            then [Acknowledge (consumer (sample_item x01)) (message (sample_item x01))]
            else [])
    ∧ producer s' = producer s
    ∧ queue s' = [].
Proof.
  intros cfg env s.
  apply (X6_success_without_sink_acknowledges cfg env s (sample_item x01) []
           "hello"%string (Some "hello!"%string) (1 # 100));
    first [ reflexivity | left; reflexivity ].
Defined.

Lemma process_result_serialize_raises cfg env out msg s sd t e :
  sink_configured cfg = true →
  output_serde s = Some sd →
  producer s = Some t →
  serialize env sd out = Raises e →
  process_result cfg env (Some out) msg s = (Raise e, s).
Proof.
  intros Hsink Hsd Hp He. unfold process_result. rewrite Hsink.
  cbv beta iota zeta delta [bind get gets when pass ret call raise].
  rewrite Hsd, bool_decide_eq_false_2 by discriminate. cbv beta iota.
  rewrite Hp, bool_decide_eq_false_2 by discriminate. cbv beta iota.
  rewrite Hsd, He. reflexivity.
Qed.

(** X7. With a sink, an output serde and a producer in place, an output
    that the serde fails to serialize (it raises an instance of [Exception])
    leaves the message counted as processed but not as successfully
    processed, and neither published nor acknowledged. The outer handler
    first formats the exception for its log line. When [str(e)] returns,
    the failure is counted and recorded as a system exception, with the
    time at which the user function returned, and the turn returns. When
    [str(e)] raises, what it raises leaves the loop, and no system
    exception is counted. *)
Theorem X7_unserializable_output_is_a_system_exception
    (cfg : Config) (env : Env) (s : State) (msg : InternalMessage)
    (rest : list queue_entry) (input out : PyObject) (dt : Q)
    (sd : Serde) (t : string) (e : PyExc) :
  queue s = Work msg :: rest →
  deserialize env (serde msg) (data (message msg)) = Returns input →
  user_call_for cfg env input msg s = (Returns (Some out), dt) →
  sink_configured cfg = true →
  output_serde s = Some sd →
  producer s = Some t →
  serialize env sd out = Raises e →
  isinstance_Exception e = true →
  ∃ s', snd (loop_body cfg env s) = s'
    ∧ counter cfg TOTAL_PROCESSED s' = (counter cfg TOTAL_PROCESSED s + 1)%Q
    ∧ counter cfg TOTAL_SUCCESSFULLY_PROCESSED s' =
        counter cfg TOTAL_SUCCESSFULLY_PROCESSED s
    ∧ counter cfg TOTAL_USER_EXCEPTIONS s' = counter cfg TOTAL_USER_EXCEPTIONS s
    ∧ trace s' =
        trace s ++ (if has_log_topic_handler cfg then [LogRedirect; LogRestore] else [])
    ∧ queue s' = rest
    ∧ match str_of_exception env e with
      | Returns _ =>
          fst (loop_body cfg env s) = Normal Continue
          ∧ counter cfg TOTAL_SYSTEM_EXCEPTIONS s' =
              (counter cfg TOTAL_SYSTEM_EXCEPTIONS s + 1)%Q
          ∧ latest_sys_exception s' =
              ring_push (latest_sys_exception s)
                (format_exc e, py_int ((clock s + dt) * 1000))
      | Raises e' =>
          fst (loop_body cfg env s) = Raise e'
          ∧ counter cfg TOTAL_SYSTEM_EXCEPTIONS s' =
              counter cfg TOTAL_SYSTEM_EXCEPTIONS s
          ∧ latest_sys_exception s' = latest_sys_exception s
      end.
Proof.
  intros Hq Hd Hu Hsink Hsd Hp Hs He.
  rewrite (loop_body_Work _ _ _ _ _ Hq). unfold handled, caught.
  rewrite Hd, (user_call_for_eq _ _ _ _ _ _ _ Hq), Hu.
  rewrite (process_result_serialize_raises cfg env out msg _ sd t e Hsink);
    [ | unfold processed, called_for, log_event, dequeued; rewrite Hq;
        destruct (has_log_topic_handler cfg); assumption ..
      | exact Hs ].
  rewrite He. eexists. split; [reflexivity|].
  destruct (str_of_exception env e) as [text|e']; cbn [fst snd].
  - rewrite recorded_latest_sys_exception.
    unfold counter.
    recorded_views cfg TOTAL_SYSTEM_EXCEPTIONS e
      (processed cfg dt (called_for cfg msg (dequeued s))).
    unfold counter, latest_sys_exception, processed, called_for, log_event, dequeued.
    rewrite Hq. destruct (has_log_topic_handler cfg).
    all: cbn -[Qplus Qmult Qminus read_cell insert].
    all: repeat split; counters; rewrite <- ?app_assoc, ?app_nil_r; reflexivity.
  - unfold counter, latest_sys_exception, processed, called_for, log_event, dequeued.
    rewrite Hq. destruct (has_log_topic_handler cfg).
    all: cbn -[Qplus Qmult Qminus read_cell insert].
    all: repeat split; counters; rewrite <- ?app_assoc, ?app_nil_r; reflexivity.
Qed.

Lemma X7_witness :
  let cfg := sample_config ATLEAST_ONCE true sink_topic_sample in
  let env := unserializable_env in
  let s := one_item_queued_routed cfg in
  ∃ s', snd (loop_body cfg env s) = s'
    ∧ counter cfg TOTAL_PROCESSED s' = (counter cfg TOTAL_PROCESSED s + 1)%Q
    ∧ counter cfg TOTAL_SUCCESSFULLY_PROCESSED s' =
        counter cfg TOTAL_SUCCESSFULLY_PROCESSED s
    ∧ counter cfg TOTAL_USER_EXCEPTIONS s' = counter cfg TOTAL_USER_EXCEPTIONS s
    ∧ trace s' =
        trace s ++ (if has_log_topic_handler cfg then [LogRedirect; LogRestore] else [])
    ∧ queue s' = []
    ∧ fst (loop_body cfg env s) = Normal Continue
    ∧ counter cfg TOTAL_SYSTEM_EXCEPTIONS s' =
        (counter cfg TOTAL_SYSTEM_EXCEPTIONS s + 1)%Q
    ∧ latest_sys_exception s' =
        ring_push (latest_sys_exception s)
          (format_exc TypeError, py_int ((clock s + (1 # 100)) * 1000)).
Proof.
  intros cfg env s.
  exact (X7_unserializable_output_is_a_system_exception cfg env s (sample_item x01) []
           "hello"%string "hello!"%string (1 # 100) DEFAULT_SERIALIZER
           "persistent://public/default/out"%string TypeError
           eq_refl eq_refl eq_refl eq_refl eq_refl eq_refl eq_refl eq_refl).
Defined.

(** ** Invariants of the queue and of the trace *)

(** The queue after a turn of the loop. *)
Lemma loop_body_queue cfg env s :
  queue (snd (loop_body cfg env s)) = drop 1 (queue s).
Proof.
  destruct (queue s) as [|entry rest] eqn:Hq.
  - rewrite (loop_body_empty _ _ _ Hq). exact Hq.
  - rewrite (loop_body_dequeues _ _ _ _ _ Hq). fold (turn cfg env entry).
    destruct (turn_same_queue cfg env entry (dequeued s)) as [(Q & _) _].
    rewrite Q. destruct (dequeued_spec _ _ _ Hq) as (D & _). rewrite D.
    reflexivity.
Qed.

Lemma same_logs_preserves (I : list queue_entry → Prop) {A} (m : M A) :
  spec same_logs any_kind m → preserves (fun s => I (queue s)) m.
Proof.
  apply spec_preserves. intros s s' (Hq & _) H. rewrite Hq. exact H.
Qed.

Lemma queue_put_bounded maxsize entry s :
  0 < maxsize →
  Z.of_nat (length (queue s)) <= maxsize →
  Z.of_nat (length (queue (snd (queue_put maxsize entry s)))) <= maxsize.
Proof.
  intros Hmax H. rewrite queue_put_eq. unfold queue_full.
  destruct (0 <? maxsize) eqn:E1; [|lia].
  destruct (maxsize <=? Z.of_nat (length (queue s))) eqn:E2; cbn; [exact H|].
  rewrite length_app. cbn. lia.
Qed.

(** X8. With a positive [max_buffered_tuples], the queue between the
    listeners and the execution thread never holds more entries than that,
    the sentinel of [join] included, whatever the listeners, the execution
    thread and the control calls do, and in whatever order. *)
Theorem X8_queue_never_exceeds_max_buffered_tuples
    (cfg : Config) (env : Env) (now : Q) (schedule : list action) (p : Process) :
  0 < max_buffered_tuples (instance_config cfg) →
  run cfg env schedule (initial_process cfg now) = Some p →
  Z.of_nat (length (queue (state p))) <= max_buffered_tuples (instance_config cfg).
Proof.
  intros Hmax Hrun.
  set (bounded := fun q : list queue_entry =>
         Z.of_nat (length q) <= max_buffered_tuples (instance_config cfg)).
  refine (run_invariant cfg env (fun s => bounded (queue s))
            _ _ _ _ _ _ _ _ _ _ schedule _ _ Hrun _).
  - intros sd c m s Hs. rewrite message_listener_eq.
    pose proof (queue_put_bounded _ (Work (item_of sd c m)) s Hmax Hs) as B.
    rewrite queue_put_eq in B.
    destruct (queue_full _ _); [exact Hs|].
    cbn in *. destruct (atmost_once cfg && auto_ack cfg); exact B.
  - intros s Hs. unfold bounded in *. rewrite loop_body_queue, length_drop. lia.
  - intros c m r. apply same_logs_preserves, done_producing_logs.
  - intros s Hs. apply (queue_put_bounded _ Quit s Hmax Hs).
  - intros dt. apply same_logs_preserves, elapse_logs.
  - apply same_logs_preserves, health_check_logs.
  - apply same_logs_preserves, watchdog_logs.
  - apply same_logs_preserves, get_function_status_logs.
  - apply same_logs_preserves, get_metrics_logs.
  - apply same_logs_preserves, get_and_reset_metrics_logs.
  - unfold bounded. cbn. lia.
Qed.

Lemma X8_witness :
  Z.of_nat (length (queue (state process_after_sample_schedule))) <=
    max_buffered_tuples (instance_config (sample_config ATLEAST_ONCE true None)).
Proof.
  apply (X8_queue_never_exceeds_max_buffered_tuples
           (sample_config ATLEAST_ONCE true None) (sample_env exclaim) 100
           sample_schedule process_after_sample_schedule).
  - reflexivity.
  - reflexivity.
Defined.

(** ** Modes that never acknowledge *)

Lemma quiet_preserves {A} (m : M A) :
  spec (emits quiet) any_kind m →
  preserves (fun s => acknowledgements (trace s) = []) m.
Proof.
  apply spec_preserves. intros s s' H Hs.
  rewrite (emits_quiet_acknowledgements _ _ H). exact Hs.
Qed.

Lemma loop_body_quiet_without_auto_ack cfg env :
  auto_ack cfg = false → spec (emits quiet) any_kind (loop_body cfg env).
Proof. intros H. quiet_go. Qed.

Lemma done_producing_quiet_without_auto_ack cfg c m result :
  auto_ack cfg = false →
  spec (emits quiet) any_kind (done_producing cfg c m result).
Proof. intros H. quiet_go. Qed.

Lemma message_listener_quiet cfg sd c m :
  auto_ack cfg = false ∨ atmost_once cfg = false →
  spec (emits quiet) any_kind (message_listener cfg sd c m).
Proof. intros [H|H]; quiet_go. Qed.

(** X9. With auto-ack switched off, or with the effectively-once
    guarantee, the instance never acknowledges a message: not at ingress,
    not after processing, not when a publish completes, whatever the
    results are. *)
Theorem X9_no_acknowledgement_without_auto_ack
    (cfg : Config) (env : Env) (now : Q) (schedule : list action) (p : Process) :
  auto_ack cfg = false ∨ processingGuarantees (details cfg) = EFFECTIVELY_ONCE →
  run cfg env schedule (initial_process cfg now) = Some p →
  acknowledgements (trace (state p)) = [].
Proof.
  intros Hmode Hrun.
  assert (Hloop : spec (emits quiet) any_kind (loop_body cfg env)).
  { destruct Hmode as [H|H].
    - apply loop_body_quiet_without_auto_ack, H.
    - apply loop_body_quiet. unfold atleast_once. rewrite H. reflexivity. }
  assert (Hdone : ∀ c m r, spec (emits quiet) any_kind (done_producing cfg c m r)).
  { intros c m r. destruct Hmode as [H|H].
    - apply done_producing_quiet_without_auto_ack, H.
    - apply done_producing_quiet. unfold atleast_once. rewrite H. reflexivity. }
  assert (Hlisten : ∀ sd c m,
            spec (emits quiet) any_kind (message_listener cfg sd c m)).
  { intros sd c m. apply message_listener_quiet. destruct Hmode as [H|H].
    - left. exact H.
    - right. unfold atmost_once. rewrite H. reflexivity. }
  refine (run_invariant cfg env (fun s => acknowledgements (trace s) = [])
            _ _ _ _ _ _ _ _ _ _ schedule _ _ Hrun _).
  - intros sd c m. apply quiet_preserves, Hlisten.
  - apply quiet_preserves, Hloop.
  - intros c m r. apply quiet_preserves, Hdone.
  - apply quiet_preserves. unfold join_put. apply queue_put_quiet.
  - intros dt. apply quiet_preserves, elapse_quiet.
  - apply quiet_preserves, health_check_quiet.
  - apply quiet_preserves, watchdog_quiet.
  - apply quiet_preserves, get_function_status_quiet.
  - apply quiet_preserves, get_metrics_quiet.
  - apply quiet_preserves, get_and_reset_metrics_quiet.
  - apply initial_process_no_acknowledgements.
Qed.

Lemma X9_witness :
  acknowledgements (trace (state process_after_sample_schedule_without_auto_ack)) = [].
Proof.
  apply (X9_no_acknowledgement_without_auto_ack
           (sample_config ATLEAST_ONCE false None) (sample_env exclaim) 100
           sample_schedule process_after_sample_schedule_without_auto_ack).
  - left. reflexivity.
  - reflexivity.
Defined.

(** ** The producer *)

Lemma no_routing_created_once tr :
  forallb (fun ev => negb (is_routing ev)) tr = true →
  created_once_before_sending tr = true.
Proof.
  induction tr as [|ev tr IH]; [reflexivity|]. cbn. unfold is_routing.
  intros H. apply andb_prop in H as [H1 H2].
  destruct (is_create_producer ev), (is_send_async ev); try discriminate.
  cbn. apply IH, H2.
Qed.

Lemma no_routing_snoc tr ev :
  forallb (fun ev => negb (is_routing ev)) tr = true →
  is_routing ev = false →
  forallb (fun ev => negb (is_routing ev)) (tr ++ [ev]) = true.
Proof.
  intros H E. rewrite forallb_app, H. cbn. rewrite E. reflexivity.
Qed.

Lemma created_once_snoc tr ev :
  created_once_before_sending tr = true →
  existsb is_create_producer tr = true →
  is_create_producer ev = false →
  created_once_before_sending (tr ++ [ev]) = true
  ∧ existsb is_create_producer (tr ++ [ev]) = true.
Proof.
  intros H1 H2 E. split; [|rewrite existsb_app, H2; reflexivity].
  induction tr as [|ev' tr IH]; [discriminate|]. cbn in *.
  destruct (is_create_producer ev').
  - rewrite forallb_app, H1. cbn. rewrite E. reflexivity.
  - apply andb_prop in H1 as [H1a H1b]. rewrite H1a. cbn. apply IH; assumption.
Qed.

Lemma created_first tr t :
  forallb (fun ev => negb (is_routing ev)) tr = true →
  created_once_before_sending (tr ++ [CreateProducer t]) = true
  ∧ existsb is_create_producer (tr ++ [CreateProducer t]) = true.
Proof.
  intros H. split; [|rewrite existsb_app; cbn; apply orb_true_r].
  induction tr as [|ev tr IH]; [reflexivity|]. cbn in *. unfold is_routing in H.
  apply andb_prop in H as [H1 H2].
  destruct (is_create_producer ev), (is_send_async ev); try discriminate.
  cbn. apply IH, H2.
Qed.

Lemma same_producer_refl s : same_producer s s.
Proof. split; [reflexivity | apply emits_refl]. Qed.

Lemma same_producer_trans s1 s2 s3 :
  same_producer s1 s2 → same_producer s2 s3 → same_producer s1 s3.
Proof.
  intros [A1 A2] [B1 B2]. split; [congruence | eapply emits_trans; eauto].
Qed.

Lemma not_routing_not_create evs :
  Forall (fun ev => is_routing ev = false) evs →
  forallb (fun ev => negb (is_create_producer ev)) evs = true
  ∧ forallb (fun ev => negb (is_routing ev)) evs = true.
Proof.
  induction 1 as [|ev evs Hev _ [IH1 IH2]]; [split; reflexivity|].
  cbn. rewrite IH1, IH2, Hev. unfold is_routing in Hev.
  apply orb_false_elim in Hev as [-> _]. split; reflexivity.
Qed.

Lemma created_once_app tr evs :
  Forall (fun ev => is_routing ev = false) evs →
  created_once_before_sending tr = true →
  existsb is_create_producer tr = true →
  created_once_before_sending (tr ++ evs) = true
  ∧ existsb is_create_producer (tr ++ evs) = true.
Proof.
  intros F H1 H2. split; [|rewrite existsb_app, H2; reflexivity].
  destruct (not_routing_not_create evs F) as [N _].
  induction tr as [|ev tr IH]; [discriminate|]. cbn in *.
  destruct (is_create_producer ev).
  - rewrite forallb_app, H1, N. reflexivity.
  - apply andb_prop in H1 as [H1a H1b]. rewrite H1a. cbn. apply IH; assumption.
Qed.

Lemma same_producer_consistent s s' :
  same_producer s s' → producer_consistent s → producer_consistent s'.
Proof.
  intros [Hp (evs & Ht & F)]. unfold producer_consistent. rewrite Hp, Ht.
  destruct (producer s).
  - intros [H1 H2]. apply created_once_app; assumption.
  - intros H. rewrite forallb_app, H. apply (not_routing_not_create evs F).
Qed.

Ltac same_producer_side :=
  idtac;
  lazymatch goal with
  | |- same_producer _ _ =>
      split;
      [ repeat case_match; reflexivity
      | repeat case_match;
        first [ apply emits_same_trace; reflexivity
              | apply emits_one; reflexivity ] ]
  | |- any_kind _ => exact I
  | |- _ => fail
  end.

Ltac same_producer_go :=
  spec_go same_producer_refl same_producer_trans any_kind same_producer_side.

Lemma message_listener_same_producer cfg sd c m :
  spec same_producer any_kind (message_listener cfg sd c m).
Proof. same_producer_go. Qed.

Lemma done_producing_same_producer cfg c m r :
  spec same_producer any_kind (done_producing cfg c m r).
Proof. same_producer_go. Qed.

Lemma join_put_same_producer cfg : spec same_producer any_kind (join_put cfg).
Proof. same_producer_go. Qed.

Lemma elapse_same_producer dt : spec same_producer any_kind (elapse dt).
Proof. same_producer_go. Qed.

Lemma health_check_same_producer : spec same_producer any_kind health_check.
Proof. same_producer_go. Qed.

Lemma watchdog_same_producer cfg :
  spec same_producer any_kind (process_spawner_health_check_timer cfg).
Proof. same_producer_go. Qed.

Lemma get_function_status_same_producer cfg :
  spec same_producer any_kind (get_function_status cfg).
Proof. same_producer_go. Qed.

Lemma get_metrics_same_producer cfg :
  spec same_producer any_kind (get_metrics cfg).
Proof. same_producer_go. Qed.

Lemma get_and_reset_metrics_same_producer cfg :
  spec same_producer any_kind (get_and_reset_metrics cfg).
Proof. same_producer_go. Qed.

Lemma setup_output_serde_same_producer cfg env :
  spec same_producer any_kind (setup_output_serde cfg env).
Proof. same_producer_go. Qed.

Lemma same_producer_preserves {A} (m : M A) :
  spec same_producer any_kind m → preserves producer_consistent m.
Proof. apply spec_preserves. exact same_producer_consistent. Qed.

Lemma setup_producer_step cfg env s :
  sink_configured cfg = true →
  producer_consistent s →
  producer_consistent
    (snd (when (bool_decide (producer s = None)) (setup_producer cfg env) s)).
Proof.
  intros Hsink Hs. unfold producer_consistent in Hs.
  destruct (producer s) as [t|] eqn:Hp.
  - rewrite bool_decide_eq_false_2 by discriminate. cbn.
    unfold producer_consistent. rewrite Hp. exact Hs.
  - rewrite bool_decide_eq_true_2 by reflexivity. cbn [when].
    unfold setup_producer, sink_configured in *.
    destruct (sink_topic (details cfg)) as [t|]; [|discriminate].
    rewrite Hsink. cbn [when].
    cbv beta iota zeta delta [bind call ret raise emit modify].
    destruct (create_producer env t); cbn.
    + unfold producer_consistent. cbn. apply created_first, Hs.
    + unfold producer_consistent. rewrite Hp. exact Hs.
Qed.

Lemma send_async_step payload props c m s :
  producer_consistent s →
  producer_consistent
    (snd (match producer s with
          | Some _ => emit (SendAsync payload props c m)
          | None => raise AttributeError
          end s)).
Proof.
  intros Hs. unfold producer_consistent in *.
  destruct (producer s) as [t|] eqn:Hp; cbn; rewrite Hp; [|exact Hs].
  destruct Hs as [H1 H2]. apply created_once_snoc; auto.
Qed.

Lemma process_result_producer_consistent cfg env output msg :
  preserves producer_consistent (process_result cfg env output msg).
Proof.
  assert (Hack : preserves producer_consistent
            (when (auto_ack cfg && atleast_once cfg)
               (emit (Acknowledge (consumer msg) (message msg)))))
    by (apply same_producer_preserves; same_producer_go).
  unfold process_result. destruct output as [out|]; [|exact Hack].
  destruct (sink_configured cfg) eqn:Hsink; [|exact Hack].
  intros s Hs. cbv beta iota zeta delta [bind get gets].
  pose proof (same_producer_preserves _
                (setup_output_serde_same_producer cfg env)) as Hserde.
  assert (H1 : producer_consistent
            (snd (when (bool_decide (output_serde s = None))
                    (setup_output_serde cfg env) s))).
  { destruct (bool_decide (output_serde s = None)); [apply Hserde, Hs | exact Hs]. }
  destruct (when (bool_decide (output_serde s = None))
              (setup_output_serde cfg env) s) as [[[]|e|] s1]; cbn [snd] in *;
    try exact H1.
  pose proof (setup_producer_step cfg env s1 Hsink H1) as H2.
  destruct (when (bool_decide (producer s1 = None)) (setup_producer cfg env) s1)
    as [[[]|e|] s2]; cbn [snd] in *; try exact H2.
  destruct (output_serde s2) as [sd|]; [|exact H2].
  destruct (serialize env sd out) as [[payload|]|e]; cbn; try exact H2.
  apply send_async_step, H2.
Qed.

(** Rules for [preserves]. *)

Section PreservesRules.

Variable I : State → Prop.

Lemma preserves_ret {A} (a : A) : preserves I (ret a).
Proof. intros s H. exact H. Qed.

Lemma preserves_gets {A} (f : State → A) : preserves I (gets f).
Proof. intros s H. exact H. Qed.

Lemma preserves_raise {A} e : preserves I (@raise A e).
Proof. intros s H. exact H. Qed.

Lemma preserves_block {A} : preserves I (@block A).
Proof. intros s H. exact H. Qed.

Lemma preserves_modify f : (∀ s, I s → I (f s)) → preserves I (modify f).
Proof. intros Hf s H. apply Hf, H. Qed.

Lemma preserves_bind {A B} (m : M A) (k : A → M B) :
  preserves I m → (∀ a, preserves I (k a)) → preserves I (bind m k).
Proof.
  intros Hm Hk s H. unfold bind. specialize (Hm s H).
  destruct (m s) as [[a|e|] s1]; cbn in *; [apply Hk, Hm | exact Hm | exact Hm].
Qed.

Lemma preserves_try {A} (body : M A) (handler : PyExc → M A) :
  preserves I body → (∀ e, preserves I (handler e)) →
  preserves I (try_except_Exception body handler).
Proof.
  intros Hb Hh s H. unfold try_except_Exception. specialize (Hb s H).
  destruct (body s) as [[a|e|] s1]; cbn in *; try exact Hb.
  destruct (isinstance_Exception e); [apply Hh, Hb | exact Hb].
Qed.

End PreservesRules.

(** [preserves_go hook side] walks a method down to its primitives; [hook]
    is tried first, for the parts that have a lemma of their own, and
    [side] closes the single updates of the state. *)
Ltac preserves_go hook side :=
  repeat (intros;
    first
      [ hook
      | lazymatch goal with
        | |- preserves _ (bind _ _) => apply preserves_bind
        | |- preserves _ (ret _) => apply preserves_ret
        | |- preserves _ pass => apply preserves_ret
        | |- preserves _ (gets _) => apply preserves_gets
        | |- preserves _ (raise _) => apply preserves_raise
        | |- preserves _ block => apply preserves_block
        | |- preserves _ (modify _) => apply preserves_modify
        | |- preserves _ (call ?o) => destruct o eqn:?; cbn [call]
        | |- preserves _ (when ?c _) => destruct c eqn:?; cbn [when]
        | |- preserves _ (try_except_Exception _ _) => apply preserves_try
        | |- preserves _ (match ?x with _ => _ end) => destruct x eqn:?
        | |- @preserves _ _ ?m => let h := head_of m in unfold h
        | |- _ => side
        end ]).

Lemma loop_body_producer_consistent cfg env :
  preserves producer_consistent (loop_body cfg env).
Proof.
  preserves_go
    ltac:(idtac; apply process_result_producer_consistent)
    ltac:(idtac;
          lazymatch goal with
          | |- producer_consistent _ =>
              first [ assumption
                    | eapply same_producer_consistent; [|eassumption];
                      split;
                      [ repeat case_match; reflexivity
                      | repeat case_match;
                        first [ apply emits_same_trace; reflexivity
                              | apply emits_one; reflexivity ] ] ]
          | |- _ => fail
          end).
Qed.

(** X10. The producer is created lazily and once: in every reachable state
    the trace holds at most one [create_producer] call, and no [send_async]
    before it; as long as the instance has no producer, nothing was created
    or sent. *)
Theorem X10_producer_created_once_before_sending
    (cfg : Config) (env : Env) (now : Q) (schedule : list action) (p : Process) :
  run cfg env schedule (initial_process cfg now) = Some p →
  created_once_before_sending (trace (state p)) = true
  ∧ (producer (state p) = None →
     forallb (fun ev => negb (is_routing ev)) (trace (state p)) = true).
Proof.
  intros Hrun.
  assert (H : producer_consistent (state p)).
  { refine (run_invariant cfg env producer_consistent
              _ _ _ _ _ _ _ _ _ _ schedule _ _ Hrun _).
    - intros sd c m.
      apply same_producer_preserves, message_listener_same_producer.
    - apply loop_body_producer_consistent.
    - intros c m r. apply same_producer_preserves, done_producing_same_producer.
    - apply same_producer_preserves, join_put_same_producer.
    - intros dt. apply same_producer_preserves, elapse_same_producer.
    - apply same_producer_preserves, health_check_same_producer.
    - apply same_producer_preserves, watchdog_same_producer.
    - apply same_producer_preserves, get_function_status_same_producer.
    - apply same_producer_preserves, get_metrics_same_producer.
    - apply same_producer_preserves, get_and_reset_metrics_same_producer.
    - unfold producer_consistent. cbn. destruct (py_gt _ _); reflexivity. }
  unfold producer_consistent in H. destruct (producer (state p)) as [t|].
  - split; [apply H | discriminate].
  - split; [apply no_routing_created_once, H | intros _; exact H].
Qed.

Lemma X10_witness :
  created_once_before_sending
    (trace (state process_after_sample_schedule_with_sink)) = true
  ∧ (producer (state process_after_sample_schedule_with_sink) = None →
     forallb (fun ev => negb (is_routing ev))
       (trace (state process_after_sample_schedule_with_sink)) = true).
Proof.
  apply (X10_producer_created_once_before_sending
           (sample_config ATLEAST_ONCE true sink_topic_sample)
           (sample_env exclaim) 100 sample_schedule
           process_after_sample_schedule_with_sink).
  reflexivity.
Defined.

(** ** The counters in a turn *)

Lemma same_counters_refl s : same_counters s s.
Proof. repeat split. Qed.

Lemma same_counters_trans s1 s2 s3 :
  same_counters s1 s2 → same_counters s2 s3 → same_counters s1 s3.
Proof. intros (A1 & A2 & A3) (B1 & B2 & B3). repeat split; congruence. Qed.

Ltac same_counters_side :=
  idtac;
  lazymatch goal with
  | |- same_counters _ _ =>
      unfold same_counters; repeat case_match; cbn; repeat split; reflexivity
  | |- any_kind _ => exact I
  | |- _ => fail
  end.

Ltac same_counters_go :=
  spec_go same_counters_refl same_counters_trans any_kind same_counters_side.

Lemma process_result_same_counters cfg env output msg :
  spec same_counters any_kind (process_result cfg env output msg).
Proof. same_counters_go. Qed.

Lemma processed_views cfg dt s :
  counter_values (stats_class (processed cfg dt s)) =
    <[(TOTAL_PROCESSED, metrics_labels cfg) :=
        (counter cfg TOTAL_PROCESSED s + 1)%Q]> (counter_values (stats_class s))
  ∧ summary_count (stats_class (processed cfg dt s)) =
      <[(PROCESS_LATENCY_MS, metrics_labels cfg) := (latency_count cfg s + 1)%Q]>
        (summary_count (stats_class s))
  ∧ queue (processed cfg dt s) = queue s
  ∧ producer (processed cfg dt s) = producer s
  ∧ output_serde (processed cfg dt s) = output_serde s
  ∧ clock (processed cfg dt s) = (clock s + dt)%Q
  ∧ trace (processed cfg dt s) =
      trace s ++ (if has_log_topic_handler cfg then [LogRestore] else []).
Proof.
  unfold processed, log_event.
  destruct (has_log_topic_handler cfg); cbn; rewrite ?app_nil_r; repeat split.
Qed.

Lemma counter_inc_views cfg metric s :
  counter_values (stats_class (snd (counter_inc metric (metrics_labels cfg) s))) =
    <[(metric, metrics_labels cfg) := (counter cfg metric s + 1)%Q]>
      (counter_values (stats_class s))
  ∧ trace (snd (counter_inc metric (metrics_labels cfg) s)) = trace s
  ∧ queue (snd (counter_inc metric (metrics_labels cfg) s)) = queue s.
Proof. repeat split. Qed.

Lemma dequeued_counter_values s :
  counter_values (stats_class (dequeued s)) = counter_values (stats_class s).
Proof. unfold dequeued. destruct (queue s); reflexivity. Qed.

Lemma called_for_counter_values cfg msg s :
  counter_values (stats_class (called_for cfg msg s)) =
    counter_values (stats_class s).
Proof.
  unfold called_for, log_event. destruct (has_log_topic_handler cfg); reflexivity.
Qed.

Lemma log_event_counter_values cfg ev s :
  counter_values (stats_class (log_event cfg ev s)) =
    counter_values (stats_class s).
Proof. unfold log_event. destruct (has_log_topic_handler cfg); reflexivity. Qed.

Section Counts.

Variable cfg : Config.
Variable env : Env.

(** The two counters a turn may raise by one: the count of successes only
    together with the processed count. *)
Lemma handled_success msg s :
  counter cfg TOTAL_SUCCESSFULLY_PROCESSED (snd (handled cfg env msg s)) =
    counter cfg TOTAL_SUCCESSFULLY_PROCESSED s
  ∨ (fst (handled cfg env msg s) = Normal Continue
     ∧ counter cfg TOTAL_SUCCESSFULLY_PROCESSED (snd (handled cfg env msg s)) =
         (counter cfg TOTAL_SUCCESSFULLY_PROCESSED s + 1)%Q
     ∧ counter cfg TOTAL_PROCESSED (snd (handled cfg env msg s)) =
         (counter cfg TOTAL_PROCESSED s + 1)%Q).
Proof.
  unfold handled, caught.
  destruct (deserialize env (serde msg) (data (message msg))) as [input|e].
  - destruct (user_call cfg env input (called_for cfg msg s)) as [[out|e] dt].
    + destruct (process_result_same_counters cfg env out msg
                  (processed cfg dt (called_for cfg msg s))) as [(F & _) _].
      destruct (processed_views cfg dt (called_for cfg msg s)) as (P & _).
      destruct (process_result cfg env out msg
                  (processed cfg dt (called_for cfg msg s))) as [[[]|e|] s3];
        cbn [snd] in *.
      * right. split; [reflexivity|]. cbn [snd].
        destruct (counter_inc_views cfg TOTAL_SUCCESSFULLY_PROCESSED s3) as (C & _).
        unfold counter. rewrite C. unfold counter. rewrite F, P. unfold counter.
        rewrite called_for_counter_values. split; counters; reflexivity.
      * left. destruct (isinstance_Exception e); cbn [snd];
          [destruct (str_of_exception env e); cbn [snd]|].
        -- destruct (recorded_frame cfg TOTAL_SYSTEM_EXCEPTIONS e s3) as (R & _).
           unfold counter. rewrite R. unfold counter. rewrite F, P. unfold counter.
           rewrite called_for_counter_values. counters; reflexivity.
        -- unfold counter. rewrite F, P. unfold counter.
           rewrite called_for_counter_values. counters; reflexivity.
        -- unfold counter. rewrite F, P. unfold counter.
           rewrite called_for_counter_values. counters; reflexivity.
      * left. unfold counter. rewrite F, P. unfold counter.
        rewrite called_for_counter_values. counters; reflexivity.
    + left. destruct (isinstance_Exception e); cbn [snd].
      * unfold counter. rewrite log_event_counter_values.
        destruct (recorded_frame cfg TOTAL_USER_EXCEPTIONS e
                    (after_call dt (called_for cfg msg s))) as (R & _).
        rewrite R. unfold counter. cbn [after_call stats_class set_clock
          set_invocations set_stats]. rewrite called_for_counter_values.
        counters; reflexivity.
      * unfold counter. cbn [after_call stats_class set_clock set_invocations
          set_stats]. rewrite called_for_counter_values. reflexivity.
  - left. destruct (isinstance_Exception e); cbn [snd]; [|reflexivity].
    destruct (str_of_exception env e); cbn [snd]; [|reflexivity].
    destruct (recorded_frame cfg TOTAL_SYSTEM_EXCEPTIONS e s) as (R & _).
    unfold counter. rewrite R. counters; reflexivity.
Qed.

(** What is left of the processed count when a turn does not count a
    success: it has not gone down. *)
Lemma handled_processed msg s :
  (counter cfg TOTAL_PROCESSED s <=
     counter cfg TOTAL_PROCESSED (snd (handled cfg env msg s)))%Q.
Proof.
  unfold handled, caught.
  destruct (deserialize env (serde msg) (data (message msg))) as [input|e].
  - destruct (user_call cfg env input (called_for cfg msg s)) as [[out|e] dt].
    + destruct (process_result_same_counters cfg env out msg
                  (processed cfg dt (called_for cfg msg s))) as [(F & _) _].
      destruct (processed_views cfg dt (called_for cfg msg s)) as (P & _).
      destruct (process_result cfg env out msg
                  (processed cfg dt (called_for cfg msg s))) as [[[]|e|] s3];
        cbn [snd] in *.
      * destruct (counter_inc_views cfg TOTAL_SUCCESSFULLY_PROCESSED s3) as (C & _).
        unfold counter. rewrite C. unfold counter. rewrite F, P. unfold counter.
        rewrite called_for_counter_values. counters; lra.
      * destruct (isinstance_Exception e); cbn [snd];
          [destruct (str_of_exception env e); cbn [snd]|].
        -- destruct (recorded_frame cfg TOTAL_SYSTEM_EXCEPTIONS e s3) as (R & _).
           unfold counter. rewrite R. unfold counter. rewrite F, P. unfold counter.
           rewrite called_for_counter_values. counters; lra.
        -- unfold counter. rewrite F, P. unfold counter.
           rewrite called_for_counter_values. counters; lra.
        -- unfold counter. rewrite F, P. unfold counter.
           rewrite called_for_counter_values. counters; lra.
      * unfold counter. rewrite F, P. unfold counter.
        rewrite called_for_counter_values. counters; lra.
    + destruct (isinstance_Exception e); cbn [snd].
      * unfold counter. rewrite log_event_counter_values.
        destruct (recorded_frame cfg TOTAL_USER_EXCEPTIONS e
                    (after_call dt (called_for cfg msg s))) as (R & _).
        rewrite R. unfold counter. cbn [after_call stats_class set_clock
          set_invocations set_stats]. rewrite called_for_counter_values.
        counters; lra.
      * unfold counter. cbn [after_call stats_class set_clock set_invocations
          set_stats]. rewrite called_for_counter_values. lra.
  - destruct (isinstance_Exception e); cbn [snd]; [|lra].
    destruct (str_of_exception env e); cbn [snd]; [|lra].
    destruct (recorded_frame cfg TOTAL_SYSTEM_EXCEPTIONS e s) as (R & _).
    unfold counter. rewrite R. counters; lra.
Qed.

End Counts.

(** X11. In a turn of the loop that nothing interrupts, a success is
    counted only after, and together with, a processed message: the turn
    leaves the count of successes as it was, or it returns with both counts
    up by one; the processed count never goes down. So a turn that starts
    with no more successes than processed messages ends so. (A
    [Stats.reset] from the control thread that falls between the two
    increments is not a turn of this kind.) *)
Theorem X11_success_is_counted_after_processed
    (cfg : Config) (env : Env) (s : State) :
  (counter cfg TOTAL_SUCCESSFULLY_PROCESSED (snd (loop_body cfg env s)) =
     counter cfg TOTAL_SUCCESSFULLY_PROCESSED s
   ∨ (fst (loop_body cfg env s) = Normal Continue
      ∧ counter cfg TOTAL_SUCCESSFULLY_PROCESSED (snd (loop_body cfg env s)) =
          (counter cfg TOTAL_SUCCESSFULLY_PROCESSED s + 1)%Q
      ∧ counter cfg TOTAL_PROCESSED (snd (loop_body cfg env s)) =
          (counter cfg TOTAL_PROCESSED s + 1)%Q))
  ∧ (counter cfg TOTAL_PROCESSED s <=
       counter cfg TOTAL_PROCESSED (snd (loop_body cfg env s)))%Q
  ∧ (counts_consistent cfg s → counts_consistent cfg (snd (loop_body cfg env s))).
Proof.
  assert (H : (counter cfg TOTAL_SUCCESSFULLY_PROCESSED (snd (loop_body cfg env s)) =
                 counter cfg TOTAL_SUCCESSFULLY_PROCESSED s
               ∨ (fst (loop_body cfg env s) = Normal Continue
                  ∧ counter cfg TOTAL_SUCCESSFULLY_PROCESSED
                      (snd (loop_body cfg env s)) =
                      (counter cfg TOTAL_SUCCESSFULLY_PROCESSED s + 1)%Q
                  ∧ counter cfg TOTAL_PROCESSED (snd (loop_body cfg env s)) =
                      (counter cfg TOTAL_PROCESSED s + 1)%Q))
              ∧ (counter cfg TOTAL_PROCESSED s <=
                   counter cfg TOTAL_PROCESSED (snd (loop_body cfg env s)))%Q).
  { destruct (queue s) as [|[msg|] rest] eqn:Hq.
    - rewrite (loop_body_empty _ _ _ Hq). split; [left; reflexivity | apply Qle_refl].
    - rewrite (loop_body_Work _ _ _ _ _ Hq).
      pose proof (handled_success cfg env msg (dequeued s)) as H1.
      pose proof (handled_processed cfg env msg (dequeued s)) as H2.
      unfold counter in *. rewrite dequeued_counter_values in H1, H2. auto.
    - rewrite (loop_body_quit _ _ _ _ Hq). cbn [fst snd]. unfold counter.
      rewrite dequeued_counter_values. split; [left; reflexivity | apply Qle_refl]. }
  destruct H as [H1 H2]. split; [exact H1|]. split; [exact H2|].
  unfold counts_consistent. intros Hc.
  destruct H1 as [E|(_ & E1 & E2)].
  - rewrite E. lra.
  - rewrite E1, E2. lra.
Qed.


(** ** The log handlers *)

Lemma log_handlers_after_app tr1 : ∀ b tr2,
  log_handlers_after b (tr1 ++ tr2) =
    match log_handlers_after b tr1 with
    | Some b' => log_handlers_after b' tr2
    | None => None
    end.
Proof.
  induction tr1 as [|ev tr1 IH]; intros b tr2; [reflexivity|].
  destruct ev; cbn; try apply IH; destruct b; try reflexivity; apply IH.
Qed.

Lemma log_handlers_after_other evs : ∀ b,
  Forall (fun ev => is_log_event ev = false) evs →
  log_handlers_after b evs = Some b.
Proof.
  induction evs as [|ev evs IH]; intros b F; [reflexivity|].
  inversion F as [|? ? Hev F']; subst.
  destruct ev; try discriminate; cbn; apply IH, F'.
Qed.

Lemma emits_other_log_handlers b b' s s' :
  emits (fun ev => is_log_event ev = false) s s' →
  log_handlers_after b (trace s) = Some b' →
  log_handlers_after b (trace s') = Some b'.
Proof.
  intros (evs & Ht & F) H.
  rewrite Ht, log_handlers_after_app, H. apply log_handlers_after_other, F.
Qed.

Ltac other_events_go :=
  spec_go (emits_refl (fun ev => is_log_event ev = false))
          (emits_trans (fun ev => is_log_event ev = false)) any_kind
          ltac:(idtac; emits_side ltac:(idtac; reflexivity)).

Lemma message_listener_no_log_event cfg sd c m :
  spec (emits (fun ev => is_log_event ev = false)) any_kind
       (message_listener cfg sd c m).
Proof. other_events_go. Qed.

Lemma done_producing_no_log_event cfg c m r :
  spec (emits (fun ev => is_log_event ev = false)) any_kind
       (done_producing cfg c m r).
Proof. other_events_go. Qed.

Lemma join_put_no_log_event cfg :
  spec (emits (fun ev => is_log_event ev = false)) any_kind (join_put cfg).
Proof. other_events_go. Qed.

Lemma elapse_no_log_event dt :
  spec (emits (fun ev => is_log_event ev = false)) any_kind (elapse dt).
Proof. other_events_go. Qed.

Lemma health_check_no_log_event :
  spec (emits (fun ev => is_log_event ev = false)) any_kind health_check.
Proof. other_events_go. Qed.

Lemma watchdog_no_log_event cfg :
  spec (emits (fun ev => is_log_event ev = false)) any_kind
       (process_spawner_health_check_timer cfg).
Proof. other_events_go. Qed.

Lemma get_function_status_no_log_event cfg :
  spec (emits (fun ev => is_log_event ev = false)) any_kind
       (get_function_status cfg).
Proof. other_events_go. Qed.

Lemma get_metrics_no_log_event cfg :
  spec (emits (fun ev => is_log_event ev = false)) any_kind (get_metrics cfg).
Proof. other_events_go. Qed.

Lemma get_and_reset_metrics_no_log_event cfg :
  spec (emits (fun ev => is_log_event ev = false)) any_kind
       (get_and_reset_metrics cfg).
Proof. other_events_go. Qed.

Lemma process_result_no_log_event cfg env output msg :
  spec (emits (fun ev => is_log_event ev = false)) any_kind
       (process_result cfg env output msg).
Proof. other_events_go. Qed.

Lemma no_log_event_preserves b {A} (m : M A) :
  spec (emits (fun ev => is_log_event ev = false)) any_kind m →
  preserves (fun s => log_handlers_after false (trace s) = Some b) m.
Proof.
  apply spec_preserves. intros s s' H. apply emits_other_log_handlers, H.
Qed.

Lemma redirect_restore cfg tr :
  log_handlers_after false tr = Some false →
  log_handlers_after false
    ((tr ++ (if has_log_topic_handler cfg then [LogRedirect] else []))
     ++ (if has_log_topic_handler cfg then [LogRestore] else [])) = Some false.
Proof.
  intros H. rewrite !log_handlers_after_app, H.
  destruct (has_log_topic_handler cfg); reflexivity.
Qed.

Section LogHandlers.

Variable cfg : Config.
Variable env : Env.

(** A turn that returns leaves the handlers of the process in place. *)
Lemma handled_restores msg s c s' :
  log_handlers_after false (trace s) = Some false →
  handled cfg env msg s = (Normal c, s') →
  log_handlers_after false (trace s') = Some false.
Proof.
  intros H. unfold handled, caught.
  assert (Hcalled : trace (called_for cfg msg s) =
                    trace s ++ (if has_log_topic_handler cfg then [LogRedirect] else [])).
  { unfold called_for, log_event.
    destruct (has_log_topic_handler cfg); cbn; rewrite ?app_nil_r; reflexivity. }
  destruct (deserialize env (serde msg) (data (message msg))) as [input|e].
  - destruct (user_call cfg env input (called_for cfg msg s)) as [[out|e] dt].
    + destruct (processed_views cfg dt (called_for cfg msg s))
        as (_ & _ & _ & _ & _ & _ & P).
      assert (HP : log_handlers_after false
                     (trace (processed cfg dt (called_for cfg msg s))) = Some false)
        by (rewrite P, Hcalled; apply redirect_restore, H).
      destruct (process_result_no_log_event cfg env out msg
                  (processed cfg dt (called_for cfg msg s))) as [F _].
      pose proof (emits_other_log_handlers _ _ _ _ F HP) as H3.
      destruct (process_result cfg env out msg
                  (processed cfg dt (called_for cfg msg s))) as [[[]|e|] s3];
        cbn [snd] in *.
      * intros [= <- <-]. exact H3.
      * destruct (isinstance_Exception e); [|discriminate].
        destruct (str_of_exception env e); [|discriminate].
        intros [= <- <-].
        destruct (recorded_frame cfg TOTAL_SYSTEM_EXCEPTIONS e s3)
          as (_ & _ & _ & _ & _ & _ & _ & _ & R).
        rewrite R. exact H3.
      * discriminate.
    + destruct (isinstance_Exception e); [|discriminate].
      intros [= <- <-].
      destruct (log_event_views cfg LogRestore
                  (recorded cfg TOTAL_USER_EXCEPTIONS e
                     (after_call dt (called_for cfg msg s))))
        as (_ & _ & _ & _ & L).
      destruct (recorded_frame cfg TOTAL_USER_EXCEPTIONS e
                  (after_call dt (called_for cfg msg s)))
        as (_ & _ & _ & _ & _ & _ & _ & _ & R).
      rewrite L, R. cbn [after_call trace set_clock set_invocations set_stats].
      rewrite Hcalled. apply redirect_restore, H.
  - destruct (isinstance_Exception e); [|discriminate].
    destruct (str_of_exception env e); [|discriminate].
    intros [= <- <-].
    destruct (recorded_frame cfg TOTAL_SYSTEM_EXCEPTIONS e s)
      as (_ & _ & _ & _ & _ & _ & _ & _ & R).
    rewrite R. exact H.
Qed.

Lemma step_log_handlers a p p' :
  step cfg env a p = Some p' →
  log_handlers_restored p → log_handlers_restored p'.
Proof.
  intros Hstep Hp.
  assert (Hcase : a = WorkerTurn ∨ a ≠ WorkerTurn)
    by (destruct a; first [left; reflexivity | right; discriminate]).
  destruct Hcase as [->|Ha].
  - unfold step in Hstep. destruct (negb (alive (state p))); [discriminate|].
    unfold log_handlers_restored in *.
    destruct (execution_thread p) eqn:Ht; try discriminate.
    destruct (queue (state p)) as [|[msg|] rest] eqn:Hq.
    + rewrite (loop_body_empty _ _ _ Hq) in Hstep. discriminate.
    + rewrite (loop_body_Work _ _ _ _ _ Hq) in Hstep.
      assert (Hd : log_handlers_after false (trace (dequeued (state p))) = Some false).
      { destruct (dequeued_spec _ _ _ Hq) as (_ & _ & _ & -> & _). exact Hp. }
      pose proof (handled_restores msg (dequeued (state p))) as Hh.
      destruct (handled cfg env msg (dequeued (state p))) as [[c|e|] s1];
        [|injection Hstep as <-; exact Logic.I | discriminate].
      specialize (Hh c s1 Hd eq_refl).
      destruct c; injection Hstep as <-; cbn; rewrite ?Ht; exact Hh.
    + rewrite (loop_body_quit _ _ _ _ Hq) in Hstep. injection Hstep as <-. cbn.
      destruct (dequeued_spec _ _ _ Hq) as (_ & _ & _ & -> & _). exact Hp.
  - unfold log_handlers_restored in *.
    rewrite (step_keeps_thread _ _ _ _ _ Ha Hstep).
    destruct (execution_thread p); [| |exact Logic.I].
    + refine (step_invariant_other cfg env
                (fun s => log_handlers_after false (trace s) = Some false)
                _ _ _ _ _ _ _ _ _ a p p' Ha Hstep Hp).
      * intros sd c m. apply no_log_event_preserves, message_listener_no_log_event.
      * intros c m r. apply no_log_event_preserves, done_producing_no_log_event.
      * apply no_log_event_preserves, join_put_no_log_event.
      * intros dt. apply no_log_event_preserves, elapse_no_log_event.
      * apply no_log_event_preserves, health_check_no_log_event.
      * apply no_log_event_preserves, watchdog_no_log_event.
      * apply no_log_event_preserves, get_function_status_no_log_event.
      * apply no_log_event_preserves, get_metrics_no_log_event.
      * apply no_log_event_preserves, get_and_reset_metrics_no_log_event.
    + refine (step_invariant_other cfg env
                (fun s => log_handlers_after false (trace s) = Some false)
                _ _ _ _ _ _ _ _ _ a p p' Ha Hstep Hp).
      * intros sd c m. apply no_log_event_preserves, message_listener_no_log_event.
      * intros c m r. apply no_log_event_preserves, done_producing_no_log_event.
      * apply no_log_event_preserves, join_put_no_log_event.
      * intros dt. apply no_log_event_preserves, elapse_no_log_event.
      * apply no_log_event_preserves, health_check_no_log_event.
      * apply no_log_event_preserves, watchdog_no_log_event.
      * apply no_log_event_preserves, get_function_status_no_log_event.
      * apply no_log_event_preserves, get_metrics_no_log_event.
      * apply no_log_event_preserves, get_and_reset_metrics_no_log_event.
Qed.

Lemma run_log_handlers schedule : ∀ p p',
  run cfg env schedule p = Some p' →
  log_handlers_restored p → log_handlers_restored p'.
Proof.
  induction schedule as [|a schedule IH]; intros p p' Hrun Hp; cbn in Hrun.
  - simplify_eq. exact Hp.
  - destruct (step cfg env a p) as [p1|] eqn:Hstep; [|discriminate].
    eapply IH; [exact Hrun|]. eapply step_log_handlers; eauto.
Qed.

End LogHandlers.

(** X12. With a log topic, the execution thread swaps the log handlers for
    the log topic handler around every call of the user function, and puts
    the saved handlers back before it routes the result, also when the user
    function raised an instance of [Exception]: in every reachable state in
    which the execution thread has not died, redirections and restorations
    alternate in the trace, and the handlers in place are the saved ones. *)
Theorem X12_log_handlers_restored_after_every_message
    (cfg : Config) (env : Env) (now : Q) (schedule : list action) (p : Process) :
  run cfg env schedule (initial_process cfg now) = Some p →
  (∀ e, execution_thread p ≠ ThreadDied e) →
  log_handlers_after false (trace (state p)) = Some false.
Proof.
  intros Hrun Hlive.
  assert (H : log_handlers_restored p).
  { apply (run_log_handlers cfg env schedule _ _ Hrun).
    unfold log_handlers_restored. cbn. destruct (py_gt _ _); reflexivity. }
  unfold log_handlers_restored in H.
  destruct (execution_thread p) as [| |e]; [exact H | exact H |].
  exfalso. exact (Hlive e eq_refl).
Qed.

Lemma X12_witness :
  log_handlers_after false
    (trace (state process_after_sample_schedule_with_log_topic)) = Some false.
Proof.
  apply (X12_log_handlers_restored_after_every_message logging_config
           (sample_env raises_every_second_time) 100 sample_schedule
           process_after_sample_schedule_with_log_topic).
  - reflexivity.
  - intros e. vm_compute. discriminate.
Defined.

(** ** The reports *)

(** X13. The two reports only read: whatever they return or raise, the
    state of the instance is as it was. Under Python 3 the status report is
    never returned: [long] is no builtin there, and the first statement
    that calls it raises [NameError]. A status that is returned says
    [running] and names the instance. Metrics that are returned are the
    user metrics of the context with the five system entries written over
    them: every other name is passed through, and each system entry has
    [count], [sum] and [max] equal and [min] zero. *)
Theorem X13_reports_only_read (cfg : Config) (s : State) :
  snd (get_function_status cfg s) = s
  ∧ snd (get_metrics cfg s) = s
  ∧ (PY3 cfg = true → fst (get_function_status cfg s) = Raise NameError_long)
  ∧ (∀ st, fst (get_function_status cfg s) = Normal st →
       PY3 cfg = false
       ∧ running st = true
       ∧ instanceId st = instance_id (instance_config cfg))
  ∧ (∀ metrics, fst (get_metrics cfg s) = Normal metrics →
       (∀ name, name ∉ system_metric_names →
          metrics !! name = user_metrics (contextimpl s) !! name)
       ∧ (∀ name, name ∈ system_metric_names →
            ∃ value, metrics !! name = Some (system_digest value))).
Proof.
  destruct (average_latency_total cfg s) as [avg Havg].
  rewrite (get_metrics_eq _ _ _ Havg).
  destruct (PY3 cfg) eqn:H3.
  - rewrite (get_function_status_py3 _ _ H3). cbn [fst snd].
    split; [reflexivity|]. split; [reflexivity|]. split; [reflexivity|].
    split; [discriminate|].
    intros metrics [= <-]. split.
    + intros name Hname. unfold system_metric_names in Hname.
      rewrite !add_system_metrics_lookup_ne; [reflexivity|..];
        intros <-; apply Hname; set_solver.
    + intros name Hname. unfold system_metric_names in Hname.
      repeat (apply elem_of_cons in Hname as [->|Hname]);
        [..|apply elem_of_nil in Hname; destruct Hname];
        eexists;
        rewrite ?add_system_metrics_lookup_ne by discriminate;
        apply add_system_metrics_lookup.
  - rewrite (get_function_status_eq _ _ _ H3 Havg). cbn [fst snd].
    split; [reflexivity|]. split; [reflexivity|]. split; [discriminate|].
    split; [intros st [= <-]; repeat split|].
    intros metrics [= <-]. split.
    + intros name Hname. unfold system_metric_names in Hname.
      rewrite !add_system_metrics_lookup_ne; [reflexivity|..];
        intros <-; apply Hname; set_solver.
    + intros name Hname. unfold system_metric_names in Hname.
      repeat (apply elem_of_cons in Hname as [->|Hname]);
        [..|apply elem_of_nil in Hname; destruct Hname];
        eexists;
        rewrite ?add_system_metrics_lookup_ne by discriminate;
        apply add_system_metrics_lookup.
Qed.

(** ** The exception lists of the class and of the object *)

Lemma Stats_reset_views labels s :
  let s1 := snd (Stats_reset labels s) in
  own_latest_user_exception (stats s1) = Some []
  ∧ own_latest_sys_exception (stats s1) = Some []
  ∧ class_latest_user_exception (stats_class s1) =
      class_latest_user_exception (stats_class s)
  ∧ class_latest_sys_exception (stats_class s1) =
      class_latest_sys_exception (stats_class s)
  ∧ clock s1 = clock s.
Proof. repeat split. Qed.

(** X14. The two exception lists start as attributes of the class [Stats]:
    as long as an object was never reset, what it records goes into the
    list of the class, which every [Stats] object of the process reads.
    [reset] does not empty that list: it gives the object two empty lists
    of its own, so that the object reports no exceptions any more while a
    new [Stats()] still reports the old ones; what the object records after
    the reset goes into its own list and leaves that of the class alone. *)
Theorem X14_reset_rebinds_the_exception_lists
    (labels : list string) (e : PyExc) (s : State) :
  (own_latest_sys_exception (stats s) = None →
   class_latest_sys_exception (stats_class (snd (add_sys_exception e s))) =
     ring_push (class_latest_sys_exception (stats_class s))
       (format_exc e, py_int (clock s * 1000)))
  ∧ (let s1 := snd (Stats_reset labels s) in
     latest_sys_exception s1 = []
     ∧ latest_user_exception s1 = []
     ∧ latest_sys_exception (set_stats new_Stats s1) =
         class_latest_sys_exception (stats_class s)
     ∧ latest_user_exception (set_stats new_Stats s1) =
         class_latest_user_exception (stats_class s)
     ∧ (let s2 := snd (add_sys_exception e s1) in
        latest_sys_exception s2 = [(format_exc e, py_int (clock s * 1000))]
        ∧ latest_sys_exception (set_stats new_Stats s2) =
            class_latest_sys_exception (stats_class s))).
Proof.
  split.
  - intros Hown.
    destruct (add_sys_exception_spec e s) as (_ & H & _).
    unfold latest_sys_exception in H at 2. rewrite Hown in H. rewrite <- H.
    rewrite add_sys_exception_unfold. cbv zeta.
    unfold mutate_latest_sys_exception, modify, latest_sys_exception.
    rewrite Hown. cbn. rewrite Hown. cbn.
    match goal with
    | |- context [if ?c then _ else _] => destruct c
    end; cbn; rewrite ?Hown; reflexivity.
  - cbv zeta.
    destruct (Stats_reset_views labels s) as (V1 & V2 & V3 & V4 & V5).
    cbv zeta in *. set (s1 := snd (Stats_reset labels s)) in *.
    split; [unfold latest_sys_exception; rewrite V2; reflexivity|].
    split; [unfold latest_user_exception; rewrite V1; reflexivity|].
    split; [unfold latest_sys_exception; cbn; exact V4|].
    split; [unfold latest_user_exception; cbn; exact V3|].
    destruct (add_sys_exception_spec e s1) as (_ & H & _).
    split.
    + rewrite H. unfold latest_sys_exception at 1. rewrite V2, V5. reflexivity.
    + unfold latest_sys_exception. cbn [stats set_stats new_Stats
        own_latest_sys_exception stats_class].
      rewrite <- V4. rewrite add_sys_exception_unfold. cbv zeta.
      unfold mutate_latest_sys_exception, modify, latest_sys_exception.
      rewrite V2. cbn. reflexivity.
Qed.

Lemma X14_witness :
  let s := initial_state (sample_config ATLEAST_ONCE true None) 100 in
  class_latest_sys_exception
    (stats_class (snd (add_sys_exception ValueError s))) =
    ring_push (class_latest_sys_exception (stats_class s))
      (format_exc ValueError, py_int (clock s * 1000)).
Proof.
  intros s.
  apply (proj1 (X14_reset_rebinds_the_exception_lists [] ValueError s)).
  reflexivity.
Defined.

(** ** The loop without a sentinel *)

Section Waiting.

Variable cfg : Config.
Variable env : Env.

Lemma actual_execution_never_exits fuel : ∀ s items,
  queue s = map Work items →
  fst (actual_execution cfg env fuel s) ≠ Normal (Some tt).
Proof.
  induction fuel as [|fuel IH]; intros s items Hq; [discriminate|].
  cbn [actual_execution]. unfold bind.
  destruct items as [|item items]; cbn [map] in Hq.
  - rewrite (loop_body_empty _ _ _ Hq). discriminate.
  - rewrite (loop_body_dequeues _ _ _ _ _ Hq). fold (turn cfg env (Work item)).
    destruct (dequeued_spec _ _ _ Hq) as (D1 & _).
    destruct (turn_same_queue cfg env (Work item) (dequeued s)) as [(Q1 & _) _].
    pose proof (turn_returns_Continue cfg env item (dequeued s)) as Hc.
    destruct (turn cfg env (Work item) (dequeued s)) as [[c|e|] s1];
      cbn [fst snd] in *; try discriminate.
    rewrite (Hc c eq_refl). apply (IH s1 items). congruence.
Qed.

End Waiting.

Section WaitingOrDying.

Variable cfg : Config.
Variable env : Env.
Variable bad : PyExc → Prop.
Hypothesis turn_raises_bad :
  ∀ entry s e, fst (turn cfg env entry s) = Raise e → bad e.

Lemma actual_execution_waits items : ∀ s fuel,
  queue s = map Work items →
  (length items < fuel)%nat →
  waits_after cfg env fuel s items ∨ dies_of cfg env fuel s items bad.
Proof.
  induction items as [|item items IH]; intros s fuel Hq Hfuel;
    (destruct fuel as [|fuel]; [cbn in Hfuel; lia|]);
    cbn [map] in Hq; unfold waits_after, dies_of;
    cbn [actual_execution]; unfold bind at 1; unfold bind at 1.
  - rewrite (loop_body_empty _ _ _ Hq). left. exists s.
    rewrite app_nil_r. cbn [length Z.of_nat].
    repeat split; try reflexivity; [|exact Hq].
    change (inject_Z 0) with 0%Q. ring.
  - rewrite (loop_body_dequeues _ _ _ _ _ Hq), handle_each_cons.
    fold (turn cfg env (Work item)).
    destruct (dequeued_spec _ _ _ Hq) as (D1 & D2 & D3 & _).
    destruct (turn_same_queue cfg env (Work item) (dequeued s))
      as [(Q1 & Q2 & Q3 & _) [Hw _]].
    pose proof (turn_attempted cfg env item (dequeued s)) as Ha.
    pose proof (turn_raises_bad (Work item) (dequeued s)) as Hb.
    destruct (turn cfg env (Work item) (dequeued s)) as [[c|e|] s1];
      cbn [fst snd kind_of] in *.
    + destruct (Ha c s1 eq_refl) as (-> & Ho & _).
      rewrite outcomes_dequeued in Ho.
      assert (Hq1 : queue s1 = map Work items) by congruence.
      assert (Hf : (length items < fuel)%nat) by (cbn in Hfuel; lia).
      destruct (IH s1 fuel Hq1 Hf)
        as [(s2 & E1 & E2 & O & Q & G & P)|(e & s' & E1 & E2 & B)].
      * left. exists s2. rewrite E1, E2, G, Q, P, Q2, Q3, D2, D3.
        rewrite <- !app_assoc. repeat split; try reflexivity.
        rewrite O, Ho. cbn [length]. rewrite Nat2Z.inj_succ, <- Z.add_1_r.
        rewrite inject_Z_plus. change (inject_Z 1) with 1%Q. ring.
      * right. exists e, s'. auto.
    + right. exists e, s1. auto.
    + exfalso. apply Hw. reflexivity.
Qed.

End WaitingOrDying.

(** X15. Without the sentinel the loop of [actual_execution] does not
    exit. On a queue that holds N work items and no sentinel the loop never
    exits by [break], however many turns it takes; within N+1 turns that nothing
    interrupts it either is left, in the turn of one of the items, by an
    exception that is no instance of [Exception] or that [str(e)] raised in
    the outer handler, or it has handled every item, one after the other,
    each with one of the three counted outcomes, and waits in [queue.get]
    on the empty queue. With collaborators that raise nothing but instances
    of [Exception], and whose exceptions have a text, it is the latter. *)
Theorem X15_loop_waits_without_sentinel (cfg : Config) (env : Env) :
  (∀ fuel s items,
     queue s = map Work items →
     fst (actual_execution cfg env fuel s) ≠ Normal (Some tt))
  ∧ (∀ fuel s items,
       queue s = map Work items →
       (length items < fuel)%nat →
       waits_after cfg env fuel s items
       ∨ dies_of cfg env fuel s items (leaves_the_loop env))
  ∧ (well_behaved env →
     ∀ fuel s items,
       queue s = map Work items →
       (length items < fuel)%nat →
       waits_after cfg env fuel s items).
Proof.
  split; [|split].
  - intros fuel s items. apply actual_execution_never_exits.
  - intros fuel s items Hq Hfuel.
    apply (actual_execution_waits cfg env (leaves_the_loop env)
             (turn_raises_leaving cfg env) items s fuel Hq Hfuel).
  - intros W fuel s items Hq Hfuel.
    destruct (actual_execution_waits cfg env (fun _ => False)
                (fun entry s0 e => turn_raises_nothing cfg env entry s0 e W)
                items s fuel Hq Hfuel) as [H|(e & s' & _ & _ & [])].
    exact H.
Qed.

Lemma sample_env_exclaim_well_behaved : well_behaved (sample_env exclaim).
Proof. constructor; intros; cbn; unfold has_text; eauto. Qed.

Lemma X15_witness :
  let cfg := sample_config ATLEAST_ONCE true None in
  let env := sample_env exclaim in
  fst (actual_execution cfg env 5%nat two_items_waiting) ≠ Normal (Some tt)
  ∧ waits_after cfg env 5%nat two_items_waiting
      [sample_item x01; sample_item x02].
Proof.
  intros cfg env. split.
  - apply (proj1 (X15_loop_waits_without_sentinel cfg env) 5%nat two_items_waiting
             [sample_item x01; sample_item x02]).
    reflexivity.
  - apply (proj2 (proj2 (X15_loop_waits_without_sentinel cfg env))
             sample_env_exclaim_well_behaved 5%nat two_items_waiting
             [sample_item x01; sample_item x02]).
    + reflexivity.
    + cbn. lia.
Defined.

(** ** Start-up *)

Section StartupProperties.

Variable cfg : Config.
Variable source : Startup.SourceSpec.
Variable env : Env.
Variable senv : Startup.StartupEnv.
Hypothesis Hok : subscriptions_succeed env senv.

Local Open Scope startup_scope.

Lemma startup_bind_Normal {A B} (m : Startup.M A) (k : A → Startup.M B) i a i1 :
  m i = (Normal a, i1) → Startup.bind m k i = k a i1.
Proof. intros H. unfold Startup.bind. rewrite H. reflexivity. Qed.

Lemma loop_outcome_nil i : loop_outcome i i [] [].
Proof.
  unfold loop_outcome. cbn [map list_to_set].
  rewrite app_nil_r, !(right_id_L ∅ (∪)). repeat split.
Qed.

Lemma loop_outcome_cons i i1 i2 call calls topic topics :
  loop_outcome i i1 [call] [topic] →
  loop_outcome i1 i2 calls topics →
  loop_outcome i i2 (call :: calls) (topic :: topics).
Proof.
  intros (A1 & A2 & A3 & A4 & A5 & A6 & A7 & A8 & A9)
         (B1 & B2 & B3 & B4 & B5 & B6 & B7 & B8 & B9).
  unfold loop_outcome. repeat split; try congruence.
  - rewrite B1, A1. cbn. rewrite <- app_assoc. reflexivity.
  - rewrite B2, A2. cbn [list_to_set].
    rewrite (right_id_L ∅ (∪)), (assoc_L (∪)). reflexivity.
  - rewrite B3, A3. cbn [list_to_set].
    rewrite (right_id_L ∅ (∪)), (assoc_L (∪)). reflexivity.
Qed.

Lemma for_each_outcome {A} (xs : list A) (body : A → Startup.M unit)
    (call_of : A → Startup.SubscribeCall) (topic_of : A → string)
    (timeout : option Z) :
  (∀ x i, Startup.timeout_ms i = timeout →
     ∃ i1, body x i = (Normal tt, i1)
           ∧ loop_outcome i i1 [call_of x] [topic_of x]) →
  ∀ i, Startup.timeout_ms i = timeout →
    ∃ i', Startup.for_each xs body i = (Normal tt, i')
          ∧ loop_outcome i i' (map call_of xs) (map topic_of xs).
Proof.
  intros Hbody. induction xs as [|x xs IH]; intros i Hi.
  - exists i. split; [reflexivity | apply loop_outcome_nil].
  - destruct (Hbody x i Hi) as (i1 & E1 & O1).
    assert (Hi1 : Startup.timeout_ms i1 = timeout).
    { destruct O1 as (_ & _ & _ & T & _). congruence. }
    destruct (IH i1 Hi1) as (i2 & E2 & O2).
    exists i2. split.
    + cbn [Startup.for_each]. rewrite (startup_bind_Normal _ _ _ _ _ E1). exact E2.
    + cbn [map]. eapply loop_outcome_cons; eauto.
Qed.

Lemma expected_mode :
  (if decide (Startup.subscriptionType source = Startup.FAILOVER)
   then Startup.Failover else Startup.Shared) =
  match Startup.subscriptionType source with
  | Startup.FAILOVER => Startup.Failover
  | Startup.SHARED => Startup.Shared
  end.
Proof. destruct (Startup.subscriptionType source); reflexivity. Qed.

(** One subscription, as the bodies of the two loops make it. *)
Lemma subscribe_one topic class_name regex i :
  Startup.timeout_ms i =
    (if 0 <? Startup.timeoutMs source then Some (Startup.timeoutMs source) else None) →
  ∃ sd consumer,
    import_serde env
      (if Startup.not_str class_name then DEFAULT_SERIALIZER else class_name) =
      Returns sd
    ∧ Startup.subscribe senv
        (expected_subscription cfg source env senv topic class_name regex) =
        Returns consumer
    ∧ loop_outcome i
        (Startup.set_consumers
           (<[topic := consumer]>
              (Startup.consumers
                 (Startup.set_events
                    (Startup.events i ++
                     [Startup.Subscribed
                        (expected_subscription cfg source env senv topic
                           class_name regex)])
                    (Startup.set_input_serdes
                       (<[topic := sd]> (Startup.input_serdes i)) i))))
           (Startup.set_events
              (Startup.events i ++
               [Startup.Subscribed
                  (expected_subscription cfg source env senv topic class_name regex)])
              (Startup.set_input_serdes
                 (<[topic := sd]> (Startup.input_serdes i)) i)))
        [expected_subscription cfg source env senv topic class_name regex] [topic].
Proof.
  intros Hi. destruct Hok as (Himport & Hsub & _).
  destruct (Himport (if Startup.not_str class_name then DEFAULT_SERIALIZER
                     else class_name)) as [sd Hsd].
  destruct (Hsub (expected_subscription cfg source env senv topic class_name regex))
    as [consumer Hc].
  exists sd, consumer. split; [exact Hsd|]. split; [exact Hc|].
  unfold loop_outcome. cbn. rewrite !dom_insert_L.
  rewrite !(right_id_L ∅ (∪)).
  repeat split; apply (comm_L (∪)).
Qed.

Lemma run_eq :
  Startup.run cfg source env senv =
    Startup.bind
      (Startup.for_each (Startup.topicsToSerDeClassName source)
         (first_loop_body cfg source env senv))
      (fun _ =>
         Startup.bind
           (Startup.for_each (Startup.inputSpecs source)
              (second_loop_body cfg source env senv))
           (fun _ => load_and_launch cfg source env senv)).
Proof. reflexivity. Qed.

Lemma first_loop_body_outcome x i :
  Startup.timeout_ms i =
    (if 0 <? Startup.timeoutMs source then Some (Startup.timeoutMs source) else None) →
  ∃ i1, first_loop_body cfg source env senv x i = (Normal tt, i1)
        ∧ loop_outcome i i1
            [expected_subscription cfg source env senv (fst x) (snd x) false]
            [fst x].
Proof.
  intros Hi. destruct x as [topic class_name]. cbn [fst snd].
  destruct (subscribe_one topic class_name false i Hi) as (sd & consumer & E1 & E2 & O).
  eexists. split; [|exact O].
  unfold first_loop_body.
  cbv beta iota zeta delta [Startup.bind Startup.gets Startup.modify Startup.emit
                            Startup.call Startup.ret id].
  unfold Startup.not_str in *.
  destruct (String.eqb class_name "") eqn:Ecls; rewrite E1; cbn [Startup.timeout_ms
    Startup.input_serdes Startup.set_input_serdes];
    rewrite lookup_insert_eq, Hi, expected_mode;
    unfold expected_subscription, expected_topic, serde_for in E2;
    rewrite Ecls, E1 in E2; rewrite E2;
    unfold expected_subscription, expected_topic, serde_for; rewrite Ecls, E1;
    reflexivity.
Qed.

Lemma second_loop_body_outcome x i :
  Startup.timeout_ms i =
    (if 0 <? Startup.timeoutMs source then Some (Startup.timeoutMs source) else None) →
  ∃ i1, second_loop_body cfg source env senv x i = (Normal tt, i1)
        ∧ loop_outcome i i1
            [expected_subscription cfg source env senv (fst x)
               (Startup.serdeClassName (snd x)) (Startup.isRegexPattern (snd x))]
            [fst x].
Proof.
  intros Hi. destruct x as [topic [class_name regex]].
  cbn [fst snd Startup.serdeClassName Startup.isRegexPattern].
  destruct (subscribe_one topic class_name regex i Hi)
    as (sd & consumer & E1 & E2 & O).
  eexists. split; [|exact O].
  unfold second_loop_body.
  cbv beta iota zeta delta [Startup.bind Startup.gets Startup.modify Startup.emit
                            Startup.call Startup.ret id
                            Startup.serdeClassName Startup.isRegexPattern].
  unfold Startup.not_str in *.
  destruct Hok as (_ & _ & Hre). destruct (Hre topic) as [p Hp].
  destruct (String.eqb class_name "") eqn:Ecls; rewrite E1; destruct regex;
    rewrite ?Hp; cbn [Startup.timeout_ms Startup.input_serdes
                      Startup.set_input_serdes];
    rewrite lookup_insert_eq, Hi, expected_mode;
    unfold expected_subscription, expected_topic, serde_for in E2;
    rewrite Ecls, E1, ?Hp in E2; rewrite E2;
    unfold expected_subscription, expected_topic, serde_for;
    rewrite Ecls, E1, ?Hp; reflexivity.
Qed.

(** Both loops: every entry of the two maps is subscribed, in order. *)
Lemma loops_outcome t :
  ∃ i', Startup.bind
          (Startup.for_each (Startup.topicsToSerDeClassName source)
             (first_loop_body cfg source env senv))
          (fun _ =>
             Startup.for_each (Startup.inputSpecs source)
               (second_loop_body cfg source env senv))
          (Startup.init source t) = (Normal tt, i')
        ∧ loop_outcome (Startup.init source t) i'
            (expected_subscriptions cfg source env senv) (input_topics source).
Proof.
  destruct (for_each_outcome (Startup.topicsToSerDeClassName source)
              (first_loop_body cfg source env senv)
              (fun x => expected_subscription cfg source env senv (fst x) (snd x) false)
              fst _ first_loop_body_outcome (Startup.init source t) eq_refl)
    as (i1 & E1 & O1).
  assert (Hi1 : Startup.timeout_ms i1 =
                (if 0 <? Startup.timeoutMs source
                 then Some (Startup.timeoutMs source) else None)).
  { destruct O1 as (_ & _ & _ & T & _). exact T. }
  destruct (for_each_outcome (Startup.inputSpecs source)
              (second_loop_body cfg source env senv)
              (fun x => expected_subscription cfg source env senv (fst x)
                          (Startup.serdeClassName (snd x))
                          (Startup.isRegexPattern (snd x)))
              fst _ second_loop_body_outcome i1 Hi1)
    as (i2 & E2 & O2).
  exists i2. split.
  - rewrite (startup_bind_Normal _ _ _ _ _ E1). exact E2.
  - destruct O1 as (A1 & A2 & A3 & A4 & A5 & A6 & A7 & A8 & A9).
    destruct O2 as (B1 & B2 & B3 & B4 & B5 & B6 & B7 & B8 & B9).
    unfold loop_outcome, expected_subscriptions, input_topics.
    repeat split; try congruence.
    + rewrite B1, A1, map_app, <- app_assoc. do 3 f_equal.
      * apply map_ext. intros [? ?]. reflexivity.
      * apply map_ext. intros [? ?]. reflexivity.
    + rewrite B2, A2, list_to_set_app_L, (assoc_L (∪)). reflexivity.
    + rewrite B3, A3, list_to_set_app_L, (assoc_L (∪)). reflexivity.
Qed.

End StartupProperties.

Lemma subscriptions_app evs1 evs2 :
  Startup.subscriptions (evs1 ++ evs2) =
    Startup.subscriptions evs1 ++ Startup.subscriptions evs2.
Proof. unfold Startup.subscriptions. apply omap_app. Qed.

Lemma subscriptions_Subscribed calls :
  Startup.subscriptions (map Startup.Subscribed calls) = calls.
Proof.
  unfold Startup.subscriptions. induction calls as [|c calls IH]; [reflexivity|].
  cbn. rewrite IH. reflexivity.
Qed.

(** What follows the loops, case by case. *)
Lemma load_and_launch_eq cfg source env senv i :
  load_and_launch cfg source env senv i =
    match Startup.import_class senv (Startup.className source) with
    | Raises e => (Raise e, i)
    | Returns None => (Raise Startup.NameError, i)
    | Returns (Some kclass) =>
        let i1 :=
          match Startup.instantiate senv kclass with
          | Returns _ => Startup.set_function_class (Some kclass) i
          | Raises _ => Startup.set_function_purefunction (Some kclass) i
          end in
        (Normal tt,
         let i2 :=
           Startup.set_health_check_ts (Startup.now i1)
             (Startup.set_events
                (Startup.events i1 ++ [Startup.ContextCreated; Startup.ThreadStarted])
                (Startup.set_execution_thread_started true i1)) in
         if py_gt (expected_healthcheck_interval cfg) 0
         then Startup.set_events
                (Startup.events i2 ++
                 [Startup.TimerStarted (expected_healthcheck_interval cfg)]) i2
         else i2)
    end.
Proof.
  unfold load_and_launch.
  cbv beta iota zeta delta [Startup.bind Startup.call Startup.ret Startup.raise].
  destruct (Startup.import_class senv (Startup.className source)) as [[kclass|]|e];
    try reflexivity.
  cbv beta iota zeta delta [Startup.try_except Startup.bind Startup.call Startup.ret
                            Startup.raise Startup.modify Startup.emit Startup.gets].
  destruct (Startup.instantiate senv kclass) as [[]|e];
    destruct (py_gt (expected_healthcheck_interval cfg) 0); cbn;
    rewrite <- ?app_assoc; reflexivity.
Qed.

Lemma load_and_launch_frame cfg source env senv i :
  Startup.subscriptions (Startup.events (snd (load_and_launch cfg source env senv i))) =
    Startup.subscriptions (Startup.events i)
  ∧ Startup.consumers (snd (load_and_launch cfg source env senv i)) =
      Startup.consumers i
  ∧ Startup.input_serdes (snd (load_and_launch cfg source env senv i)) =
      Startup.input_serdes i.
Proof.
  rewrite load_and_launch_eq.
  destruct (Startup.import_class senv (Startup.className source)) as [[kclass|]|e];
    [|repeat split..].
  destruct (Startup.instantiate senv kclass) as [[]|e];
    destruct (py_gt (expected_healthcheck_interval cfg) 0); cbn;
    rewrite ?subscriptions_app; cbn; rewrite ?app_nil_r; repeat split.
Qed.

Lemma run_after_loops cfg source env senv t :
  subscriptions_succeed env senv →
  ∃ i, Startup.run cfg source env senv (Startup.init source t) =
         load_and_launch cfg source env senv i
       ∧ loop_outcome (Startup.init source t) i
           (expected_subscriptions cfg source env senv) (input_topics source).
Proof.
  intros Hok. destruct (loops_outcome cfg source env senv Hok t) as (i & E & O).
  exists i. split; [|exact O]. rewrite run_eq.
  unfold Startup.bind in *.
  destruct (Startup.for_each (Startup.topicsToSerDeClassName source)
              (first_loop_body cfg source env senv) (Startup.init source t))
    as [[[]|e|] i1]; try discriminate.
  rewrite E. reflexivity.
Qed.

(** X16. When the serdes can be loaded and the client accepts the
    subscriptions, [run] subscribes once for every entry of
    [topicsToSerDeClassName] and then once for every entry of [inputSpecs],
    in the order of the entries: a topic named in both maps is subscribed
    twice. Every subscription uses the name [tenant/namespace/name], the
    failover consumer type exactly for the FAILOVER subscription type, the
    unacked-message timeout only when [timeoutMs] is positive, the default
    serde for an empty serde class name, and the compiled pattern for a
    regex topic. The two dictionaries end with one entry per distinct topic.
    All this holds however [run] ends. *)
Theorem X16_run_subscribes_every_input_topic
    (cfg : Config) (source : Startup.SourceSpec) (env : Env)
    (senv : Startup.StartupEnv) (t : Q) :
  subscriptions_succeed env senv →
  Startup.subscriptions
    (Startup.events (snd (Startup.run cfg source env senv (Startup.init source t)))) =
    expected_subscriptions cfg source env senv
  ∧ dom (Startup.consumers
           (snd (Startup.run cfg source env senv (Startup.init source t)))) =
      list_to_set (input_topics source)
  ∧ dom (Startup.input_serdes
           (snd (Startup.run cfg source env senv (Startup.init source t)))) =
      list_to_set (input_topics source).
Proof.
  intros Hok. destruct (run_after_loops cfg source env senv t Hok) as (i & E & O).
  rewrite E. destruct (load_and_launch_frame cfg source env senv i) as (F1 & F2 & F3).
  rewrite F1, F2, F3. destruct O as (O1 & O2 & O3 & _).
  rewrite O1, O2, O3. cbn [Startup.init Startup.events Startup.consumers
                           Startup.input_serdes app].
  rewrite subscriptions_Subscribed, !dom_empty_L, !(left_id_L ∅ (∪)).
  repeat split.
Qed.

Lemma X16_witness :
  let cfg := sample_config ATLEAST_ONCE true None in
  let env := sample_env exclaim in
  let senv := sample_startup_env (Some "exclamation.Exclamation"%string) true in
  Startup.subscriptions
    (Startup.events
       (snd (Startup.run cfg sample_source env senv (Startup.init sample_source 100)))) =
    expected_subscriptions cfg sample_source env senv
  ∧ dom (Startup.consumers
           (snd (Startup.run cfg sample_source env senv
                   (Startup.init sample_source 100)))) =
      list_to_set (input_topics sample_source)
  ∧ dom (Startup.input_serdes
           (snd (Startup.run cfg sample_source env senv
                   (Startup.init sample_source 100)))) =
      list_to_set (input_topics sample_source).
Proof.
  intros cfg env senv.
  apply (X16_run_subscribes_every_input_topic cfg sample_source env senv 100).
  repeat split; intros; eexists; reflexivity.
Defined.

(** X17. When [util.import_class] gives [None] for the user class, [run]
    raises [NameError], but only after it has subscribed to every input
    topic: the consumers are live and their listeners fill the queue, while
    no execution thread and no watchdog timer have been started and no
    function object is set. *)
Theorem X17_missing_user_class_raises_after_subscribing
    (cfg : Config) (source : Startup.SourceSpec) (env : Env)
    (senv : Startup.StartupEnv) (t : Q) :
  subscriptions_succeed env senv →
  Startup.import_class senv (Startup.className source) = Returns None →
  ∃ i, Startup.run cfg source env senv (Startup.init source t) =
         (Raise Startup.NameError, i)
       ∧ Startup.events i =
           map Startup.Subscribed (expected_subscriptions cfg source env senv)
       ∧ Startup.execution_thread_started i = false
       ∧ Startup.function_class i = None
       ∧ Startup.function_purefunction i = None.
Proof.
  intros Hok Himport.
  destruct (run_after_loops cfg source env senv t Hok) as (i & E & O).
  exists i. rewrite E, load_and_launch_eq, Himport.
  destruct O as (O1 & _ & _ & _ & O5 & O6 & O7 & _).
  rewrite O1, O5, O6, O7. repeat split.
Qed.

Lemma X17_witness :
  let cfg := sample_config ATLEAST_ONCE true None in
  let env := sample_env exclaim in
  let senv := sample_startup_env None true in
  ∃ i, Startup.run cfg sample_source env senv (Startup.init sample_source 100) =
         (Raise Startup.NameError, i)
       ∧ Startup.events i =
           map Startup.Subscribed (expected_subscriptions cfg sample_source env senv)
       ∧ Startup.execution_thread_started i = false
       ∧ Startup.function_class i = None
       ∧ Startup.function_purefunction i = None.
Proof.
  intros cfg env senv.
  apply (X17_missing_user_class_raises_after_subscribing cfg sample_source env senv 100).
  - repeat split; intros; eexists; reflexivity.
  - reflexivity.
Defined.

(** X18. When the user class is found, [run] returns: after the
    subscriptions it creates the context and starts the execution thread,
    stamps the time of the last health check, and starts the watchdog timer
    exactly when the expected health-check interval is positive. The class
    is used as a function class when it can be instantiated without
    arguments; when the constructor raises anything at all (the [except] is
    bare), the class itself is kept as the pure function and [run] goes
    on. *)
Theorem X18_run_launches_thread_and_watchdog
    (cfg : Config) (source : Startup.SourceSpec) (env : Env)
    (senv : Startup.StartupEnv) (t : Q) (kclass : string) :
  subscriptions_succeed env senv →
  Startup.import_class senv (Startup.className source) = Returns (Some kclass) →
  ∃ i, Startup.run cfg source env senv (Startup.init source t) = (Normal tt, i)
       ∧ Startup.events i =
           map Startup.Subscribed (expected_subscriptions cfg source env senv)
           ++ [Startup.ContextCreated; Startup.ThreadStarted]
           ++ (if py_gt (expected_healthcheck_interval cfg) 0
               then [Startup.TimerStarted (expected_healthcheck_interval cfg)]
               else [])
       ∧ Startup.execution_thread_started i = true
       ∧ Startup.health_check_ts i = t
       ∧ (Startup.function_class i, Startup.function_purefunction i) =
           match Startup.instantiate senv kclass with
           | Returns _ => (Some kclass, None)
           | Raises _ => (None, Some kclass)
           end.
Proof.
  intros Hok Himport.
  destruct (run_after_loops cfg source env senv t Hok) as (i & E & O).
  rewrite E, load_and_launch_eq, Himport. eexists. split; [reflexivity|].
  destruct O as (O1 & _ & _ & _ & O5 & O6 & _ & _ & O9).
  destruct (Startup.instantiate senv kclass) as [[]|e];
    destruct (py_gt (expected_healthcheck_interval cfg) 0); cbn;
    rewrite O1, ?O5, ?O6, ?O9; cbn; rewrite <- ?app_assoc, ?app_nil_r;
    repeat split.
Qed.

Lemma X18_witness :
  let cfg := sample_config ATLEAST_ONCE true None in
  let env := sample_env exclaim in
  let senv := sample_startup_env (Some "exclamation.Exclamation"%string) false in
  ∃ i, Startup.run cfg sample_source env senv (Startup.init sample_source 100) =
         (Normal tt, i)
       ∧ Startup.events i =
           map Startup.Subscribed (expected_subscriptions cfg sample_source env senv)
           ++ [Startup.ContextCreated; Startup.ThreadStarted]
           ++ (if py_gt (expected_healthcheck_interval cfg) 0
               then [Startup.TimerStarted (expected_healthcheck_interval cfg)]
               else [])
       ∧ Startup.execution_thread_started i = true
       ∧ Startup.health_check_ts i = 100%Q
       ∧ (Startup.function_class i, Startup.function_purefunction i) =
           match Startup.instantiate senv "exclamation.Exclamation"%string with
           | Returns _ => (Some "exclamation.Exclamation"%string, None)
           | Raises _ => (None, Some "exclamation.Exclamation"%string)
           end.
Proof.
  intros cfg env senv.
  apply (X18_run_launches_thread_and_watchdog cfg sample_source env senv 100
           "exclamation.Exclamation"%string).
  - repeat split; intros; eexists; reflexivity.
  - reflexivity.
Defined.

(** ** A message that is published *)

Lemma process_result_sends cfg env out msg s t payload :
  sink_topic (details cfg) = Some t →
  sink_configured cfg = true →
  (∀ class_name, ∃ sd, import_serde env class_name = Returns sd) →
  create_producer env t = Returns tt →
  (∀ sd, serialize env sd out = Returns (Some payload)) →
  ∃ s', process_result cfg env (Some out) msg s = (Normal tt, s')
        ∧ trace s' =
            trace s
            ++ (match producer s with None => [CreateProducer t] | Some _ => [] end)
            ++ [SendAsync payload
                  (<["__pfn_input_msg_id__" :=
                       base64ify (PY3 cfg) (PyBytes (message_id (message msg)))]>
                     (<["__pfn_input_topic__" := topic msg]> ∅))
                  (consumer msg) (message msg)]
        ∧ producer s' = Some (default t (producer s))
        ∧ same_but_routing s s'.
Proof.
  intros Ht Hsink Himport Hcreate Hser.
  destruct (process_result_frame cfg env (Some out) msg s) as [F _].
  revert F. unfold process_result. rewrite Hsink.
  cbv beta iota zeta delta [bind get gets].
  assert (Hserde :
    ∃ s1, when (bool_decide (output_serde s = None)) (setup_output_serde cfg env) s =
            (Normal tt, s1)
          ∧ (∃ sd, output_serde s1 = Some sd)
          ∧ producer s1 = producer s ∧ trace s1 = trace s).
  { destruct (output_serde s) as [sd|] eqn:Hsd.
    - exists s. rewrite bool_decide_eq_false_2 by discriminate.
      split; [reflexivity|]. eauto.
    - rewrite bool_decide_eq_true_2 by reflexivity. cbn [when].
      unfold setup_output_serde.
      destruct (sink_serDeClassName (details cfg)) as [cls|];
        [destruct (0 <? String.length cls)%nat|];
        match goal with
        | |- context [import_serde env ?c] =>
            destruct (Himport c) as [sd Hsd']; eexists;
            cbv beta iota zeta delta [bind call ret modify]; rewrite Hsd';
            (split; [reflexivity|]); cbn; eauto
        end. }
  destruct Hserde as (s1 & E1 & [sd Hsd1] & Hp1 & Ht1). rewrite E1. cbv beta iota.
  assert (Hproducer :
    ∃ s2, when (bool_decide (producer s1 = None)) (setup_producer cfg env) s1 =
            (Normal tt, s2)
          ∧ output_serde s2 = Some sd
          ∧ producer s2 = Some (default t (producer s))
          ∧ trace s2 =
              trace s ++ match producer s with
                         | None => [CreateProducer t] | Some _ => [] end).
  { rewrite Hp1. destruct (producer s) as [t0|] eqn:Hp.
    - exists s1. rewrite bool_decide_eq_false_2 by discriminate.
      rewrite app_nil_r. cbn. auto.
    - rewrite bool_decide_eq_true_2 by reflexivity. cbn [when].
      unfold setup_producer, sink_configured in *. rewrite Ht in *. rewrite Hsink.
      cbn [when]. cbv beta iota zeta delta [bind call ret emit modify].
      rewrite Hcreate. eexists. split; [reflexivity|].
      cbn. rewrite Ht1. auto. }
  destruct Hproducer as (s2 & E2 & Hsd2 & Hp2 & Ht2). rewrite E2. cbv beta iota.
  rewrite Hsd2. unfold call. rewrite Hser. cbv beta iota zeta delta [ret].
  rewrite Hp2. intros F. eexists. split; [reflexivity|].
  cbn [trace set_trace producer emit modify snd] in *.
  rewrite Ht2, Hp2, <- app_assoc. auto.
Qed.

(** X19. With a sink topic, a message on which the user function returns
    an output that the output serde serializes is published exactly once:
    the turn loads the output serde and creates the producer if the
    instance has none yet (and only then), hands the serialized bytes to
    [send_async] with the topic and the encoded id of the input message as
    properties and the callback bound to its consumer and message, and
    counts the message as processed and as successfully processed. The
    message is not acknowledged in this turn: that is left to the
    callback. *)
Theorem X19_output_is_published_once
    (cfg : Config) (env : Env) (s : State) (msg : InternalMessage)
    (rest : list queue_entry) (input out : PyObject) (dt : Q)
    (t : string) (payload : bytes) :
  queue s = Work msg :: rest →
  deserialize env (serde msg) (data (message msg)) = Returns input →
  user_call_for cfg env input msg s = (Returns (Some out), dt) →
  sink_topic (details cfg) = Some t →
  sink_configured cfg = true →
  (∀ class_name, ∃ sd, import_serde env class_name = Returns sd) →
  create_producer env t = Returns tt →
  (∀ sd, serialize env sd out = Returns (Some payload)) →
  ∃ s', loop_body cfg env s = (Normal Continue, s')
    ∧ counter cfg TOTAL_PROCESSED s' = (counter cfg TOTAL_PROCESSED s + 1)%Q
    ∧ counter cfg TOTAL_SUCCESSFULLY_PROCESSED s' =
        (counter cfg TOTAL_SUCCESSFULLY_PROCESSED s + 1)%Q
    ∧ counter cfg TOTAL_USER_EXCEPTIONS s' = counter cfg TOTAL_USER_EXCEPTIONS s
    ∧ counter cfg TOTAL_SYSTEM_EXCEPTIONS s' = counter cfg TOTAL_SYSTEM_EXCEPTIONS s
    ∧ trace s' =
        trace s
        ++ (if has_log_topic_handler cfg then [LogRedirect; LogRestore] else [])
        ++ (match producer s with None => [CreateProducer t] | Some _ => [] end)
        ++ [SendAsync payload
              (<["__pfn_input_msg_id__" :=
                   base64ify (PY3 cfg) (PyBytes (message_id (message msg)))]>
                 (<["__pfn_input_topic__" := topic msg]> ∅))
              (consumer msg) (message msg)]
    ∧ acknowledgements (trace s') = acknowledgements (trace s)
    ∧ producer s' = Some (default t (producer s))
    ∧ queue s' = rest.
Proof.
  intros Hq Hd Hu Ht Hsink Himport Hcreate Hser.
  rewrite (loop_body_Work _ _ _ _ _ Hq). unfold handled.
  rewrite Hd, (user_call_for_eq _ _ _ _ _ _ _ Hq), Hu.
  destruct (process_result_sends cfg env out msg
              (processed cfg dt (called_for cfg msg (dequeued s))) t payload
              Ht Hsink Himport Hcreate Hser)
    as (s3 & E & Htr & Hp & F).
  rewrite E. eexists. split; [reflexivity|].
  destruct F as (F1 & F2 & F3 & _).
  destruct (processed_views cfg dt (called_for cfg msg (dequeued s)))
    as (P1 & _ & P3 & P4 & _ & _ & P7).
  destruct (called_for_views cfg msg s _ _ Hq) as (C1 & C2 & C3 & C4 & C5 & C6 & C7).
  destruct (counter_inc_views cfg TOTAL_SUCCESSFULLY_PROCESSED s3) as (I1 & I2 & I3).
  assert (Htrace : trace s3 =
            trace s
            ++ (if has_log_topic_handler cfg then [LogRedirect; LogRestore] else [])
            ++ (match producer s with None => [CreateProducer t] | Some _ => [] end)
            ++ [SendAsync payload
                  (<["__pfn_input_msg_id__" :=
                       base64ify (PY3 cfg) (PyBytes (message_id (message msg)))]>
                     (<["__pfn_input_topic__" := topic msg]> ∅))
                  (consumer msg) (message msg)]).
  { rewrite Htr, P4, C4, P7, C7. rewrite <- !app_assoc.
    destruct (has_log_topic_handler cfg); reflexivity. }
  unfold counter. rewrite I1, I2, I3. unfold counter. rewrite F1, P1.
  unfold counter. rewrite C1.
  repeat split; counters; try reflexivity.
  - exact Htrace.
  - rewrite Htrace, !acknowledgements_app.
    destruct (has_log_topic_handler cfg), (producer s); cbn;
      rewrite ?app_nil_r; reflexivity.
  - change (producer (snd (counter_inc TOTAL_SUCCESSFULLY_PROCESSED
                             (metrics_labels cfg) s3)))
      with (producer s3).
    rewrite Hp, P4, C4. reflexivity.
  - rewrite F3, P3, C3. reflexivity.
Qed.

Lemma X19_witness :
  let cfg := sample_config ATLEAST_ONCE true sink_topic_sample in
  let env := sample_env exclaim in
  let s := one_item_queued cfg in
  let msg := sample_item x01 in
  ∃ s', loop_body cfg env s = (Normal Continue, s')
    ∧ counter cfg TOTAL_PROCESSED s' = (counter cfg TOTAL_PROCESSED s + 1)%Q
    ∧ counter cfg TOTAL_SUCCESSFULLY_PROCESSED s' =
        (counter cfg TOTAL_SUCCESSFULLY_PROCESSED s + 1)%Q
    ∧ counter cfg TOTAL_USER_EXCEPTIONS s' = counter cfg TOTAL_USER_EXCEPTIONS s
    ∧ counter cfg TOTAL_SYSTEM_EXCEPTIONS s' = counter cfg TOTAL_SYSTEM_EXCEPTIONS s
    ∧ trace s' =
        trace s
        ++ (if has_log_topic_handler cfg then [LogRedirect; LogRestore] else [])
        ++ (match producer s with
            | None => [CreateProducer "persistent://public/default/out"]
            | Some _ => []
            end)
        ++ [SendAsync (list_byte_of_string "hello!")
              (<["__pfn_input_msg_id__" :=
                   base64ify (PY3 cfg) (PyBytes (message_id (message msg)))]>
                 (<["__pfn_input_topic__" := topic msg]> ∅))
              (consumer msg) (message msg)]
    ∧ acknowledgements (trace s') = acknowledgements (trace s)
    ∧ producer s' =
        Some (default "persistent://public/default/out"%string (producer s))
    ∧ queue s' = [].
Proof.
  intros cfg env s msg.
  apply (X19_output_is_published_once cfg env s msg [] "hello"%string
           "hello!"%string (1 # 100) "persistent://public/default/out"%string
           (list_byte_of_string "hello!")).
  - reflexivity.
  - reflexivity.
  - reflexivity.
  - reflexivity.
  - reflexivity.
  - intros class_name. eexists. reflexivity.
  - reflexivity.
  - intros sd. reflexivity.
Defined.

(** ** Which messages are acknowledged or published *)

Lemma turn_about cfg env msg :
  spec (emits (about msg)) any_kind (turn cfg env (Work msg)).
Proof.
  unfold turn.
  spec_go (emits_refl (about msg)) (emits_trans (about msg)) any_kind
          ltac:(idtac; emits_side ltac:(idtac; first [reflexivity | exact I])).
Qed.

Ltac unaddressed_go :=
  spec_go (emits_refl unaddressed) (emits_trans unaddressed) any_kind
          ltac:(idtac; emits_side ltac:(idtac; reflexivity)).

Lemma elapse_unaddressed dt : spec (emits unaddressed) any_kind (elapse dt).
Proof. unaddressed_go. Qed.

Lemma health_check_unaddressed : spec (emits unaddressed) any_kind health_check.
Proof. unaddressed_go. Qed.

Lemma watchdog_unaddressed cfg :
  spec (emits unaddressed) any_kind (process_spawner_health_check_timer cfg).
Proof. unaddressed_go. Qed.

Lemma get_function_status_unaddressed cfg :
  spec (emits unaddressed) any_kind (get_function_status cfg).
Proof. unaddressed_go. Qed.

Lemma get_metrics_unaddressed cfg :
  spec (emits unaddressed) any_kind (get_metrics cfg).
Proof. unaddressed_go. Qed.

Lemma get_and_reset_metrics_unaddressed cfg :
  spec (emits unaddressed) any_kind (get_and_reset_metrics cfg).
Proof. unaddressed_go. Qed.

Lemma taken_messages_app s s' entries :
  get_log s' = get_log s ++ entries →
  ∀ cm, cm ∈ taken_messages s → cm ∈ taken_messages s'.
Proof.
  intros H cm. unfold taken_messages. rewrite H, work_items_app, map_app.
  intros Hin. apply elem_of_app. left. exact Hin.
Qed.

(** The invariant under a step that takes [entries] from the queue and
    adds events about messages that have been taken by then. *)
Lemma routes_only_taken_step s s' entries evs :
  get_log s' = get_log s ++ entries →
  trace s' = trace s ++ evs →
  Forall (fun ev => ∀ cm, addressed ev = Some cm → cm ∈ taken_messages s') evs →
  routes_only_taken s → routes_only_taken s'.
Proof.
  intros Hg Ht F H ev cm Hev Ha. rewrite Ht in Hev.
  apply elem_of_app in Hev as [Hev|Hev].
  - eapply taken_messages_app; [exact Hg|]. eapply H; eauto.
  - rewrite Forall_forall in F. eapply F; eauto.
Qed.

Lemma unaddressed_step s s' :
  same_logs s s' → emits unaddressed s s' →
  routes_only_taken s → routes_only_taken s'.
Proof.
  intros (_ & _ & Hg) (evs & Ht & F).
  apply (routes_only_taken_step s s' [] evs); [rewrite app_nil_r; exact Hg | exact Ht|].
  eapply Forall_impl; [exact F|]. intros ev Hev cm Ha.
  unfold unaddressed in Hev. congruence.
Qed.

Lemma after_unaddressed {A} (m : M A) p p' :
  spec same_logs any_kind m → spec (emits unaddressed) any_kind m →
  after m p = Some p' →
  routes_only_taken (state p) → routes_only_taken (state p').
Proof.
  intros H1 H2 H. unfold after in H.
  destruct (H1 (state p)) as [L _]. destruct (H2 (state p)) as [E _].
  destruct (m (state p)) as [[a|e|] s1]; simplify_eq; cbn in *;
    eapply unaddressed_step; eauto.
Qed.

Section Taken.

Variable cfg : Config.
Variable env : Env.
Hypothesis Hmode : atmost_once cfg && auto_ack cfg = false.

Lemma step_routes_only_taken a p p' :
  step cfg env a p = Some p' →
  routes_only_taken (state p) → routes_only_taken (state p').
Proof.
  intros Hstep Inv. unfold step in Hstep.
  destruct (negb (alive (state p))); [discriminate|].
  destruct a as [sd c m| |i res| | |dt| | | | |].
  - rewrite message_listener_eq, Hmode in Hstep.
    destruct (queue_full _ _); [discriminate|].
    cbn in Hstep. injection Hstep as <-.
    apply (routes_only_taken_step (state p) _ [] []); cbn;
      rewrite ?app_nil_r; auto.
  - destruct (execution_thread p); try discriminate.
    destruct (queue (state p)) as [|[msg|] rest] eqn:Hq.
    + rewrite (loop_body_empty _ _ _ Hq) in Hstep. discriminate.
    + rewrite (loop_body_dequeues _ _ _ _ _ Hq) in Hstep.
      fold (turn cfg env (Work msg)) in Hstep.
      destruct (dequeued_spec _ _ _ Hq) as (_ & D2 & _ & D4 & _).
      destruct (turn_same_queue cfg env (Work msg) (dequeued (state p)))
        as [(_ & _ & Q3 & _) _].
      destruct (turn_about cfg env msg (dequeued (state p))) as [(evs & Ht & F) _].
      assert (Inv' : routes_only_taken
                       (snd (turn cfg env (Work msg) (dequeued (state p))))).
      { apply (routes_only_taken_step (state p) _ [Work msg] evs).
        - rewrite Q3, D2. reflexivity.
        - rewrite Ht, D4. reflexivity.
        - eapply Forall_impl; [exact F|]. intros ev Hev cm Ha.
          unfold about in Hev. rewrite Ha in Hev. subst cm.
          unfold taken_messages. rewrite Q3, D2, work_items_app, map_app.
          apply elem_of_app. right. cbn. apply list_elem_of_here.
        - exact Inv. }
      destruct (turn cfg env (Work msg) (dequeued (state p))) as [[[|]|e|] s1];
        simplify_eq; exact Inv'.
    + rewrite (loop_body_quit _ _ _ _ Hq) in Hstep. injection Hstep as <-.
      destruct (dequeued_spec _ _ _ Hq) as (_ & D2 & _ & D4 & _).
      apply (routes_only_taken_step (state p) _ [Quit] []); cbn [state];
        rewrite ?app_nil_r; auto.
  - destruct (bool_decide _); [discriminate|].
    destruct (trace (state p) !! i) as [ev|] eqn:Hi; [|discriminate].
    destruct ev; try discriminate.
    assert (Hin : (cb_consumer, cb_message) ∈ taken_messages (state p)).
    { apply (Inv (SendAsync payload properties cb_consumer cb_message));
        [eapply list_elem_of_lookup_2; exact Hi | reflexivity]. }
    assert (Inv' : routes_only_taken
                     (snd (done_producing cfg cb_consumer cb_message res (state p)))).
    { unfold done_producing.
      destruct (bool_decide (res = ResultOk) && auto_ack cfg && atleast_once cfg);
        cbn; [|exact Inv].
      apply (routes_only_taken_step (state p) _ []
               [Acknowledge cb_consumer cb_message]); cbn;
        rewrite ?app_nil_r; auto.
      constructor; [|constructor]. intros cm [= <-]. exact Hin. }
    destruct (done_producing cfg cb_consumer cb_message res (state p))
      as [[[]|e|] s1]; simplify_eq; exact Inv'.
  - destruct (joiner p); try discriminate.
    unfold join_put in Hstep. rewrite queue_put_eq in Hstep.
    destruct (queue_full _ _); [discriminate|]. injection Hstep as <-.
    apply (routes_only_taken_step (state p) _ [] []); cbn;
      rewrite ?app_nil_r; auto.
  - destruct (joiner p); try discriminate.
    destruct (thread_ended _); simplify_eq. exact Inv.
  - exact (after_unaddressed _ _ _ (elapse_logs dt) (elapse_unaddressed dt) Hstep Inv).
  - exact (after_unaddressed _ _ _ health_check_logs health_check_unaddressed
             Hstep Inv).
  - exact (after_unaddressed _ _ _ (watchdog_logs cfg) (watchdog_unaddressed cfg)
             Hstep Inv).
  - exact (after_unaddressed _ _ _ (get_function_status_logs cfg)
             (get_function_status_unaddressed cfg) Hstep Inv).
  - exact (after_unaddressed _ _ _ (get_metrics_logs cfg)
             (get_metrics_unaddressed cfg) Hstep Inv).
  - exact (after_unaddressed _ _ _ (get_and_reset_metrics_logs cfg)
             (get_and_reset_metrics_unaddressed cfg) Hstep Inv).
Qed.

Lemma run_routes_only_taken schedule : ∀ p p',
  run cfg env schedule p = Some p' →
  routes_only_taken (state p) → routes_only_taken (state p').
Proof.
  induction schedule as [|a schedule IH]; intros p p' Hrun Inv; cbn in Hrun.
  - simplify_eq. exact Inv.
  - destruct (step cfg env a p) as [p1|] eqn:Hstep; [|discriminate].
    eapply IH; [exact Hrun|]. eapply step_routes_only_taken; eauto.
Qed.

End Taken.

(** X20. Unless the instance acknowledges at ingress (at-most-once with
    auto-ack), it acknowledges and publishes for no message that the
    execution thread has not taken from the queue before: in every
    reachable state, each acknowledged message and each message a
    [send_async] callback is bound to belongs to a work item that was
    dequeued. *)
Theorem X20_only_dequeued_messages_are_acknowledged
    (cfg : Config) (env : Env) (now : Q) (schedule : list action) (p : Process) :
  atmost_once cfg && auto_ack cfg = false →
  run cfg env schedule (initial_process cfg now) = Some p →
  ∀ ev c m,
    ev ∈ trace (state p) →
    addressed ev = Some (c, m) →
    ∃ item, Work item ∈ get_log (state p) ∧ consumer item = c ∧ message item = m.
Proof.
  intros Hmode Hrun ev c m Hev Ha.
  assert (H : routes_only_taken (state p)).
  { apply (run_routes_only_taken cfg env Hmode schedule _ _ Hrun).
    intros ev' cm Hev' Ha'. cbn in Hev'.
    destruct (py_gt _ _); [|apply elem_of_nil in Hev'; destruct Hev'].
    apply list_elem_of_singleton in Hev'. subst ev'. discriminate. }
  specialize (H ev (c, m) Hev Ha). unfold taken_messages in H.
  apply list_elem_of_fmap in H as (item & E & Hitem).
  injection E as -> ->. exists item. split; [|auto].
  unfold work_items in Hitem. apply list_elem_of_omap in Hitem as (entry & Hin & He).
  destruct entry as [item'|]; [|discriminate]. injection He as ->. exact Hin.
Qed.

Lemma X20_witness :
  ∃ item, Work item ∈ get_log (state process_after_sample_schedule_with_sink)
          ∧ consumer item = sample_consumer
          ∧ message item = sample_message x01.
Proof.
  refine (X20_only_dequeued_messages_are_acknowledged
            (sample_config ATLEAST_ONCE true sink_topic_sample)
            (sample_env exclaim) 100 sample_schedule
            process_after_sample_schedule_with_sink _ _
            (SendAsync (list_byte_of_string "hello!")
               (<["__pfn_input_msg_id__" :=
                    base64ify true (PyBytes (message_id (sample_message x01)))]>
                  (<["__pfn_input_topic__" := consumer_topic sample_consumer]> ∅))
               sample_consumer (sample_message x01))
            sample_consumer (sample_message x01) _ _).
  - reflexivity.
  - reflexivity.
  - apply (list_elem_of_lookup_2 _ 2). reflexivity.
  - reflexivity.
Defined.
